(** * open_clip model factory: a shallow embedding of [src/open_clip/factory.py]

    The factory resolves a named architecture to a configuration held in the
    module-level registry [_MODEL_CONFIGS], instantiates the network, loads
    pretrained weights, casts precision and builds the image transforms.

    The embedding keeps the Python object model where the factory relies on
    it: configurations are mutable dictionaries living in a store and
    reached through references, so that [deepcopy] and the in-place
    overrides of [load_and_prepare_cfg] mean what they mean in Python.
    Exceptions are values of an error monad which also threads the store,
    the registry and a ghost trace of the framework calls that were made.
    The registry is populated from the JSON files of the listed paths, read
    through an abstract file system; the order of its keys, which only
    [list_models] shows, is kept next to the world.  Logging calls are left
    out. *)

From Stdlib Require Import ZArith String Ascii List Sorted.
From stdpp Require Import base option list strings gmap.

Open Scope string_scope.
Open Scope list_scope.

Set Warnings "-register-all".

(** ** Python strings (the methods the factory uses) *)

Module PyStr.

(** [s.replace(a, b)] for one-character [a] and [b]. *)
Fixpoint replace_char (a b : ascii) (s : string) : string :=
  match s with
  | EmptyString => EmptyString
  | String c s' => String (if Ascii.eqb c a then b else c) (replace_char a b s')
  end.

Definition lower_char (c : ascii) : ascii :=
  let n := nat_of_ascii c in
  if (65 <=? n)%nat && (n <=? 90)%nat then ascii_of_nat (n + 32) else c.

(** [s.lower()], on the ASCII letters; no other character lowers to one,
    so comparing the result with an ASCII literal is exact. *)
Fixpoint lower (s : string) : string :=
  match s with
  | EmptyString => EmptyString
  | String c s' => String (lower_char c) (lower s')
  end.

(** [s.startswith(p)] *)
Definition startswith (s p : string) : bool := String.prefix p s.

(** [s[n:]] *)
Fixpoint drop (n : nat) (s : string) : string :=
  match n, s with
  | O, _ => s
  | S _, EmptyString => EmptyString
  | S n', String _ s' => drop n' s'
  end.

(** [sub in s] *)
Fixpoint contains (sub s : string) : bool :=
  String.prefix sub s ||
  match s with
  | EmptyString => false
  | String _ s' => contains sub s'
  end.

(** [len(s)] *)
Definition len (s : string) : nat := String.length s.

End PyStr.

(** ** Python dictionaries with string keys

    Insertion-ordered, keys unique: an assignment to a present key keeps its
    position, a new key goes last. *)

Module PyDict.

Section Ops.
Context {V : Type}.

Fixpoint get (d : list (string * V)) (k : string) : option V :=
  match d with
  | [] => None
  | (k', v) :: d' => if String.eqb k' k then Some v else get d' k
  end.

Definition mem (d : list (string * V)) (k : string) : bool :=
  match get d k with Some _ => true | None => false end.

Fixpoint set (d : list (string * V)) (k : string) (v : V) : list (string * V) :=
  match d with
  | [] => [(k, v)]
  | (k', v') :: d' =>
      if String.eqb k' k then (k', v) :: d' else (k', v') :: set d' k v
  end.

Fixpoint del (d : list (string * V)) (k : string) : list (string * V) :=
  match d with
  | [] => []
  | (k', v') :: d' => if String.eqb k' k then d' else (k', v') :: del d' k
  end.

(** [dict(items)] and the dict comprehension [{k: v for k, v in items}]. *)
Definition of_items (items : list (string * V)) : list (string * V) :=
  foldl (fun d kv => set d kv.1 kv.2) [] items.

End Ops.

End PyDict.

(** ** Values, references and the store *)

Abbreviation loc := nat.

(** JSON-shaped Python values. A dictionary is a reference into the store;
    a float is [m * 2^e]; a tuple is written as a list. *)
Inductive value : Type :=
  | VNone
  | VBool (b : bool)
  | VInt (z : Z)
  | VFloat (m e : Z)
  | VStr (s : string)
  | VList (vs : list value)
  | VDict (r : loc).

Abbreviation dict := (list (string * value)).
Abbreviation heap := (list (list (string * value))).

(** The document a value denotes, with dictionaries read out of the store. *)
Inductive tree : Type :=
  | TNone
  | TBool (b : bool)
  | TInt (z : Z)
  | TFloat (m e : Z)
  | TStr (s : string)
  | TList (ts : list tree)
  | TDict (kts : list (string * tree)).

Inductive dtype := float16 | bfloat16 | float32.

(** ** Exceptions and the factory monad *)

Inductive exn : Type :=
  | RuntimeError (msg : string)
  | AssertionError (msg : string)
  | KeyError (key : string)
  | TypeError
  | AttributeError
  | StopIteration
  | RecursionError
  | UnboundLocalError
  | InvalidReference.

Inductive result (A : Type) : Type :=
  | Ok (a : A)
  | Raise (e : exn).
Arguments Ok {A} a.
Arguments Raise {A} e.

(** The registry lookups and the calls into the framework, recorded in the
    order they are made (ghost state: nothing reads it). *)
Inductive event : Type :=
  | EvGetModelConfig (model_name : value) (found : bool)
  | EvLoadOpenAI (model_name : value) (precision : string) (jit : bool)
  | EvConstruct (custom_text : bool)
  | EvDownloadPretrained
  | EvTorchLoad (checkpoint_path : value)
  | EvSetVisual
  | EvLoadStateDict (visual_only : bool) (strict : bool)
  | EvToDevice
  | EvConvertLP (dt : dtype)
  | EvJitScript
  | EvImageTransform (is_train : bool).

Record world : Type := World {
  w_heap : heap;
  w_registry : gmap string value;   (* _MODEL_CONFIGS *)
  w_trace : list event
}.

Definition ST (S A : Type) : Type := S -> result A * S.

Definition st_ret {S A} (a : A) : ST S A := fun s => (Ok a, s).

Definition st_bind {S A B} (m : ST S A) (f : A -> ST S B) : ST S B :=
  fun s => match m s with
           | (Ok a, s') => f a s'
           | (Raise e, s') => (Raise e, s')
           end.

Definition raise {S A} (e : exn) : ST S A := fun s => (Raise e, s).

Declare Scope st_scope.
Delimit Scope st_scope with st.
Notation "'let*' x := m 'in' k" := (st_bind m (fun x => k))
  (at level 10, x pattern, m at level 100, k at level 200) : st_scope.
Notation "m ;; k" := (st_bind m (fun _ => k))
  (at level 100, k at level 200, right associativity) : st_scope.
Open Scope st_scope.

Fixpoint st_mapM {S A B} (f : A -> ST S B) (l : list A) : ST S (list B) :=
  match l with
  | [] => st_ret []
  | x :: l' => let* y := f x in let* ys := st_mapM f l' in st_ret (y :: ys)
  end.

Definition M (A : Type) : Type := ST world A.

(** The world with its store replaced. *)
Definition with_heap (w : world) (h : heap) : world :=
  {| w_heap := h; w_registry := w_registry w; w_trace := w_trace w |}.

(** The world after further framework calls. *)
Definition after (w : world) (evs : list event) : world :=
  {| w_heap := w_heap w; w_registry := w_registry w;
     w_trace := w_trace w ++ evs |}.
Arguments after : simpl never.

Definition lift_heap {A} (m : ST heap A) : M A :=
  fun w => let '(r, h) := m (w_heap w) in (r, with_heap w h).

Definition emit (e : event) : M unit :=
  fun w => (Ok tt, after w [e]).

Definition get_registry : M (gmap string value) :=
  fun w => (Ok (w_registry w), w).

Definition get_heap : M heap := fun w => (Ok (w_heap w), w).

(** ** Store operations *)

Definition heap_read (r : loc) : ST heap dict :=
  fun h => match h !! r with
           | Some d => (Ok d, h)
           | None => (Raise InvalidReference, h)
           end.

Definition heap_alloc (d : dict) : ST heap loc :=
  fun h => (Ok (List.length h), h ++ [d]).

Definition heap_write (r : loc) (d : dict) : ST heap unit :=
  fun h => match h !! r with
           | Some _ => (Ok tt, <[r := d]> h)
           | None => (Raise InvalidReference, h)
           end.

(** [copy.deepcopy] on JSON-shaped values: every dictionary reached is
    allocated afresh, the entries of a dictionary before the dictionary
    itself.  [n] bounds the nesting depth, as the interpreter's recursion
    limit does. *)
Fixpoint deepcopy_rec (n : nat) (v : value) : ST heap value :=
  match n with
  | O => raise RecursionError
  | S n' =>
      match v with
      | VList vs =>
          let* vs' := st_mapM (deepcopy_rec n') vs in
          st_ret (VList vs')
      | VDict r =>
          let* d := heap_read r in
          let* d' := st_mapM (fun kv => let* v' := deepcopy_rec n' kv.2 in
                                        st_ret (kv.1, v')) d in
          let* r' := heap_alloc d' in
          st_ret (VDict r')
      | _ => st_ret v
      end
  end.

(** Reading a value back as a document, to the same depth. *)
Fixpoint snapshot (n : nat) (h : heap) (v : value) : option tree :=
  match n with
  | O => None
  | S n' =>
      match v with
      | VNone => Some TNone
      | VBool b => Some (TBool b)
      | VInt z => Some (TInt z)
      | VFloat m e => Some (TFloat m e)
      | VStr s => Some (TStr s)
      | VList vs => TList <$> mapM (snapshot n' h) vs
      | VDict r =>
          d ← h !! r;
          TDict <$> mapM (fun kv => t ← snapshot n' h kv.2; Some (kv.1, t)) d
      end
  end.

(** ** Python operations on values *)

Module Py.

Definition read (r : loc) : M dict := lift_heap (heap_read r).
Definition write (r : loc) (d : dict) : M unit := lift_heap (heap_write r d).

(** A fresh dictionary display, [{}] or [{...}]. *)
Definition new_dict (d : dict) : M value :=
  let* r := lift_heap (heap_alloc d) in st_ret (VDict r).

(** [bool(v)] *)
Definition truthy (v : value) : M bool :=
  match v with
  | VNone => st_ret false
  | VBool b => st_ret b
  | VInt z => st_ret (negb (z =? 0)%Z)
  | VFloat m _ => st_ret (negb (m =? 0)%Z)
  | VStr s => st_ret (negb (String.eqb s ""))
  | VList vs => st_ret (match vs with [] => false | _ :: _ => true end)
  | VDict r => let* d := read r in
               st_ret (match d with [] => false | _ :: _ => true end)
  end.

(** [k in v], for a string [k] *)
Definition has (k : string) (v : value) : M bool :=
  match v with
  | VDict r => let* d := read r in st_ret (PyDict.mem d k)
  | VList vs =>
      st_ret (existsb (fun x => match x with
                                | VStr s => String.eqb s k
                                | _ => false
                                end) vs)
  | VStr s => st_ret (PyStr.contains k s)
  | _ => raise TypeError
  end.

(** [v[k]] *)
Definition getitem (v : value) (k : string) : M value :=
  match v with
  | VDict r => let* d := read r in
               match PyDict.get d k with
               | Some x => st_ret x
               | None => raise (KeyError k)
               end
  | _ => raise TypeError
  end.

(** [v[k] = x] *)
Definition setitem (v : value) (k : string) (x : value) : M unit :=
  match v with
  | VDict r => let* d := read r in write r (PyDict.set d k x)
  | _ => raise TypeError
  end.

(** [v.get(k, dflt)] *)
Definition get_or (v : value) (k : string) (dflt : value) : M value :=
  match v with
  | VDict r => let* d := read r in
               st_ret (match PyDict.get d k with Some x => x | None => dflt end)
  | _ => raise AttributeError
  end.

(** [v.pop(k, dflt)] *)
Definition pop (v : value) (k : string) (dflt : value) : M value :=
  match v with
  | VDict r => let* d := read r in
               match PyDict.get d k with
               | Some x => write r (PyDict.del d k) ;; st_ret x
               | None => st_ret dflt
               end
  | VList _ => raise TypeError
  | _ => raise AttributeError
  end.

(** [**v] in a call *)
Definition kwargs (v : value) : M dict :=
  match v with
  | VDict r => read r
  | _ => raise TypeError
  end.

(** [v.lower()] *)
Definition to_lower (v : value) : M string :=
  match v with
  | VStr s => st_ret (PyStr.lower s)
  | _ => raise AttributeError
  end.

(** [Optional[str]] as a value *)
Definition of_opt_str (o : option string) : value :=
  match o with Some s => VStr s | None => VNone end.

End Py.

(** ** Objects of the framework *)

(** What [torch.load] can return: a tensor, a dictionary with string keys,
    or some other pickled object. *)
Inductive ckpt (T : Type) : Type :=
  | CTensor (t : T)
  | CDict (items : list (string * ckpt T))
  | COther.
Arguments CTensor {T} t.
Arguments CDict {T} items.
Arguments COther {T}.

(** A vision tower: the attributes the factory reads and writes, and the
    rest of the module ([None] stands for an absent attribute). *)
Record visual_obj (VB : Type) : Type := Visual {
  v_image_size : value;
  v_image_mean : option value;
  v_image_std : option value;
  v_body : VB
}.
Arguments Visual {VB}.
Arguments v_image_size {VB}.
Arguments v_image_mean {VB}.
Arguments v_image_std {VB}.
Arguments v_body {VB}.

(** A model: its [visual] attribute and everything else. *)
Record model_obj (VB MB : Type) : Type := Model {
  visual : option (visual_obj VB);
  m_body : MB
}.
Arguments Model {VB MB}.
Arguments visual {VB MB}.
Arguments m_body {VB MB}.

(** The names [factory.py] imports and the framework methods it calls.
    They are taken to return; what they compute is left open. *)
Record Externals : Type := {
  Device : Type;
  Tensor : Type;
  VisualBody : Type;
  ModelBody : Type;
  Incompat : Type;          (* the result of [load_state_dict] *)
  Transform : Type;
  Tokenizer : Type;
  (* the interpreter *)
  max_depth : nat;
  format_value : value -> string;             (* [f'{v}'] *)
  format_str_list : list string -> string;    (* [f'{l}'] *)
  os_path_exists : value -> bool;
  (* torch *)
  torch_device : string -> Device;
  torch_load : value -> ckpt Tensor;
  torch_jit_script : model_obj VisualBody ModelBody -> model_obj VisualBody ModelBody;
  model_to : model_obj VisualBody ModelBody -> Device -> model_obj VisualBody ModelBody;
  model_load_state_dict :
    model_obj VisualBody ModelBody -> list (string * ckpt Tensor) -> bool ->
    Incompat * model_obj VisualBody ModelBody;
  visual_load_state_dict :
    visual_obj VisualBody -> list (string * ckpt Tensor) -> bool ->
    Incompat * visual_obj VisualBody;
  has_positional_embedding : model_obj VisualBody ModelBody -> bool;
  (* .constants *)
  OPENAI_DATASET_MEAN : value;
  OPENAI_DATASET_STD : value;
  (* .model *)
  CLIP : heap -> dict -> option dtype -> model_obj VisualBody ModelBody;
  CustomTextCLIP : heap -> dict -> option dtype -> model_obj VisualBody ModelBody;
  convert_weights_to_lp :
    model_obj VisualBody ModelBody -> dtype -> model_obj VisualBody ModelBody;
  convert_to_custom_text_state_dict :
    list (string * ckpt Tensor) -> list (string * ckpt Tensor);
  resize_pos_embed :
    list (string * ckpt Tensor) -> model_obj VisualBody ModelBody ->
    list (string * ckpt Tensor);
  get_cast_dtype : string -> option dtype;
  (* .openai *)
  load_openai_model :
    value -> string -> Device -> bool -> option string ->
    model_obj VisualBody ModelBody;
  (* .pretrained *)
  is_pretrained_cfg : string -> string -> bool;
  get_pretrained_cfg : value -> value -> dict;
  download_pretrained : dict -> option string -> string;
  list_pretrained_tags_by_model : value -> list string;
  (* .transform *)
  image_transform : value -> bool -> value -> value -> Transform;
  (* .tokenizer *)
  HFTokenizer : value -> Tokenizer;
  tokenize : Tokenizer
}.

(** ** The factory *)

Section Factory.

Variable E : Externals.

Abbreviation model := (model_obj (VisualBody E) (ModelBody E)).
Abbreviation vtower := (visual_obj (VisualBody E)).
Abbreviation state_dict_t := (list (string * ckpt (Tensor E))).

(** [f'{v}']: a string formats as itself. *)
Definition fmt (v : value) : string :=
  match v with
  | VStr s => s
  | _ => format_value E v
  end.

Definition deepcopy (v : value) : M value :=
  lift_heap (deepcopy_rec (max_depth E) v).

(** [model.visual] *)
Definition get_visual (m : model) : M vtower :=
  match visual m with
  | Some v => st_ret v
  | None => raise AttributeError
  end.

Definition set_visual (m : model) (v : vtower) : model :=
  {| visual := Some v; m_body := m_body m |}.

Definition get_model_config (model_name : value) : M value :=
  let* reg := get_registry in
  match model_name with
  | VStr s =>
      match reg !! s with
      | Some cfg => emit (EvGetModelConfig model_name true) ;; deepcopy cfg
      | None => emit (EvGetModelConfig model_name false) ;; st_ret VNone
      end
  | VList _ | VDict _ => raise TypeError      (* unhashable *)
  | _ => emit (EvGetModelConfig model_name false) ;; st_ret VNone
  end.

Definition get_tokenizer (model_name : string) : M (Tokenizer E) :=
  let* config := get_model_config (VStr model_name) in
  let* text_cfg := Py.getitem config "text_cfg" in
  let* has := Py.has "hf_tokenizer_name" text_cfg in
  if has then
    let* text_cfg := Py.getitem config "text_cfg" in
    let* name := Py.getitem text_cfg "hf_tokenizer_name" in
    st_ret (HFTokenizer E name)
  else st_ret (tokenize E).

(** [checkpoint['state_dict']] when [checkpoint] is a dictionary with that
    key, [checkpoint] otherwise. *)
Definition select_state_dict {T} (checkpoint : ckpt T) : ckpt T :=
  match checkpoint with
  | CDict items =>
      match PyDict.get items "state_dict" with
      | Some sd => sd
      | None => checkpoint
      end
  | _ => checkpoint
  end.

Definition load_state_dict (checkpoint_path : value) : M state_dict_t :=
  emit (EvTorchLoad checkpoint_path) ;;
  let checkpoint := torch_load E checkpoint_path in
  let state_dict := select_state_dict checkpoint in
  match state_dict with
  | CDict items =>
      match items with
      | [] => raise StopIteration
      | (k0, _) :: _ =>
          if PyStr.startswith k0 "module"
          then st_ret (PyDict.of_items
                         (map (fun kv => (PyStr.drop 7 kv.1, kv.2)) items))
          else st_ret items
      end
  | _ => raise AttributeError
  end.

Definition load_checkpoint (m : model) (checkpoint_path : value)
    (strict : bool) (which_pretrained_image_tower : value)
    (pretrained_image_tower : option vtower)
  : M (option (Incompat E) * model) :=
  match pretrained_image_tower with
  | Some tower => emit EvSetVisual ;; st_ret (None, set_visual m tower)
  | None =>
      let* state_dict := load_state_dict checkpoint_path in
      let state_dict :=
        if PyDict.mem state_dict "positional_embedding"
           && negb (has_positional_embedding E m)
        then convert_to_custom_text_state_dict E state_dict
        else state_dict in
      let state_dict := resize_pos_embed E state_dict m in
      match which_pretrained_image_tower with
      | VNone =>
          emit (EvLoadStateDict false strict) ;;
          let '(incompatible_keys, m') :=
            model_load_state_dict E m state_dict strict in
          st_ret (Some incompatible_keys, m')
      | _ =>
          let items :=
            List.filter (fun i => PyStr.startswith i.1 "visual") state_dict in
          let prefix_length := PyStr.len "visual" in
          let items :=
            map (fun i => (PyStr.drop (prefix_length + 1) i.1, i.2)) items in
          let* v := get_visual m in
          emit (EvLoadStateDict true strict) ;;
          let '(incompatible_keys, v') :=
            visual_load_state_dict E v (PyDict.of_items items) strict in
          st_ret (Some incompatible_keys, set_visual m v')
      end
  end.

Definition get_cfg_and_handle_error (model_name : value) : M value :=
  let* model_cfg := get_model_config model_name in
  match model_cfg with
  | VNone =>
      raise (RuntimeError
               ("Model config for " +:+ fmt model_name +:+ " not found."))
  | _ => st_ret model_cfg
  end.

(** Returns [(model_name, model_cfg, custom_text, which_pretrained_image_tower)];
    [custom_text] is returned as its truth value, the only use made of it. *)
Definition load_and_prepare_cfg (model_name : value)
    (force_quick_gelu : bool) (force_patch_dropout : option (Z * Z))
    (pretrained_image force_custom_text pretrained_hf : bool)
  : M (value * value * bool * value) :=
  let* model_cfg := get_cfg_and_handle_error model_name in
  let* dflt := Py.new_dict [] in
  let* vision_cfg := Py.get_or model_cfg "vision_cfg" dflt in
  let* pretrained_image :=
    if pretrained_image then st_ret true
    else
      let* has_name := Py.has "model_name" vision_cfg in
      if has_name then st_ret true
      else Py.has "pretrained" vision_cfg in
  let* (model_name, which_pretrained_image_tower) :=
    if pretrained_image then
      let* is_timm := Py.has "timm_model_name" vision_cfg in
      if is_timm then
        let* vc := Py.getitem model_cfg "vision_cfg" in
        Py.setitem vc "timm_model_pretrained" (VBool true) ;;
        st_ret (model_name, VNone)
      else
        let* has_name := Py.has "model_name" vision_cfg in
        if has_name then
          let* pretrained_image_model_name := Py.get_or vision_cfg "model_name" VNone in
          let* pretrained_image_model_cfg :=
            get_cfg_and_handle_error pretrained_image_model_name in
          let* which := Py.get_or vision_cfg "pretrained" (VStr "openai") in
          let* vc := Py.getitem pretrained_image_model_cfg "vision_cfg" in
          Py.setitem model_cfg "vision_cfg" vc ;;
          st_ret (pretrained_image_model_name, which)
        else
          raise (AssertionError
                   "Unintended logic triggered, please debug or implement this block.")
    else st_ret (model_name, VNone) in
  (if force_quick_gelu
   then Py.setitem model_cfg "quick_gelu" (VBool true)
   else st_ret tt) ;;
  match force_patch_dropout with
  | Some p =>
      let* vc := Py.getitem model_cfg "vision_cfg" in
      Py.setitem vc "patch_dropout" (VFloat p.1 p.2)
  | None => st_ret tt
  end ;;
  let* popped := Py.pop model_cfg "custom_text" (VBool false) in
  let* popped_true := Py.truthy popped in
  let* custom_text :=
    if popped_true then st_ret true
    else if force_custom_text then st_ret true
    else
      let* dflt := Py.new_dict [] in
      let* text_cfg := Py.get_or model_cfg "text_cfg" dflt in
      Py.has "hf_model_name" text_cfg in
  (if custom_text then
     let* dflt := Py.new_dict [] in
     let* text_cfg := Py.get_or model_cfg "text_cfg" dflt in
     let* has_hf := Py.has "hf_model_name" text_cfg in
     if has_hf then
       let* tc := Py.getitem model_cfg "text_cfg" in
       Py.setitem tc "hf_model_pretrained" (VBool pretrained_hf)
     else st_ret tt
   else st_ret tt) ;;
  st_ret (model_name, model_cfg, custom_text, which_pretrained_image_tower).

(** [x or dflt] *)
Definition or_default (x dflt : value) : M value :=
  let* t := Py.truthy x in st_ret (if t then x else dflt).

Definition create_model (model_name : string) (pretrained : option string)
    (precision : string) (device : string + Device E) (jit : bool)
    (force_quick_gelu force_custom_text : bool)
    (force_patch_dropout : option (Z * Z))
    (pretrained_image pretrained_hf : bool) (cache_dir : option string)
  : M model :=
  let model_name := PyStr.replace_char "/" "-" model_name in
  let device := match device with
                | inl s => torch_device E s
                | inr d => d
                end in
  let cast_dtype := get_cast_dtype E precision in
  let* (model_name, model_cfg, custom_text, which_pretrained_image_tower) :=
    load_and_prepare_cfg (VStr model_name) force_quick_gelu
      force_patch_dropout pretrained_image force_custom_text pretrained_hf in
  let* extract_openai_image_tower :=
    match which_pretrained_image_tower with
    | VNone => st_ret false
    | w => let* l := Py.to_lower w in st_ret (String.eqb l "openai")
    end in
  let pure_openai :=
    match pretrained with
    | Some p => negb (String.eqb p "")
                && String.eqb (PyStr.lower p) "openai"
                && negb extract_openai_image_tower
    | None => false
    end in
  let process_openai := extract_openai_image_tower || pure_openai in
  let* (m, pretrained_image_tower) :=
    if process_openai then
      emit (EvLoadOpenAI model_name precision jit) ;;
      let m := load_openai_model E model_name precision device jit cache_dir in
      st_ret (Some m, if extract_openai_image_tower then visual m else None)
    else st_ret (None, None) in
  let* m :=
    if negb pure_openai then
      let* kw := Py.kwargs model_cfg in
      (* [cast_dtype] is passed by name: a keyword cannot be given twice *)
      (if PyDict.mem kw "cast_dtype" then raise TypeError else st_ret tt) ;;
      let* h := get_heap in
      emit (EvConstruct custom_text) ;;
      let m := if custom_text
               then CustomTextCLIP E h kw cast_dtype
               else CLIP E h kw cast_dtype in
      let pretrained :=
        match which_pretrained_image_tower with
        | VNone => Py.of_opt_str pretrained
        | w => w
        end in
      let* pretrained_true := Py.truthy pretrained in
      let* (pretrained_cfg, checkpoint_path) :=
        if pretrained_true && negb process_openai then
          let pretrained_cfg := get_pretrained_cfg E model_name pretrained in
          match pretrained_cfg with
          | _ :: _ =>
              emit EvDownloadPretrained ;;
              st_ret (pretrained_cfg,
                      VStr (download_pretrained E pretrained_cfg cache_dir))
          | [] =>
              if os_path_exists E pretrained
              then st_ret (pretrained_cfg, pretrained)
              else st_ret (pretrained_cfg, VNone)
          end
        else st_ret ([], VNone) in
      let* checkpoint_true := Py.truthy checkpoint_path in
      let* m :=
        if checkpoint_true || extract_openai_image_tower then
          let* (_, m') :=
            load_checkpoint m checkpoint_path true
              which_pretrained_image_tower pretrained_image_tower in
          st_ret m'
        else
          let* pretrained_true := Py.truthy pretrained in
          if pretrained_true then
            raise (RuntimeError
              ("Pretrained weights (" +:+ fmt pretrained
               +:+ ") not found for model " +:+ fmt model_name
               +:+ ".Available pretrained tags ("
               +:+ format_str_list E (list_pretrained_tags_by_model E model_name)
               +:+ "."))
          else st_ret m in
      emit EvToDevice ;;
      let m := model_to E m device in
      let* m :=
        if String.eqb precision "fp16" || String.eqb precision "bf16" then
          let dt := if String.eqb precision "bf16" then bfloat16 else float16 in
          emit (EvConvertLP dt) ;;
          st_ret (convert_weights_to_lp E m dt)
        else st_ret m in
      let* mean :=
        or_default (default VNone (PyDict.get pretrained_cfg "mean"))
                   (OPENAI_DATASET_MEAN E) in
      let* v := get_visual m in
      let m := set_visual m {| v_image_size := v_image_size v;
                               v_image_mean := Some mean;
                               v_image_std := v_image_std v;
                               v_body := v_body v |} in
      let* std :=
        or_default (default VNone (PyDict.get pretrained_cfg "std"))
                   (OPENAI_DATASET_STD E) in
      let* v := get_visual m in
      let m := set_visual m {| v_image_size := v_image_size v;
                               v_image_mean := v_image_mean v;
                               v_image_std := Some std;
                               v_body := v_body v |} in
      if jit then emit EvJitScript ;; st_ret (Some (torch_jit_script E m))
      else st_ret (Some m)
    else st_ret m in
  match m with
  | Some m => st_ret m
  | None => raise UnboundLocalError
  end.

(** [image_mean or getattr(model.visual, 'image_mean', None)] and its twin
    for [image_std]. *)
Definition or_visual_attr (given : option (list value))
    (attr : vtower -> option value) (m : model) : M value :=
  match given with
  | Some (x :: t) => st_ret (VList (x :: t))
  | _ => let* v := get_visual m in st_ret (default VNone (attr v))
  end.

Definition create_model_and_transforms (model_name : string)
    (pretrained : option string) (precision : string)
    (device : string + Device E) (jit : bool)
    (force_quick_gelu force_custom_text : bool)
    (force_patch_dropout : option (Z * Z))
    (pretrained_image pretrained_hf : bool)
    (image_mean image_std : option (list value)) (cache_dir : option string)
  : M (model * Transform E * Transform E) :=
  let* m := create_model model_name pretrained precision device jit
              force_quick_gelu force_custom_text force_patch_dropout
              pretrained_image pretrained_hf cache_dir in
  let* image_mean := or_visual_attr image_mean v_image_mean m in
  let* image_std := or_visual_attr image_std v_image_std m in
  let* v := get_visual m in
  emit (EvImageTransform true) ;;
  let preprocess_train :=
    image_transform E (v_image_size v) true image_mean image_std in
  let* v := get_visual m in
  emit (EvImageTransform false) ;;
  let preprocess_val :=
    image_transform E (v_image_size v) false image_mean image_std in
  st_ret (m, preprocess_train, preprocess_val).

Definition create_model_from_pretrained (model_name : string)
    (pretrained : string) (precision : string)
    (device : string + Device E) (jit : bool)
    (force_quick_gelu force_custom_text : bool) (return_transform : bool)
    (image_mean image_std : option (list value)) (cache_dir : option string)
  : M (model + model * Transform E) :=
  if negb (is_pretrained_cfg E model_name pretrained)
     && negb (os_path_exists E (VStr pretrained))
  then
    raise (RuntimeError
      (pretrained +:+ " is not a valid pretrained cfg or checkpoint for "
       +:+ model_name +:+ "."
       +:+ " Use open_clip.list_pretrained() to find one."))
  else
    let* m := create_model model_name (Some pretrained) precision device jit
                force_quick_gelu force_custom_text None false true cache_dir in
    if negb return_transform then st_ret (inl m)
    else
      let* image_mean := or_visual_attr image_mean v_image_mean m in
      let* image_std := or_visual_attr image_std v_image_std m in
      let* v := get_visual m in
      emit (EvImageTransform false) ;;
      let preprocess :=
        image_transform E (v_image_size v) false image_mean image_std in
      st_ret (inr (m, preprocess)).

End Factory.

(** ** The population of the registry

    [_MODEL_CONFIG_PATHS], and the order of the keys of [_MODEL_CONFIGS]
    (a Python dictionary keeps its keys in insertion order), are module
    state next to the world. *)

(** *** Natural sort keys

    Names are ASCII strings, as the stems of the shipped files are: the
    digits of [\d], of [isdigit] and of [int] are then the characters '0'
    to '9', and [lower] is the one of [PyStr]. *)



(** An element of the list [_natural_key] returns. *)
Inductive key_part : Type :=
  | KInt (n : N)
  | KStr (s : string).

Definition is_digit (c : ascii) : bool :=
  let n := nat_of_ascii c in (48 <=? n)%nat && (n <=? 57)%nat.

Fixpoint all_digits (s : string) : bool :=
  match s with
  | EmptyString => true
  | String c s' => is_digit c && all_digits s'
  end.

(** [s.isdigit()] *)
Definition isdigit (s : string) : bool :=
  match s with
  | EmptyString => false
  | String _ _ => all_digits s
  end.

(** [int(s)], for a string of digits, read from the left with [acc] the
    value of the digits already read. *)
Fixpoint int_digits (acc : N) (s : string) : N :=
  match s with
  | EmptyString => acc
  | String c s' => int_digits (10 * acc + (N_of_ascii c - 48)) s'
  end.

(** [re.split(r'(\d+)', s)]: the text before the first run of digits, then
    each run of digits followed by the text after it.  [cur] is the piece
    being read, [in_digits] tells whether it is a run of digits. *)
Fixpoint split_digits (in_digits : bool) (cur : string) (s : string)
  : list string :=
  match s with
  | EmptyString => if in_digits then [cur; ""] else [cur]
  | String c s' =>
      if is_digit c then
        if in_digits then split_digits true (cur +:+ String c "") s'
        else cur :: split_digits true (String c "") s'
      else
        if in_digits then cur :: split_digits false (String c "") s'
        else split_digits false (cur +:+ String c "") s'
  end.

Definition re_split_digits (s : string) : list string :=
  split_digits false "" s.

Definition _natural_key (string_ : string) : list key_part :=
  map (fun s => if isdigit s then KInt (int_digits 0 s) else KStr s)
      (re_split_digits (PyStr.lower string_)).

(** [a == b] and [a < b] on such elements; an [int] and a [str] are
    unequal and cannot be ordered. *)
Definition part_eqb (a b : key_part) : bool :=
  match a, b with
  | KInt n, KInt m => (n =? m)%N
  | KStr s, KStr t => String.eqb s t
  | _, _ => false
  end.

Definition part_lt (a b : key_part) : result bool :=
  match a, b with
  | KInt n, KInt m => Ok (n <? m)%N
  | KStr s, KStr t => Ok (String.ltb s t)
  | _, _ => Raise TypeError
  end.

(** [a < b] on lists: the first pair of unequal elements decides, and a
    proper prefix is smaller. *)
Fixpoint list_lt (a b : list key_part) : result bool :=
  match a, b with
  | [], [] => Ok false
  | [], _ :: _ => Ok true
  | _ :: _, [] => Ok false
  | x :: a', y :: b' => if part_eqb x y then list_lt a' b' else part_lt x y
  end.

(** [sorted(l, key=key)].  The sort is stable and asks only for [<] on the
    keys; it is written as an insertion from the right, which gives the
    result of any stable sort when [<] orders the keys. *)
Section Sorted.
Context {A : Type} (key : A -> list key_part).

Fixpoint insert_sorted (x : A) (l : list A) : result (list A) :=
  match l with
  | [] => Ok [x]
  | y :: l' =>
      match list_lt (key y) (key x) with
      | Ok true =>
          match insert_sorted x l' with
          | Ok r => Ok (y :: r)
          | Raise e => Raise e
          end
      | Ok false => Ok (x :: y :: l')
      | Raise e => Raise e
      end
  end.

Fixpoint sorted (l : list A) : result (list A) :=
  match l with
  | [] => Ok []
  | x :: l' =>
      match sorted l' with
      | Ok s => insert_sorted x s
      | Raise e => Raise e
      end
  end.

End Sorted.

(** *** Files *)

(** What [open] and [json.load] make of a path: [open] fails, the file is
    not text in the encoding [open] reads it in, the text is not a JSON
    document, the document nests deeper than the parser can follow, or
    the document is read (the entries of an object in the order of the
    file, a repeated key included). *)
Inductive file_content : Type :=
  | Unreadable
  | Undecodable
  | Malformed
  | TooDeep
  | Json (t : tree).

(** [pathlib], [open] and [json.load], as the scan uses them. *)
Record FileSystem : Type := {
  Path : Type;
  to_path : string -> Path;                   (* [Path(s)] *)
  default_config_path : Path;   (* [Path(__file__).parent / 'model_configs/'] *)
  is_file : Path -> bool;
  is_dir : Path -> bool;
  path_suffix : Path -> string;               (* [p.suffix] *)
  path_stem : Path -> string;                 (* [p.stem] *)
  path_glob : Path -> string -> list Path;    (* [p.glob(pattern)] *)
  read_json : Path -> file_content
}.

Inductive scan_exn : Type :=
  | OSError
  | UnicodeDecodeError
  | JSONDecodeError
  | PyExn (e : exn).

(** [json.load] builds fresh objects: a dictionary per JSON object, its
    entries assigned in the order of the file. *)
Fixpoint load_json (t : tree) : ST heap value :=
  match t with
  | TNone => st_ret VNone
  | TBool b => st_ret (VBool b)
  | TInt z => st_ret (VInt z)
  | TFloat m e => st_ret (VFloat m e)
  | TStr s => st_ret (VStr s)
  | TList ts => let* vs := st_mapM load_json ts in st_ret (VList vs)
  | TDict kts =>
      let* d := st_mapM (fun kt => let* v := load_json kt.2 in
                                   st_ret (kt.1, v)) kts in
      let* r := heap_alloc (PyDict.of_items d) in
      st_ret (VDict r)
  end.

(** [all(a in v for a in keys)] *)
Fixpoint all_in (keys : list string) (v : value) : M bool :=
  match keys with
  | [] => st_ret true
  | a :: keys' =>
      let* b := Py.has a v in
      if b then all_in keys' v else st_ret false
  end.

Section Registry.

Variable FS : FileSystem.

Record module_state : Type := ModuleState {
  config_paths : list (Path FS);    (* _MODEL_CONFIG_PATHS *)
  config_order : list string;       (* the keys of _MODEL_CONFIGS, in order *)
  ms_world : world                  (* the store, and _MODEL_CONFIGS as a map *)
}.

Definition with_world (st : module_state) (w : world) : module_state :=
  {| config_paths := config_paths st;
     config_order := config_order st;
     ms_world := w |}.

(** [_MODEL_CONFIGS[k] = v]: a new key goes last, a present key keeps its
    place. *)
Definition registry_setitem (k : string) (v : value) (st : module_state)
  : module_state :=
  let w := ms_world st in
  {| config_paths := config_paths st;
     config_order := match w_registry w !! k with
                     | Some _ => config_order st
                     | None => config_order st ++ [k]
                     end;
     ms_world := {| w_heap := w_heap w;
                    w_registry := <[k := v]> (w_registry w);
                    w_trace := w_trace w |} |}.

Definition config_ext : list string := [".json"].

(** The first loop of [_rescan_model_configs]. *)
Definition config_files_of (paths : list (Path FS)) : list (Path FS) :=
  flat_map (fun config_path =>
    if is_file FS config_path
       && existsb (String.eqb (path_suffix FS config_path)) config_ext
    then [config_path]
    else if is_dir FS config_path
    then flat_map (fun ext => path_glob FS config_path ("*" +:+ ext)) config_ext
    else []) paths.

(** The body of its second loop. *)
Definition register_config (cf : Path FS) (st : module_state)
  : option scan_exn * module_state :=
  match read_json FS cf with
  | Unreadable => (Some OSError, st)
  | Undecodable => (Some UnicodeDecodeError, st)
  | Malformed => (Some JSONDecodeError, st)
  | TooDeep => (Some (PyExn RecursionError), st)
  | Json t =>
      match (let* model_cfg := lift_heap (load_json t) in
             let* ok := all_in ["embed_dim"; "vision_cfg"; "text_cfg"] model_cfg in
             st_ret (model_cfg, ok)) (ms_world st) with
      | (Ok (model_cfg, true), w) =>
          (None, registry_setitem (path_stem FS cf) model_cfg (with_world st w))
      | (Ok (_, false), w) => (None, with_world st w)
      | (Raise e, w) => (Some (PyExn e), with_world st w)
      end
  end.

Fixpoint register_configs (config_files : list (Path FS)) (st : module_state)
  : option scan_exn * module_state :=
  match config_files with
  | [] => (None, st)
  | cf :: rest =>
      match register_config cf st with
      | (None, st') => register_configs rest st'
      | (Some e, st') => (Some e, st')
      end
  end.

(** Returns the exception raised, if any. *)
Definition _rescan_model_configs (st : module_state)
  : option scan_exn * module_state :=
  let config_files := config_files_of (config_paths st) in
  match register_configs config_files st with
  | (Some e, st') => (Some e, st')
  | (None, st') =>
      match sorted _natural_key (config_order st') with
      | Ok order =>
          (None, {| config_paths := config_paths st';
                    config_order := order;
                    ms_world := ms_world st' |})
      | Raise e => (Some (PyExn e), st')
      end
  end.

Definition list_models (st : module_state) : list string :=
  config_order st.

Definition add_model_config (path : string + Path FS) (st : module_state)
  : option scan_exn * module_state :=
  let path := match path with
              | inl s => to_path FS s
              | inr p => p
              end in
  _rescan_model_configs
    {| config_paths := config_paths st ++ [path];
       config_order := config_order st;
       ms_world := ms_world st |}.

(** The module state before the first scan, and the scan the import of the
    module runs. *)
Definition empty_module : module_state :=
  {| config_paths := [default_config_path FS];
     config_order := [];
     ms_world := {| w_heap := []; w_registry := ∅; w_trace := [] |} |}.

Definition import_module : option scan_exn * module_state :=
  _rescan_model_configs empty_module.

End Registry.

Arguments ModuleState {FS}.
Arguments config_paths {FS}.
Arguments config_order {FS}.
Arguments ms_world {FS}.

(** ** A small concrete framework, to run the factory on *)

Module Toy.

Definition params := list (string * ckpt nat).
Definition tower := visual_obj params.
Definition net := model_obj params params.

Definition fresh_net (tag : string) : net :=
  {| visual := Some {| v_image_size := VInt 224;
                       v_image_mean := None;
                       v_image_std := None;
                       v_body := [] |};
     m_body := [(tag, CTensor 0)] |}.

Definition exists_path (v : value) : bool :=
  match v with
  | VStr s => String.prefix "/" s
  | _ => false
  end.

(** [files] is the content of the file system as [torch.load] sees it,
    [tags] the pretrained registry. *)
Definition env (files : value -> ckpt nat) (tags : value -> value -> dict)
  : Externals :=
  {| Device := string;
     Tensor := nat;
     VisualBody := params;
     ModelBody := params;
     Incompat := unit;
     Transform := value * bool * value * value;
     Tokenizer := option value;
     max_depth := 16;
     format_value := fun _ => "<object>";
     format_str_list := fun l =>
       "[" +:+ String.concat ", " (map (fun s => "'" +:+ s +:+ "'") l) +:+ "]";
     os_path_exists := exists_path;
     torch_device := fun s => s;
     torch_load := files;
     torch_jit_script := fun m => m;
     model_to := fun m _ => m;
     model_load_state_dict := fun m sd _ =>
       (tt, {| visual := visual m; m_body := sd |});
     visual_load_state_dict := fun v sd _ =>
       (tt, {| v_image_size := v_image_size v;
               v_image_mean := v_image_mean v;
               v_image_std := v_image_std v;
               v_body := sd |});
     has_positional_embedding := fun _ => true;
     OPENAI_DATASET_MEAN := VList [VFloat 1 (-1)];
     OPENAI_DATASET_STD := VList [VFloat 1 (-2)];
     CLIP := fun _ _ _ => fresh_net "CLIP";
     CustomTextCLIP := fun _ _ _ => fresh_net "CustomTextCLIP";
     convert_weights_to_lp := fun m _ => m;
     convert_to_custom_text_state_dict := fun sd => sd;
     resize_pos_embed := fun sd _ => sd;
     get_cast_dtype := fun p =>
       if String.eqb p "bf16" then Some bfloat16
       else if String.eqb p "fp16" then Some float16 else None;
     load_openai_model := fun _ _ _ _ _ => fresh_net "openai";
     is_pretrained_cfg := fun m t =>
       match tags (VStr m) (VStr t) with [] => false | _ :: _ => true end;
     get_pretrained_cfg := tags;
     download_pretrained := fun _ _ => "/plain.pt";
     list_pretrained_tags_by_model := fun _ => ["laion400m_e32"];
     image_transform := fun size is_train mean std => (size, is_train, mean, std);
     HFTokenizer := fun name => Some name;
     tokenize := None |}.

Definition no_files : value -> ckpt nat := fun _ => CDict [].

(** A few checkpoint files. *)
Definition sample_files : value -> ckpt nat := fun path =>
  match path with
  | VStr "/plain.pt" =>
      CDict [("visual.conv1.weight", CTensor 1); ("logit_scale", CTensor 2)]
  | VStr "/train.pt" =>
      CDict [("epoch", COther);
             ("state_dict",
              CDict [("module.visual.conv1.weight", CTensor 1);
                     ("module.logit_scale", CTensor 2)])]
  | VStr "/clash.pt" =>
      CDict [("module.a", CTensor 1); ("modulexa", CTensor 2)]
  | VStr "/tower.pt" =>
      CDict [("visual.a", CTensor 1); ("visual_a", CTensor 2);
             ("logit_scale", CTensor 3)]
  | _ => CDict []
  end.

Definition no_tags : value -> value -> dict := fun _ _ => [].

(** One tag, [laion400m_e32], for the model [RN50]. *)
Definition one_tag : value -> value -> dict := fun m t =>
  match m, t with
  | VStr m, VStr t =>
      if String.eqb m "RN50" && String.eqb t "laion400m_e32"
      then [("url", VStr "https://example.org/rn50.pt")] else []
  | _, _ => []
  end.

(** A store with two configurations: [RN50], and [roberta-ViT-B-32] whose
    text tower names a HuggingFace tokenizer. *)
Definition sample_heap : heap :=
  [ [("embed_dim", VInt 1024); ("vision_cfg", VDict 1); ("text_cfg", VDict 2)];
    [("image_size", VInt 224); ("layers", VList [VInt 3; VInt 4; VInt 6; VInt 3])];
    [("context_length", VInt 77); ("vocab_size", VInt 49408)];
    [("embed_dim", VInt 512); ("quick_gelu", VBool true);
     ("vision_cfg", VDict 4); ("text_cfg", VDict 5)];
    [("image_size", VInt 224); ("patch_size", VInt 32)];
    [("hf_model_name", VStr "roberta-base");
     ("hf_tokenizer_name", VStr "roberta-base")] ].

Definition sample_world : world :=
  {| w_heap := sample_heap;
     w_registry := <["RN50" := VDict 0]> (<["roberta-ViT-B-32" := VDict 3]> ∅);
     w_trace := [] |}.

(** A configuration file with the three keys the registry asks for, whose
    'text_cfg' is a JSON array. *)
Definition array_text_cfg_world : world :=
  {| w_heap :=
       [ [("embed_dim", VInt 512); ("vision_cfg", VDict 1);
          ("text_cfg", VList [VStr "hf_tokenizer_name"; VStr "roberta-base"])];
         [("image_size", VInt 224)] ];
     w_registry := <["array-text" := VDict 0]> ∅;
     w_trace := [] |}.

End Toy.

(** ** A small file system, to run the scan on *)

Module ToyFS.

Definition rn50 : tree :=
  TDict [("embed_dim", TInt 1024);
         ("vision_cfg", TDict [("image_size", TInt 224)]);
         ("text_cfg", TDict [("context_length", TInt 77)])].

Definition rn101 : tree :=
  TDict [("embed_dim", TInt 512);
         ("vision_cfg", TDict [("image_size", TInt 224)]);
         ("text_cfg", TDict [("context_length", TInt 77)])].

(** The same name again, in another directory, with a key written twice. *)
Definition rn50_wide : tree :=
  TDict [("embed_dim", TInt 640);
         ("vision_cfg", TDict [("image_size", TInt 288)]);
         ("text_cfg", TDict [("context_length", TInt 77)]);
         ("embed_dim", TInt 768)].

Definition notes : tree := TDict [("comment", TStr "not a model")].

Definition is_json_file (p : string) : bool :=
  match p with
  | "/configs/RN101.json" | "/configs/RN50.json" | "/configs/notes.json"
  | "/extra/RN50.json" | "/broken/ViT.json" => true
  | _ => false
  end.

(** [/configs] holds three files, [/extra] one, [/broken] one that does
    not parse; no other path exists. *)
Definition fs : FileSystem :=
  {| Path := string;
     to_path := fun s => s;
     default_config_path := "/configs";
     is_file := is_json_file;
     is_dir := fun p =>
       match p with
       | "/configs" | "/extra" | "/broken" => true
       | _ => false
       end;
     path_suffix := fun p => if is_json_file p then ".json" else "";
     path_stem := fun p =>
       match p with
       | "/configs/RN101.json" => "RN101"
       | "/configs/RN50.json" | "/extra/RN50.json" => "RN50"
       | "/configs/notes.json" => "notes"
       | "/broken/ViT.json" => "ViT"
       | _ => p
       end;
     path_glob := fun p pattern =>
       match p, pattern with
       | "/configs", "*.json" =>
           ["/configs/RN101.json"; "/configs/notes.json"; "/configs/RN50.json"]
       | "/extra", "*.json" => ["/extra/RN50.json"]
       | "/broken", "*.json" => ["/broken/ViT.json"]
       | _, _ => []
       end;
     read_json := fun p =>
       match p with
       | "/configs/RN101.json" => Json rn101
       | "/configs/RN50.json" => Json rn50
       | "/configs/notes.json" => Json notes
       | "/extra/RN50.json" => Json rn50_wide
       | "/broken/ViT.json" => Malformed
       | _ => Unreadable
       end |}.

(** The module after its import, and with [/extra] on its list of paths. *)
Definition imported : module_state fs := (import_module fs).2.

Definition with_extra : module_state fs :=
  {| config_paths := config_paths imported ++ ["/extra"];
     config_order := config_order imported;
     ms_world := ms_world imported |}.


End ToyFS.

(** ** More configurations, to run the preparation on *)

Module ToyConfigs.

(** [custom] carries a 'custom_text' entry, [timm-vit] names a timm model,
    [tower] takes its image tower from [ViT-B-32], and [odd] asks for
    pretrained vision weights without saying where from. *)
Definition configs_heap : heap :=
  [ [("embed_dim", VInt 512); ("custom_text", VBool true);
     ("vision_cfg", VDict 1); ("text_cfg", VDict 2)];
    [("image_size", VInt 224)];
    [("context_length", VInt 77)];
    [("embed_dim", VInt 512); ("vision_cfg", VDict 4); ("text_cfg", VDict 5)];
    [("timm_model_name", VStr "vit_base_patch16_224"); ("image_size", VInt 224)];
    [("context_length", VInt 77)];
    [("embed_dim", VInt 512); ("vision_cfg", VDict 7); ("text_cfg", VDict 8)];
    [("model_name", VStr "ViT-B-32")];
    [("context_length", VInt 77)];
    [("embed_dim", VInt 512); ("vision_cfg", VDict 10); ("text_cfg", VDict 11)];
    [("pretrained", VStr "laion")];
    [];
    [("embed_dim", VInt 512); ("vision_cfg", VDict 13); ("text_cfg", VDict 14)];
    [("image_size", VInt 224); ("patch_size", VInt 32)];
    [("context_length", VInt 77)] ].

Definition configs_world : world :=
  {| w_heap := configs_heap;
     w_registry :=
       <["custom" := VDict 0]> (<["timm-vit" := VDict 3]> (<["tower" := VDict 6]>
         (<["odd" := VDict 9]> (<["ViT-B-32" := VDict 12]> ∅))));
     w_trace := [] |}.

(** The registry with a key that holds a '/': [create_model] cannot reach
    it. *)
Definition slash_world : world :=
  {| w_heap := configs_heap;
     w_registry := <["ViT-B/32" := VDict 12]> ∅;
     w_trace := [] |}.

(** A configuration with a 'cast_dtype' entry of its own. *)
Definition cast_dtype_world : world :=
  {| w_heap :=
       [ [("embed_dim", VInt 512); ("cast_dtype", VStr "fp16");
          ("vision_cfg", VDict 1); ("text_cfg", VDict 2)];
         [("image_size", VInt 224)];
         [("context_length", VInt 77)] ];
     w_registry := <["typed" := VDict 0]> ∅;
     w_trace := [] |}.

End ToyConfigs.

(** ** Vocabulary of the statements *)

(** [create_model]'s [model_name.replace('/', '-')]. *)
Definition normalize_name (model_name : string) : string :=
  PyStr.replace_char "/" "-" model_name.

(** One entry of a dictionary, read back and copied. *)
Definition snap_item (n : nat) (h : heap) (kv : string * value) : option (string * tree) :=
  t ← snapshot n h kv.2; Some (kv.1, t).

Definition copy_item (n : nat) (kv : string * value) : ST heap (string * value) :=
  let* v' := deepcopy_rec n kv.2 in st_ret (kv.1, v').

(** Every dictionary reference inside [v] is at or above [L]. *)
Fixpoint fresh_val (L : nat) (v : value) : bool :=
  match v with
  | VDict r => (L <=? r)%nat
  | VList vs => forallb (fresh_val L) vs
  | _ => true
  end.

Definition fresh_dict (L : nat) (d : dict) : bool :=
  forallb (fun kv => fresh_val L kv.2) d.

(** The store only grows under [deepcopy], by dictionaries that refer to
    nothing older than the copy. *)
Definition grows_fresh (h h' : heap) : Prop :=
  exists ext, h' = h ++ ext /\
              Forall (fun d => fresh_dict (List.length h) d = true) ext.

(** The worlds a computation started in [w0] may reach without touching
    what [w0] holds: the registry is the same, the store of [w0] is a
    prefix of the store, the dictionaries allocated since refer only to
    one another, the store has at least [n] cells, and the calls made since
    are all [allowed]. *)
Definition inv (allowed : event -> bool) (w0 : world) (n : nat) (w : world)
  : Prop :=
  w_registry w = w_registry w0 /\
  (n <= List.length (w_heap w))%nat /\
  (exists ext, w_heap w = w_heap w0 ++ ext /\
               Forall (fun d => fresh_dict (List.length (w_heap w0)) d = true) ext) /\
  (exists evs, w_trace w = w_trace w0 ++ evs /\
               Forall (fun e => allowed e = true) evs).

Definition any_event (e : event) : bool := true.

Definition is_cfg_event (e : event) : bool :=
  match e with
  | EvGetModelConfig _ _ => true
  | _ => false
  end.

(** [m] keeps [I], also when it raises, and its results satisfy [Q]. *)
Definition preserves {A} (I : world -> Prop) (m : M A) (Q : A -> Prop) : Prop :=
  forall w, I w ->
    I (m w).2 /\ forall a, (m w).1 = Ok a -> Q a.

(** Induction on values, through the lists they nest. *)
Section value_rect.
Variable P : value -> Prop.
Hypothesis HNone : P VNone.
Hypothesis HBool : forall b, P (VBool b).
Hypothesis HInt : forall z, P (VInt z).
Hypothesis HFloat : forall m e, P (VFloat m e).
Hypothesis HStr : forall s, P (VStr s).
Hypothesis HList : forall vs, Forall P vs -> P (VList vs).
Hypothesis HDict : forall r, P (VDict r).

Fixpoint value_nested_ind (v : value) : P v :=
  match v with
  | VNone => HNone
  | VBool b => HBool b
  | VInt z => HInt z
  | VFloat m e => HFloat m e
  | VStr s => HStr s
  | VList vs =>
      HList vs ((fix go (l : list value) : Forall P l :=
                   match l with
                   | [] => @List.Forall_nil _ P
                   | x :: l' => @List.Forall_cons _ P x l' (value_nested_ind x) (go l')
                   end) vs)
  | VDict r => HDict r
  end.
End value_rect.

(** [extract_openai_image_tower], as [create_model] computes it from the
    tower named by the configuration. *)
Definition extract_tower (which_pretrained_image_tower : value) : bool :=
  match which_pretrained_image_tower with
  | VStr s => String.eqb (PyStr.lower s) "openai"
  | _ => false
  end.

(** [pure_openai], as [create_model] computes it. *)
Definition is_pure_openai (pretrained : option string) (extract : bool) : bool :=
  match pretrained with
  | Some p => negb (String.eqb p "")
              && String.eqb (PyStr.lower p) "openai"
              && negb extract
  | None => false
  end.

(** The calls that bring pretrained weights into the model. *)
Definition is_weight_event (e : event) : bool :=
  match e with
  | EvDownloadPretrained | EvTorchLoad _ | EvSetVisual | EvLoadStateDict _ _ => true
  | _ => false
  end.

(** The low-precision conversion each precision asks for. *)
Definition lp_events (precision : string) : list event :=
  if String.eqb precision "fp16" then [EvConvertLP float16]
  else if String.eqb precision "bf16" then [EvConvertLP bfloat16]
  else [].

Definition jit_events (jit : bool) : list event :=
  if jit then [EvJitScript] else [].

Definition is_convert_event (e : event) : bool :=
  match e with
  | EvConvertLP _ => true
  | _ => false
  end.

(** The model after the precision cast: float16 for 'fp16', bfloat16 for
    'bf16', no conversion otherwise. *)
Definition cast_precision (E : Externals) (precision : string)
    (m : model_obj (VisualBody E) (ModelBody E))
  : model_obj (VisualBody E) (ModelBody E) :=
  if String.eqb precision "fp16" then convert_weights_to_lp E m float16
  else if String.eqb precision "bf16" then convert_weights_to_lp E m bfloat16
  else m.

(** The model with [visual.image_mean] and [visual.image_std] set. *)
Definition set_image_stats (E : Externals)
    (m : model_obj (VisualBody E) (ModelBody E)) (mean std : value)
  : model_obj (VisualBody E) (ModelBody E) :=
  match visual m with
  | Some v => set_visual E m {| v_image_size := v_image_size v;
                                v_image_mean := Some mean;
                                v_image_std := Some std;
                                v_body := v_body v |}
  | None => m
  end.

(** [k.removeprefix(p)]: [k] without its leading [p], when it has one. *)
Definition remove_prefix (p k : string) : string :=
  if PyStr.startswith k p then PyStr.drop (PyStr.len p) k else k.

(** The entries whose key starts with 'visual', each key with its leading
    'visual.' removed. *)
Definition visual_entries_without_prefix {T} (sd : list (string * T))
  : list (string * T) :=
  map (fun i => (remove_prefix "visual." i.1, i.2))
      (List.filter (fun i => PyStr.startswith i.1 "visual") sd).

(** The mean or std a transform is built from: the caller's when it is a
    non-empty tuple, the attribute of the vision tower otherwise. *)
Definition chosen_stat (given : option (list value)) (attr : option value)
  : value :=
  match given with
  | Some t => if (0 <? List.length t)%nat then VList t else default VNone attr
  | None => default VNone attr
  end.

(** *** Vocabulary for the registry *)

(** The document [json.load] builds from the text: within an object a
    repeated key keeps its first place and takes its last value. *)
Fixpoint canon (t : tree) : tree :=
  match t with
  | TList ts => TList (map canon ts)
  | TDict kts => TDict (PyDict.of_items (map (fun kt => (kt.1, canon kt.2)) kts))
  | _ => t
  end.

(** [k in t] on documents; [None] where Python raises [TypeError]. *)
Definition tree_has (k : string) (t : tree) : option bool :=
  match t with
  | TDict kts => Some (PyDict.mem kts k)
  | TList ts =>
      Some (existsb (fun x => match x with
                              | TStr s => String.eqb s k
                              | _ => false
                              end) ts)
  | TStr s => Some (PyStr.contains k s)
  | _ => None
  end.

(** [all(a in t for a in keys)] on documents. *)
Fixpoint tree_all_in (keys : list string) (t : tree) : option bool :=
  match keys with
  | [] => Some true
  | a :: keys' =>
      match tree_has a t with
      | Some true => tree_all_in keys' t
      | Some false => Some false
      | None => None
      end
  end.

(** Whether a document has what the registry asks of a configuration. *)
Definition has_config_keys (t : tree) : option bool :=
  tree_all_in ["embed_dim"; "vision_cfg"; "text_cfg"] t.

(** What the scan makes of one file: an exception, or whether the file is
    registered. *)
Definition file_outcome (FS : FileSystem) (cf : Path FS) : scan_exn + bool :=
  match read_json FS cf with
  | Unreadable => inl OSError
  | Undecodable => inl UnicodeDecodeError
  | Malformed => inl JSONDecodeError
  | TooDeep => inl (PyExn RecursionError)
  | Json t =>
      match has_config_keys t with
      | Some b => inr b
      | None => inl (PyExn TypeError)
      end
  end.

(** The first exception among the outcomes of the files, if any. *)
Fixpoint first_failure (FS : FileSystem) (files : list (Path FS))
  : option scan_exn :=
  match files with
  | [] => None
  | cf :: rest =>
      match file_outcome FS cf with
      | inl e => Some e
      | inr _ => first_failure FS rest
      end
  end.

(** [name] is a key of [_MODEL_CONFIGS]. *)
Definition registered {FS} (st : module_state FS) (name : string) : Prop :=
  is_Some (w_registry (ms_world st) !! name).

(** The key order and the map describe one dictionary. *)
Definition consistent {FS} (st : module_state FS) : Prop :=
  NoDup (config_order st) /\
  forall name, name ∈ config_order st <-> registered st name.

(** [a] does not come after [b] in natural order. *)
Definition natural_le (a b : string) : Prop :=
  list_lt (_natural_key b) (_natural_key a) = Ok false.

(** Whether a string ends, or starts, with a digit. *)
Fixpoint trailing_digit (s : string) : bool :=
  match s with
  | EmptyString => false
  | String c EmptyString => is_digit c
  | String _ s' => trailing_digit s'
  end.

Definition leading_digit (s : string) : bool :=
  match s with
  | EmptyString => false
  | String c _ => is_digit c
  end.

(** A piece of text holds no digit. *)
Fixpoint no_digits (s : string) : bool :=
  match s with
  | EmptyString => true
  | String c s' => negb (is_digit c) && no_digits s'
  end.


(** The pieces alternate between text and runs of digits. *)
Fixpoint alternates (digits : bool) (l : list string) : bool :=
  match l with
  | [] => true
  | s :: l' => Bool.eqb (isdigit s) digits && alternates (negb digits) l'
  end.


(** The elements of a key alternate between [str] and [int]. *)
Fixpoint key_shape (ints : bool) (l : list key_part) : bool :=
  match l with
  | [] => true
  | KInt _ :: l' => ints && key_shape false l'
  | KStr _ :: l' => negb ints && key_shape true l'
  end.


(** The order [<] puts on keys, made total by putting an [int] before a
    [str]. *)
Definition part_cmp (a b : key_part) : comparison :=
  match a, b with
  | KInt n, KInt m => (n ?= m)%N
  | KStr s, KStr t => String.compare s t
  | KInt _, KStr _ => Lt
  | KStr _, KInt _ => Gt
  end.

Fixpoint list_cmp (a b : list key_part) : comparison :=
  match a, b with
  | [], [] => Eq
  | [], _ :: _ => Lt
  | _ :: _, [] => Gt
  | x :: a', y :: b' =>
      match part_cmp x y with
      | Eq => list_cmp a' b'
      | c => c
      end
  end.

(** Induction on documents, through the lists they nest. *)
Section tree_rect.
Variable P : tree -> Prop.
Hypothesis HNone : P TNone.
Hypothesis HBool : forall b, P (TBool b).
Hypothesis HInt : forall z, P (TInt z).
Hypothesis HFloat : forall m e, P (TFloat m e).
Hypothesis HStr : forall s, P (TStr s).
Hypothesis HList : forall ts, Forall P ts -> P (TList ts).
Hypothesis HDict : forall kts, Forall (fun kt => P kt.2) kts -> P (TDict kts).

Fixpoint tree_nested_ind (t : tree) : P t :=
  match t with
  | TNone => HNone
  | TBool b => HBool b
  | TInt z => HInt z
  | TFloat m e => HFloat m e
  | TStr s => HStr s
  | TList ts =>
      HList ts ((fix go (l : list tree) : Forall P l :=
                   match l with
                   | [] => @List.Forall_nil _ P
                   | x :: l' => @List.Forall_cons _ P x l' (tree_nested_ind x) (go l')
                   end) ts)
  | TDict kts =>
      HDict kts ((fix go (l : list (string * tree)) : Forall (fun kt => P kt.2) l :=
                    match l with
                    | [] => @List.Forall_nil _ (fun kt => P kt.2)
                    | x :: l' =>
                        @List.Forall_cons _ (fun kt => P kt.2) x l'
                          (tree_nested_ind x.2) (go l')
                    end) kts)
  end.
End tree_rect.

(** One entry of a JSON object, loaded. *)
Definition load_item (kt : string * tree) : ST heap (string * value) :=
  let* v := load_json kt.2 in st_ret (kt.1, v).

Definition canon_item (kt : string * tree) : string * tree :=
  (kt.1, canon kt.2).

(** *** Vocabulary for the prepared configuration *)

(** The dictionary at [r] is there and satisfies [P]. *)
Definition dict_inv (r : loc) (P : dict -> Prop) (w : world) : Prop :=
  exists d, w_heap w !! r = Some d /\ P d.

(** [d[k]] is [x]. *)
Definition holds (k : string) (x : value) (d : dict) : Prop :=
  PyDict.get d k = Some x.

(** [k] is not a key of [d], and no key of [d] is written twice. *)
Definition lacks (k : string) (d : dict) : Prop :=
  NoDup (map fst d) /\ PyDict.get d k = None.

(** A property of a dictionary that no assignment of the steps before the
    [pop], and not the [pop], can undo. *)
Definition survives (P : dict -> Prop) : Prop :=
  (forall d k x,
     k = "timm_model_pretrained" \/ k = "vision_cfg" \/ k = "quick_gelu"
     \/ k = "patch_dropout" ->
     P d -> P (PyDict.set d k x)) /\
  (forall d, P d -> P (PyDict.del d "custom_text")).

(** The vision tower's part of a configuration document, [{}] when the
    document has none: [model_cfg.get('vision_cfg', {})]. *)
Definition vision_of (kts : list (string * tree)) : tree :=
  default (TDict []) (PyDict.get kts "vision_cfg").

Definition text_of (kts : list (string * tree)) : tree :=
  default (TDict []) (PyDict.get kts "text_cfg").

(** The class [create_model] instantiates. *)
Definition model_class (E : Externals) (custom_text : bool)
  : heap -> dict -> option dtype -> model_obj (VisualBody E) (ModelBody E) :=
  if custom_text then CustomTextCLIP E else CLIP E.

(** [device], after [torch.device(device)] when it is a string. *)
Definition device_of (E : Externals) (device : string + Device E) : Device E :=
  match device with
  | inl s => torch_device E s
  | inr d => d
  end.

(** The end of [create_model], from [model.to(device=device)] on. *)
Definition finish_model (E : Externals)
    (m : model_obj (VisualBody E) (ModelBody E)) (pretrained_cfg : dict)
    (device : Device E) (precision : string) (jit : bool)
  : M (option (model_obj (VisualBody E) (ModelBody E))) :=
  emit EvToDevice ;;
  let m := model_to E m device in
  let* m :=
    if String.eqb precision "fp16" || String.eqb precision "bf16" then
      let dt := if String.eqb precision "bf16" then bfloat16 else float16 in
      emit (EvConvertLP dt) ;;
      st_ret (convert_weights_to_lp E m dt)
    else st_ret m in
  let* mean :=
    or_default (default VNone (PyDict.get pretrained_cfg "mean"))
               (OPENAI_DATASET_MEAN E) in
  let* v := get_visual E m in
  let m := set_visual E m {| v_image_size := v_image_size v;
                             v_image_mean := Some mean;
                             v_image_std := v_image_std v;
                             v_body := v_body v |} in
  let* std :=
    or_default (default VNone (PyDict.get pretrained_cfg "std"))
               (OPENAI_DATASET_STD E) in
  let* v := get_visual E m in
  let m := set_visual E m {| v_image_size := v_image_size v;
                             v_image_mean := v_image_mean v;
                             v_image_std := Some std;
                             v_body := v_body v |} in
  if jit then emit EvJitScript ;; st_ret (Some (torch_jit_script E m))
  else st_ret (Some m).

(** [return model] *)
Definition return_model {A} (m : option A) : M A :=
  match m with
  | Some m => st_ret m
  | None => raise UnboundLocalError
  end.

(** The nesting depth of a document: what [deepcopy] needs of the
    recursion limit. *)
Fixpoint tree_depth (t : tree) : nat :=
  match t with
  | TList ts => S (foldr Nat.max 0 (map tree_depth ts))
  | TDict kts => S (foldr Nat.max 0 (map (fun kt => tree_depth kt.2) kts))
  | _ => 1
  end.

(** *** Vocabulary for the stages of [create_model] *)

(** [pretrained] from line 231 on: the image tower the configuration
    names, when it names one. *)
Definition requested_weights (pretrained : option string) (wt : value) : value :=
  match wt with
  | VNone => Py.of_opt_str pretrained
  | w => w
  end.

(** Lines 230 to 253 of [create_model]: the checkpoint is looked for and
    loaded into the model [m].  Returns [pretrained_cfg] and the model. *)
Definition load_requested_weights (E : Externals)
    (m : model_obj (VisualBody E) (ModelBody E))
    (model_name pretrained which_pretrained_image_tower : value)
    (process_openai extract_openai_image_tower : bool)
    (pretrained_image_tower : option (visual_obj (VisualBody E)))
    (cache_dir : option string)
  : M (dict * model_obj (VisualBody E) (ModelBody E)) :=
  let* pretrained_true := Py.truthy pretrained in
  let* (pretrained_cfg, checkpoint_path) :=
    if pretrained_true && negb process_openai then
      let pretrained_cfg := get_pretrained_cfg E model_name pretrained in
      match pretrained_cfg with
      | _ :: _ =>
          emit EvDownloadPretrained ;;
          st_ret (pretrained_cfg,
                  VStr (download_pretrained E pretrained_cfg cache_dir))
      | [] =>
          if os_path_exists E pretrained
          then st_ret (pretrained_cfg, pretrained)
          else st_ret (pretrained_cfg, VNone)
      end
    else st_ret ([], VNone) in
  let* checkpoint_true := Py.truthy checkpoint_path in
  let* m :=
    if checkpoint_true || extract_openai_image_tower then
      let* (_, m') :=
        load_checkpoint E m checkpoint_path true
          which_pretrained_image_tower pretrained_image_tower in
      st_ret m'
    else
      let* pretrained_true := Py.truthy pretrained in
      if pretrained_true then
        raise (RuntimeError
          ("Pretrained weights (" +:+ fmt E pretrained
           +:+ ") not found for model " +:+ fmt E model_name
           +:+ ".Available pretrained tags ("
           +:+ format_str_list E (list_pretrained_tags_by_model E model_name)
           +:+ "."))
      else st_ret m in
  st_ret (pretrained_cfg, m).

(** The state dict [load_checkpoint] loads, from the one [load_state_dict]
    returned: the old format converted, the positional embedding resized. *)
Definition prepared_state_dict (E : Externals)
    (state_dict : list (string * ckpt (Tensor E)))
    (m : model_obj (VisualBody E) (ModelBody E))
  : list (string * ckpt (Tensor E)) :=
  resize_pos_embed E
    (if PyDict.mem state_dict "positional_embedding"
        && negb (has_positional_embedding E m)
     then convert_to_custom_text_state_dict E state_dict
     else state_dict) m.

(** What [load_checkpoint] does to the model [built] when it returns, and
    the framework calls it makes: the given tower replaces [visual], or
    the checkpoint at [path] is read and loaded, into [visual] alone when
    an image tower is named. *)
Definition checkpoint_loaded (E : Externals)
    (built : model_obj (VisualBody E) (ModelBody E)) (path : value) (strict : bool)
    (which_pretrained_image_tower : value)
    (pretrained_image_tower : option (visual_obj (VisualBody E)))
    (loaded : model_obj (VisualBody E) (ModelBody E)) (calls : list event) : Prop :=
  match pretrained_image_tower with
  | Some tower => loaded = set_visual E built tower /\ calls = [EvSetVisual]
  | None =>
      exists state_dict,
        (forall w, load_state_dict E path w
                   = (Ok state_dict, after w [EvTorchLoad path])) /\
        let sd := prepared_state_dict E state_dict built in
        match which_pretrained_image_tower with
        | VNone =>
            loaded = (model_load_state_dict E built sd strict).2 /\
            calls = [EvTorchLoad path; EvLoadStateDict false strict]
        | _ =>
            exists v,
              visual built = Some v /\
              loaded = set_visual E built
                         (visual_load_state_dict E v
                            (PyDict.of_items
                               (map (fun i => (PyStr.drop 7 i.1, i.2))
                                  (List.filter
                                     (fun i => PyStr.startswith i.1 "visual") sd)))
                            strict).2 /\
              calls = [EvTorchLoad path; EvLoadStateDict true strict]
        end
  end.

(** Whether a [str] or [None] is truthy. *)
Definition nonempty (v : value) : bool :=
  match v with
  | VStr s => negb (String.eqb s "")
  | _ => false
  end.

(** What lines 230 to 253 do when they return: [wanted] is the test of
    line 233, [pretrained_cfg] and [path] what lines 234 to 238 find, and
    the model is [built] with the weights loaded, or [built] itself when
    none were asked for. *)
Definition weights_loaded (E : Externals)
    (built : model_obj (VisualBody E) (ModelBody E))
    (model_name pretrained which_pretrained_image_tower : value)
    (extract_openai_image_tower : bool)
    (pretrained_image_tower : option (visual_obj (VisualBody E)))
    (cache_dir : option string)
    (pretrained_cfg : dict)
    (loaded : model_obj (VisualBody E) (ModelBody E)) (calls : list event) : Prop :=
  let wanted := nonempty pretrained && negb extract_openai_image_tower in
  let found := if wanted then get_pretrained_cfg E model_name pretrained else [] in
  let path :=
    if wanted then
      match found with
      | _ :: _ => VStr (download_pretrained E found cache_dir)
      | [] => if os_path_exists E pretrained then pretrained else VNone
      end
    else VNone in
  let download :=
    match found with
    | _ :: _ => [EvDownloadPretrained]
    | [] => []
    end in
  pretrained_cfg = found /\
  if nonempty path || extract_openai_image_tower then
    exists calls',
      checkpoint_loaded E built path true which_pretrained_image_tower
        pretrained_image_tower loaded calls' /\
      calls = download ++ calls'
  else
    nonempty pretrained = false /\ loaded = built /\ calls = [].

(** * Properties *)

(** ** The monad *)

Lemma st_bind_ok {S A B} (m : ST S A) (f : A -> ST S B) s a s' :
  m s = (Ok a, s') -> st_bind m f s = f a s'.
Proof. intros H. unfold st_bind. now rewrite H. Qed.

Lemma st_bind_raise {S A B} (m : ST S A) (f : A -> ST S B) s e s' :
  m s = (Raise e, s') -> st_bind m f s = (Raise e, s').
Proof. intros H. unfold st_bind. now rewrite H. Qed.

Lemma after_nil w : after w [] = w.
Proof. destruct w. unfold after. simpl. now rewrite app_nil_r. Qed.

Lemma after_after w evs evs' : after (after w evs) evs' = after w (evs ++ evs').
Proof. unfold after. simpl. now rewrite app_assoc. Qed.

Lemma emit_after e w : emit e w = (Ok tt, after w [e]).
Proof. reflexivity. Qed.

(** ** Name normalisation *)

Lemma replace_char_idem a b s :
  a <> b -> PyStr.replace_char a b (PyStr.replace_char a b s) = PyStr.replace_char a b s.
Proof.
  intros Hab. induction s as [|c s IH]; simpl; [reflexivity|].
  rewrite IH. f_equal.
  destruct (Ascii.eqb c a) eqn:Hc.
  - destruct (Ascii.eqb b a) eqn:Hb; [|reflexivity].
    apply Ascii.eqb_eq in Hb. congruence.
  - now rewrite Hc.
Qed.

Lemma normalize_name_idem s : normalize_name (normalize_name s) = normalize_name s.
Proof. apply replace_char_idem. discriminate. Qed.

Lemma normalize_name_no_slash s : PyStr.contains "/" (normalize_name s) = false.
Proof.
  induction s as [|c s IH]; [reflexivity|].
  unfold normalize_name in *. cbn [PyStr.replace_char PyStr.contains].
  rewrite IH, orb_false_r.
  destruct (Ascii.eqb_spec c "/"%char) as [->|Hc]; [reflexivity|].
  cbn [String.prefix]. destruct (Ascii.ascii_dec "/"%char c) as [<-|_]; [congruence|reflexivity].
Qed.

(** ** Unknown names *)

Lemma get_model_config_unknown E name w :
  w_registry w !! name = None ->
  get_model_config E (VStr name) w
  = (Ok VNone, after w [EvGetModelConfig (VStr name) false]).
Proof.
  intros H. unfold get_model_config, get_registry, st_bind. now rewrite H.
Qed.

Lemma get_cfg_and_handle_error_unknown E name w :
  w_registry w !! name = None ->
  get_cfg_and_handle_error E (VStr name) w
  = (Raise (RuntimeError ("Model config for " +:+ name +:+ " not found.")),
     after w [EvGetModelConfig (VStr name) false]).
Proof.
  intros H. unfold get_cfg_and_handle_error.
  erewrite st_bind_ok by (apply get_model_config_unknown; exact H).
  reflexivity.
Qed.

Lemma load_and_prepare_cfg_unknown E name fqg fpd pi fct phf w :
  w_registry w !! name = None ->
  load_and_prepare_cfg E (VStr name) fqg fpd pi fct phf w
  = (Raise (RuntimeError ("Model config for " +:+ name +:+ " not found.")),
     after w [EvGetModelConfig (VStr name) false]).
Proof.
  intros H. unfold load_and_prepare_cfg.
  erewrite st_bind_raise by (apply get_cfg_and_handle_error_unknown; exact H).
  reflexivity.
Qed.

(** C1. When the normalised model name is not a key of the registry,
    [get_cfg_and_handle_error], and with it [create_model], raises
    [RuntimeError('Model config for {model_name} not found.')]; the only
    thing that happened is the failed registry lookup, so no model was
    constructed and none is returned. *)
Theorem create_model_unknown_name E model_name pretrained precision device jit
    force_quick_gelu force_custom_text force_patch_dropout pretrained_image
    pretrained_hf cache_dir w :
  w_registry w !! normalize_name model_name = None ->
  let name := normalize_name model_name in
  let err := RuntimeError ("Model config for " +:+ name +:+ " not found.") in
  let w' := after w [EvGetModelConfig (VStr name) false] in
  get_cfg_and_handle_error E (VStr name) w = (Raise err, w') /\
  create_model E model_name pretrained precision device jit force_quick_gelu
    force_custom_text force_patch_dropout pretrained_image pretrained_hf
    cache_dir w = (Raise err, w').
Proof.
  intros H name err w'. split.
  - now apply get_cfg_and_handle_error_unknown.
  - unfold create_model. fold (normalize_name model_name). fold name.
    erewrite st_bind_raise by (apply load_and_prepare_cfg_unknown; exact H).
    reflexivity.
Qed.

Lemma create_model_unknown_name_witness :
  let E := Toy.env Toy.no_files Toy.no_tags in
  w_registry Toy.sample_world !! normalize_name "RN/50" = None /\
  create_model E "RN/50" None "fp32" (inl "cpu") false false false None false
    true None Toy.sample_world
  = (Raise (RuntimeError "Model config for RN-50 not found."),
     after Toy.sample_world [EvGetModelConfig (VStr "RN-50") false]).
Proof.
  intros E. split; [reflexivity|].
  apply (create_model_unknown_name E "RN/50" None "fp32" (inl "cpu") false
           false false None false true None Toy.sample_world).
  reflexivity.
Defined.

(** ** [deepcopy] *)

Lemma fresh_val_mono L L' v :
  L <= L' -> fresh_val L' v = true -> fresh_val L v = true.
Proof.
  intros HL. induction v as [| | | | |vs IH|r] using value_nested_ind; simpl; auto.
  - rewrite !forallb_forall. intros H x Hx.
    rewrite Forall_forall in IH. apply IH; [now apply list_elem_of_In|]. now apply H.
  - rewrite !Nat.leb_le. lia.
Qed.

Lemma fresh_dict_mono L L' d :
  L <= L' -> fresh_dict L' d = true -> fresh_dict L d = true.
Proof.
  intros HL. unfold fresh_dict. rewrite !forallb_forall.
  intros H x Hx. eapply fresh_val_mono; eauto.
Qed.

Lemma Forall_fresh_dict_mono L L' (ext : heap) :
  L <= L' -> Forall (fun d => fresh_dict L' d = true) ext ->
  Forall (fun d => fresh_dict L d = true) ext.
Proof. intros HL H. eapply Forall_impl; [exact H|]. intros d. now apply fresh_dict_mono. Qed.

Lemma grows_fresh_refl h : grows_fresh h h.
Proof. exists []. split; [now rewrite app_nil_r | constructor]. Qed.

Lemma grows_fresh_trans h1 h2 h3 :
  grows_fresh h1 h2 -> grows_fresh h2 h3 -> grows_fresh h1 h3.
Proof.
  intros (e1 & -> & H1) (e2 & -> & H2). exists (e1 ++ e2). split.
  - now rewrite app_assoc.
  - apply Forall_app. split; [exact H1|].
    eapply Forall_fresh_dict_mono; [|exact H2]. rewrite length_app. lia.
Qed.

Lemma grows_fresh_length h h' : grows_fresh h h' -> List.length h <= List.length h'.
Proof. intros (e & -> & _). rewrite length_app. lia. Qed.

Lemma st_mapM_frame {A B} (f : A -> ST heap B) (Q : nat -> B -> Prop) :
  (forall L L' b, L <= L' -> Q L' b -> Q L b) ->
  forall l,
  Forall (fun x => forall h res h', f x h = (res, h') ->
            grows_fresh h h' /\ forall y, res = Ok y -> Q (List.length h) y) l ->
  forall h res h', st_mapM f l h = (res, h') ->
    grows_fresh h h' /\ forall ys, res = Ok ys -> Forall (Q (List.length h)) ys.
Proof.
  intros Qmono l. induction l as [|x l IH]; intros Hf h res h' Hrun; simpl in Hrun.
  - inversion Hrun; subst. split; [apply grows_fresh_refl|].
    intros ys [= <-]. constructor.
  - apply Forall_cons in Hf as [Hx Hl].
    unfold st_bind in Hrun at 1. destruct (f x h) as [[y|e] h1] eqn:Hfx.
    + destruct (Hx _ _ _ Hfx) as [G1 Hy].
      unfold st_bind in Hrun. destruct (st_mapM f l h1) as [[ys|e] h2] eqn:Hrest.
      * destruct (IH Hl _ _ _ Hrest) as [G2 Hys].
        inversion Hrun; subst. split; [eapply grows_fresh_trans; eauto|].
        intros ? [= <-]. constructor; [now apply Hy|].
        eapply Forall_impl; [now apply Hys|]. intros b. apply Qmono.
        now apply grows_fresh_length.
      * destruct (IH Hl _ _ _ Hrest) as [G2 _].
        inversion Hrun; subst. split; [eapply grows_fresh_trans; eauto|]. discriminate.
    + inversion Hrun; subst. destruct (Hx _ _ _ Hfx) as [G1 _]. split; [exact G1|discriminate].
Qed.

Lemma deepcopy_rec_frame n : forall v h res h',
  deepcopy_rec n v h = (res, h') ->
  grows_fresh h h' /\ forall v', res = Ok v' -> fresh_val (List.length h) v' = true.
Proof.
  induction n as [|n IH]; intros v h res h' Hrun; simpl in Hrun.
  - inversion Hrun; subst. split; [apply grows_fresh_refl | discriminate].
  - destruct v as [| | | | |vs|r];
      try (inversion Hrun; subst; split; [apply grows_fresh_refl|]; intros ? [= <-]; reflexivity).
    + unfold st_bind in Hrun.
      destruct (st_mapM (deepcopy_rec n) vs h) as [[vs'|e] h1] eqn:Hm.
      * inversion Hrun; subst.
        eapply (st_mapM_frame _ (fun L v => fresh_val L v = true)) in Hm as [G Hvs].
        -- split; [exact G|]. intros ? [= <-]. simpl. apply forallb_forall.
           specialize (Hvs _ eq_refl). rewrite Forall_forall in Hvs.
           intros x Hx. apply Hvs. now apply list_elem_of_In.
        -- intros. eapply fresh_val_mono; eauto.
        -- apply Forall_forall. intros x _ ? ? ? Hx. now apply IH in Hx.
      * inversion Hrun; subst.
        eapply (st_mapM_frame _ (fun L v => fresh_val L v = true)) in Hm as [G _].
        -- split; [exact G|discriminate].
        -- intros. eapply fresh_val_mono; eauto.
        -- apply Forall_forall. intros x _ ? ? ? Hx. now apply IH in Hx.
    + unfold st_bind, heap_read in Hrun. destruct (h !! r) as [d|] eqn:Hr.
      2:{ inversion Hrun; subst. split; [apply grows_fresh_refl|discriminate]. }
      match type of Hrun with context [st_mapM ?f d h] =>
        destruct (st_mapM f d h) as [[d'|e] h1] eqn:Hm end.
      * eapply (st_mapM_frame _ (fun L (kv : string * value) => fresh_val L kv.2 = true))
          in Hm as [G Hd'].
        -- unfold heap_alloc, st_ret in Hrun. inversion Hrun; subst.
           specialize (Hd' _ eq_refl).
           split.
           ++ destruct G as (e1 & -> & H1). exists (e1 ++ [d']).
              split; [now rewrite app_assoc|].
              apply Forall_app. split; [exact H1|]. constructor; [|constructor].
              unfold fresh_dict. apply forallb_forall. rewrite Forall_forall in Hd'.
              intros x Hx. apply Hd'. now apply list_elem_of_In.
           ++ intros ? [= <-]. simpl. apply Nat.leb_le. now apply grows_fresh_length.
        -- intros. eapply fresh_val_mono; eauto.
        -- apply Forall_forall. intros [k x] _ h0 res0 h0' Hx. simpl in Hx.
           unfold st_bind in Hx. destruct (deepcopy_rec n x h0) as [[x'|e] h2] eqn:Hc.
           ++ apply IH in Hc as [G Hf]. inversion Hx; subst. split; [exact G|].
              intros ? [= <-]. simpl. now apply Hf.
           ++ apply IH in Hc as [G Hf]. inversion Hx; subst. split; [exact G|discriminate].
      * eapply (st_mapM_frame _ (fun L (kv : string * value) => fresh_val L kv.2 = true))
          in Hm as [G _].
        -- inversion Hrun; subst. split; [exact G|discriminate].
        -- intros. eapply fresh_val_mono; eauto.
        -- apply Forall_forall. intros [k x] _ h0 res0 h0' Hx. simpl in Hx.
           unfold st_bind in Hx. destruct (deepcopy_rec n x h0) as [[x'|e'] h2] eqn:Hc.
           ++ apply IH in Hc as [G Hf]. inversion Hx; subst. split; [exact G|].
              intros ? [= <-]. simpl. now apply Hf.
           ++ apply IH in Hc as [G Hf]. inversion Hx; subst. split; [exact G|discriminate].
Qed.

Lemma snapshot_S n h v :
  snapshot (S n) h v =
  match v with
  | VNone => Some TNone
  | VBool b => Some (TBool b)
  | VInt z => Some (TInt z)
  | VFloat m e => Some (TFloat m e)
  | VStr s => Some (TStr s)
  | VList vs => TList <$> mapM (snapshot n h) vs
  | VDict r => d ← h !! r; TDict <$> mapM (snap_item n h) d
  end.
Proof. reflexivity. Qed.

Lemma snapshot_app n : forall h ext v t,
  snapshot n h v = Some t -> snapshot n (h ++ ext) v = Some t.
Proof.
  induction n as [|n IH]; intros h ext v t H; [discriminate|].
  rewrite snapshot_S in *. destruct v as [| | | | |vs|r]; try exact H.
  - apply fmap_Some in H as (ts & Hm & ->). apply fmap_Some. exists ts. split; [|reflexivity].
    apply mapM_Some. apply mapM_Some in Hm.
    eapply Forall2_impl; [exact Hm|]. intros x y. apply IH.
  - apply bind_Some in H as (d & Hr & H). apply bind_Some. exists d.
    split; [now apply lookup_app_l_Some|].
    apply fmap_Some in H as (ts & Hm & ->). apply fmap_Some. exists ts. split; [|reflexivity].
    apply mapM_Some. apply mapM_Some in Hm.
    eapply Forall2_impl; [exact Hm|]. intros [k x] y. unfold snap_item. simpl.
    intros Hx. apply bind_Some in Hx as (t & Hx & [= <-]). apply bind_Some.
    exists t. split; [now apply IH|reflexivity].
Qed.

Lemma snap_item_app n h ext kv kt :
  snap_item n h kv = Some kt -> snap_item n (h ++ ext) kv = Some kt.
Proof.
  unfold snap_item. intros H. apply bind_Some in H as (t & Hx & [= <-]).
  apply bind_Some. exists t. split; [now apply snapshot_app|reflexivity].
Qed.

Lemma st_mapM_grows {A B} (f : A -> ST heap B) :
  (forall x h res h', f x h = (res, h') -> exists e, h' = h ++ e) ->
  forall l h res h', st_mapM f l h = (res, h') -> exists e, h' = h ++ e.
Proof.
  intros Hgrow l. induction l as [|x l IH]; intros h res h' Hrun; simpl in Hrun.
  - inversion Hrun; subst. exists []. now rewrite app_nil_r.
  - unfold st_bind in Hrun at 1. destruct (f x h) as [[y|e] h1] eqn:Hfx.
    + destruct (Hgrow _ _ _ _ Hfx) as (e1 & ->).
      unfold st_bind in Hrun. destruct (st_mapM f l (h ++ e1)) as [[ys|e] h2] eqn:Hrest;
        destruct (IH _ _ _ Hrest) as (e2 & ->); inversion Hrun; subst;
        exists (e1 ++ e2); now rewrite app_assoc.
    + inversion Hrun; subst. eapply Hgrow; eauto.
Qed.

Lemma st_mapM_copy {A T} (f : A -> ST heap A) (sn : heap -> A -> option T) :
  (forall h e x t, sn h x = Some t -> sn (h ++ e) x = Some t) ->
  (forall x h res h', f x h = (res, h') -> exists e, h' = h ++ e) ->
  (forall x h t, sn h x = Some t ->
     exists y h', f x h = (Ok y, h') /\ sn h' y = Some t) ->
  forall l h ts, Forall2 (fun x t => sn h x = Some t) l ts ->
    exists ys h', st_mapM f l h = (Ok ys, h') /\
                  Forall2 (fun y t => sn h' y = Some t) ys ts.
Proof.
  intros Hmono Hgrow Hf l. induction l as [|x l IH]; intros h ts H.
  - apply Forall2_nil_inv_l in H as ->. exists [], h. split; [reflexivity|constructor].
  - apply Forall2_cons_inv_l in H as (t & ts' & Hx & Hl & ->).
    destruct (Hf _ _ _ Hx) as (y & h1 & Hfx & Hy).
    destruct (Hgrow _ _ _ _ Hfx) as (e1 & ->).
    destruct (IH (h ++ e1) ts') as (ys & h2 & Hrest & Hys).
    { eapply Forall2_impl; [exact Hl|]. intros a b. apply Hmono. }
    destruct (st_mapM_grows f Hgrow _ _ _ _ Hrest) as (e2 & ->).
    exists (y :: ys), ((h ++ e1) ++ e2). split.
    + simpl. unfold st_bind. rewrite Hfx. now rewrite Hrest.
    + constructor; [|exact Hys]. now apply Hmono.
Qed.

Lemma deepcopy_rec_grows n v h res h' :
  deepcopy_rec n v h = (res, h') -> exists e, h' = h ++ e.
Proof.
  intros H. apply deepcopy_rec_frame in H as [(e & -> & _) _]. now exists e.
Qed.

Lemma deepcopy_rec_S n v :
  deepcopy_rec (S n) v =
  match v with
  | VList vs => let* vs' := st_mapM (deepcopy_rec n) vs in st_ret (VList vs')
  | VDict r =>
      let* d := heap_read r in
      let* d' := st_mapM (copy_item n) d in
      let* r' := heap_alloc d' in
      st_ret (VDict r')
  | _ => st_ret v
  end.
Proof. reflexivity. Qed.

Lemma copy_item_grows n kv h res h' :
  copy_item n kv h = (res, h') -> exists e, h' = h ++ e.
Proof.
  unfold copy_item, st_bind. destruct (deepcopy_rec n kv.2 h) as [[x|e] h1] eqn:Hc;
    intros [= <- <-]; eapply deepcopy_rec_grows; eauto.
Qed.

(** A value that denotes a document is copied, and the copy denotes the
    same document. *)
Lemma deepcopy_rec_snapshot n : forall v h t,
  snapshot n h v = Some t ->
  exists v' h', deepcopy_rec n v h = (Ok v', h') /\ snapshot n h' v' = Some t.
Proof.
  induction n as [|n IH]; intros v h t H; [discriminate|].
  rewrite snapshot_S in H. rewrite deepcopy_rec_S.
  destruct v as [| | | | |vs|r];
    try (eexists _, h; split; [reflexivity|]; rewrite snapshot_S; exact H).
  - apply fmap_Some in H as (ts & Hm & ->). apply mapM_Some in Hm.
    destruct (st_mapM_copy (deepcopy_rec n) (snapshot n)) with (l := vs) (h := h) (ts := ts)
      as (vs' & h' & Hrun & Hsn); auto.
    { intros. now apply snapshot_app. }
    { intros. eapply deepcopy_rec_grows; eauto. }
    exists (VList vs'), h'. split.
    + unfold st_bind. now rewrite Hrun.
    + rewrite snapshot_S. apply fmap_Some. exists ts. split; [|reflexivity].
      now apply mapM_Some.
  - apply bind_Some in H as (d & Hr & H).
    apply fmap_Some in H as (ts & Hm & ->). apply mapM_Some in Hm.
    destruct (st_mapM_copy (copy_item n) (snap_item n)) with (l := d) (h := h) (ts := ts)
      as (d' & h' & Hrun & Hsn); auto.
    { intros. now apply snap_item_app. }
    { intros. eapply copy_item_grows; eauto. }
    { intros [k x] h0 [k' t0] Hx. unfold snap_item in Hx. simpl in Hx.
      apply bind_Some in Hx as (t1 & Hx & [= <- <-]).
      destruct (IH _ _ _ Hx) as (x' & h1 & Hc & Hs).
      exists (k, x'), h1. split.
      - unfold copy_item, st_bind. simpl. now rewrite Hc.
      - unfold snap_item. simpl. now rewrite Hs. }
    exists (VDict (List.length h')), (h' ++ [d']). split.
    + unfold st_bind, heap_read. cbv beta. rewrite Hr. cbv beta iota. now rewrite Hrun.
    + rewrite snapshot_S. apply bind_Some. exists d'. split.
      * rewrite lookup_app_r by lia. now rewrite Nat.sub_diag.
      * apply fmap_Some. exists ts. split; [|reflexivity]. apply mapM_Some.
        eapply Forall2_impl; [exact Hsn|]. intros a b. apply snap_item_app.
Qed.

(** ** Python operations, as functions of the world *)

Lemma with_heap_same w : with_heap w (w_heap w) = w.
Proof. now destruct w. Qed.

Lemma read_eq r w :
  Py.read r w = match w_heap w !! r with
                | Some d => (Ok d, w)
                | None => (Raise InvalidReference, w)
                end.
Proof.
  unfold Py.read, lift_heap, heap_read. destruct (w_heap w !! r); now destruct w.
Qed.

Lemma write_eq r d w :
  Py.write r d w = match w_heap w !! r with
                   | Some _ => (Ok tt, with_heap w (<[r := d]> (w_heap w)))
                   | None => (Raise InvalidReference, w)
                   end.
Proof.
  unfold Py.write, lift_heap, heap_write. destruct (w_heap w !! r); now destruct w.
Qed.

Lemma new_dict_eq d w :
  Py.new_dict d w = (Ok (VDict (List.length (w_heap w))), with_heap w (w_heap w ++ [d])).
Proof. reflexivity. Qed.

Lemma truthy_world v w : (Py.truthy v w).2 = w.
Proof.
  destruct v; try reflexivity. simpl. unfold st_bind. rewrite read_eq.
  now destruct (w_heap w !! r).
Qed.

Lemma contains_world k v w : (Py.has k v w).2 = w.
Proof.
  destruct v; try reflexivity. simpl. unfold st_bind. rewrite read_eq.
  now destruct (w_heap w !! r).
Qed.

Lemma kwargs_world v w : (Py.kwargs v w).2 = w.
Proof.
  destruct v; try reflexivity. simpl. rewrite read_eq. now destruct (w_heap w !! r).
Qed.

Lemma lower_world v w : (Py.to_lower v w).2 = w.
Proof. now destruct v. Qed.

Lemma getitem_eq v k w :
  Py.getitem v k w =
  match v with
  | VDict r =>
      match w_heap w !! r with
      | Some d => match PyDict.get d k with
                  | Some x => (Ok x, w)
                  | None => (Raise (KeyError k), w)
                  end
      | None => (Raise InvalidReference, w)
      end
  | _ => (Raise TypeError, w)
  end.
Proof.
  destruct v; try reflexivity. simpl. unfold st_bind. rewrite read_eq.
  destruct (w_heap w !! r); [|reflexivity]. now destruct (PyDict.get _ _).
Qed.

Lemma get_eq v k dflt w :
  Py.get_or v k dflt w =
  match v with
  | VDict r =>
      match w_heap w !! r with
      | Some d => (Ok (match PyDict.get d k with Some x => x | None => dflt end), w)
      | None => (Raise InvalidReference, w)
      end
  | _ => (Raise AttributeError, w)
  end.
Proof.
  destruct v; try reflexivity. simpl. unfold st_bind. rewrite read_eq.
  now destruct (w_heap w !! r).
Qed.

Lemma setitem_eq v k x w :
  Py.setitem v k x w =
  match v with
  | VDict r =>
      match w_heap w !! r with
      | Some d => (Ok tt, with_heap w (<[r := PyDict.set d k x]> (w_heap w)))
      | None => (Raise InvalidReference, w)
      end
  | _ => (Raise TypeError, w)
  end.
Proof.
  destruct v; try reflexivity. simpl. unfold st_bind. rewrite read_eq.
  destruct (w_heap w !! r) eqn:Hr; [|reflexivity]. rewrite write_eq. now rewrite Hr.
Qed.

Lemma pop_eq v k dflt w :
  Py.pop v k dflt w =
  match v with
  | VDict r =>
      match w_heap w !! r with
      | Some d => match PyDict.get d k with
                  | Some x => (Ok x, with_heap w (<[r := PyDict.del d k]> (w_heap w)))
                  | None => (Ok dflt, w)
                  end
      | None => (Raise InvalidReference, w)
      end
  | VList _ => (Raise TypeError, w)
  | _ => (Raise AttributeError, w)
  end.
Proof.
  destruct v; try reflexivity. simpl. unfold st_bind. rewrite read_eq.
  destruct (w_heap w !! r) eqn:Hr; [|reflexivity].
  destruct (PyDict.get _ _); [|reflexivity]. rewrite write_eq. now rewrite Hr.
Qed.

(** ** Dictionaries and freshness *)

Lemma fresh_dict_get L d k x :
  fresh_dict L d = true -> PyDict.get d k = Some x -> fresh_val L x = true.
Proof.
  unfold fresh_dict. induction d as [|[k' v] d IH]; simpl; [discriminate|].
  intros H. apply andb_true_iff in H as [Hv Hd].
  destruct (String.eqb k' k); [intros [= <-]; exact Hv | now apply IH].
Qed.

Lemma fresh_dict_set L d k x :
  fresh_dict L d = true -> fresh_val L x = true -> fresh_dict L (PyDict.set d k x) = true.
Proof.
  unfold fresh_dict. intros Hd Hx. induction d as [|[k' v] d IH]; simpl.
  - now rewrite Hx.
  - simpl in Hd. apply andb_true_iff in Hd as [Hv Hd].
    destruct (String.eqb k' k); simpl.
    + now rewrite Hx, Hd.
    + rewrite Hv. now apply IH.
Qed.

Lemma fresh_dict_del L d k :
  fresh_dict L d = true -> fresh_dict L (PyDict.del d k) = true.
Proof.
  unfold fresh_dict. intros Hd. induction d as [|[k' v] d IH]; simpl; [reflexivity|].
  simpl in Hd. apply andb_true_iff in Hd as [Hv Hd].
  destruct (String.eqb k' k); simpl; [exact Hd|]. rewrite Hv. now apply IH.
Qed.

(** ** The invariant *)

Lemma inv_refl al w : inv al w 0 w.
Proof.
  split; [reflexivity|]. split; [lia|].
  split; exists []; (split; [now rewrite app_nil_r|constructor]).
Qed.

Lemma inv_weaken al w0 n n' w : n' <= n -> inv al w0 n w -> inv al w0 n' w.
Proof. intros Hn (Hr & Hl & He). split; [exact Hr|]. split; [lia|exact He]. Qed.

Lemma inv_prefix al w0 n w : inv al w0 n w -> w_heap w0 `prefix_of` w_heap w.
Proof. intros (_ & _ & (e & -> & _) & _). now exists e. Qed.

Lemma inv_after al w0 n w e :
  al e = true -> inv al w0 n w -> inv al w0 n (after w [e]).
Proof.
  intros Hal (Hr & Hl & He & evs & Ht & Hf). split; [exact Hr|]. split; [exact Hl|].
  split; [exact He|]. exists (evs ++ [e]). simpl. split.
  - rewrite Ht. now rewrite app_assoc.
  - apply Forall_app. split; [exact Hf|]. constructor; [exact Hal|constructor].
Qed.

Lemma inv_read al w0 n w r d :
  inv al w0 n w -> w_heap w !! r = Some d -> List.length (w_heap w0) <= r ->
  fresh_dict (List.length (w_heap w0)) d = true.
Proof.
  intros (_ & _ & (e & He & Hf) & _) Hr HL. rewrite He in Hr.
  rewrite lookup_app_r in Hr by exact HL.
  rewrite Forall_forall in Hf. apply Hf. eapply list_elem_of_lookup_2; eauto.
Qed.

Lemma inv_write al w0 n w r d :
  inv al w0 n w -> List.length (w_heap w0) <= r ->
  fresh_dict (List.length (w_heap w0)) d = true ->
  inv al w0 n (with_heap w (<[r := d]> (w_heap w))).
Proof.
  intros (Hreg & Hl & (e & He & Hf) & Ht) HL Hd. split; [exact Hreg|]. simpl.
  split; [now rewrite length_insert|]. split; [|exact Ht].
  exists (<[r - List.length (w_heap w0) := d]> e). split.
  - rewrite He. replace r with (List.length (w_heap w0) + (r - List.length (w_heap w0))) at 1 by lia.
    apply insert_app_r.
  - now apply Forall_insert.
Qed.

Lemma inv_grows al w0 n w h' :
  inv al w0 n w -> grows_fresh (w_heap w) h' -> inv al w0 n (with_heap w h').
Proof.
  intros (Hreg & Hl & (e & He & Hf) & Ht) (e' & -> & Hf'). split; [exact Hreg|]. simpl.
  split; [rewrite length_app; lia|]. split; [|exact Ht].
  exists (e ++ e'). split; [rewrite He; now rewrite app_assoc|].
  apply Forall_app. split; [exact Hf|].
  eapply Forall_fresh_dict_mono; [|exact Hf']. rewrite He, length_app. lia.
Qed.

Lemma inv_alloc al w0 n w d :
  inv al w0 n w -> fresh_dict (List.length (w_heap w0)) d = true ->
  inv al w0 n (with_heap w (w_heap w ++ [d])).
Proof.
  intros (Hreg & Hl & (e & He & Hf) & Ht) Hd. split; [exact Hreg|]. simpl.
  split; [rewrite length_app; lia|]. split; [|exact Ht].
  exists (e ++ [d]). split; [rewrite He; now rewrite app_assoc|].
  apply Forall_app. split; [exact Hf|]. now constructor.
Qed.

Lemma inv_length al w0 n w :
  inv al w0 n w -> List.length (w_heap w0) <= List.length (w_heap w).
Proof. intros (_ & _ & (e & -> & _) & _). rewrite length_app. lia. Qed.

(** ** Rules for [preserves] *)

Lemma preserves_ret {A} I (a : A) (Q : A -> Prop) : Q a -> preserves I (st_ret a) Q.
Proof. intros Ha w Hw. split; [exact Hw|]. now intros ? [= <-]. Qed.

Lemma preserves_raise {A} I e (Q : A -> Prop) : preserves I (raise e) Q.
Proof. intros w Hw. split; [exact Hw|discriminate]. Qed.

Lemma preserves_bind {A B} I (m : M A) (f : A -> M B) (Q : A -> Prop) (R : B -> Prop) :
  preserves I m Q -> (forall a, Q a -> preserves I (f a) R) ->
  preserves I (st_bind m f) R.
Proof.
  intros Hm Hf w Hw. destruct (Hm w Hw) as [Hi Hq]. unfold st_bind.
  destruct (m w) as [[a|e] w1]; simpl in *.
  - now apply Hf; [apply Hq|].
  - split; [exact Hi|discriminate].
Qed.

Lemma preserves_weaken {A} I (m : M A) (Q Q' : A -> Prop) :
  preserves I m Q -> (forall a, Q a -> Q' a) -> preserves I m Q'.
Proof. intros Hm HQ w Hw. destruct (Hm w Hw) as [Hi Hq]. split; [exact Hi|]. auto. Qed.

Lemma preserves_same {A} I (m : M A) :
  (forall w, (m w).2 = w) -> preserves I m (fun _ => True).
Proof. intros Hm w Hw. rewrite Hm. split; [exact Hw|done]. Qed.

Section Preserved.
Variable E : Externals.
Variable allowed : event -> bool.
Variable w0 : world.
Variable n : nat.
Let L := List.length (w_heap w0).
Let fresh (v : value) : Prop := fresh_val L v = true.
Let inv := (inv allowed).

Lemma preserves_emit e :
  allowed e = true -> preserves (inv w0 n) (emit e) (fun _ => True).
Proof. intros He w Hw. split; [now apply inv_after|done]. Qed.

Lemma preserves_get_heap : preserves (inv w0 n) get_heap (fun _ => True).
Proof. now apply preserves_same. Qed.

Lemma preserves_truthy v : preserves (inv w0 n) (Py.truthy v) (fun _ => True).
Proof. apply preserves_same. apply truthy_world. Qed.

Lemma preserves_contains k v : preserves (inv w0 n) (Py.has k v) (fun _ => True).
Proof. apply preserves_same. apply contains_world. Qed.

Lemma preserves_kwargs v : preserves (inv w0 n) (Py.kwargs v) (fun _ => True).
Proof. apply preserves_same. apply kwargs_world. Qed.

Lemma preserves_lower v : preserves (inv w0 n) (Py.to_lower v) (fun _ => True).
Proof. apply preserves_same. apply lower_world. Qed.

Lemma preserves_new_dict : preserves (inv w0 n) (Py.new_dict []) fresh.
Proof.
  intros w Hw. rewrite new_dict_eq. simpl. split.
  - now apply inv_alloc.
  - intros ? [= <-]. unfold fresh. simpl. apply Nat.leb_le. eapply inv_length; eauto.
Qed.

Lemma preserves_getitem v k : fresh v -> preserves (inv w0 n) (Py.getitem v k) fresh.
Proof.
  intros Hv w Hw. rewrite getitem_eq. destruct v; try (split; [exact Hw|discriminate]).
  destruct (w_heap w !! r) as [d|] eqn:Hr; [|split; [exact Hw|discriminate]].
  destruct (PyDict.get d k) as [x|] eqn:Hg; [|split; [exact Hw|discriminate]].
  split; [exact Hw|]. intros ? [= <-]. eapply fresh_dict_get; [|exact Hg].
  eapply inv_read; eauto. now apply Nat.leb_le.
Qed.

Lemma preserves_get v k dflt :
  fresh v -> fresh dflt -> preserves (inv w0 n) (Py.get_or v k dflt) fresh.
Proof.
  intros Hv Hd w Hw. rewrite get_eq. destruct v; try (split; [exact Hw|discriminate]).
  destruct (w_heap w !! r) as [d|] eqn:Hr; [|split; [exact Hw|discriminate]].
  split; [exact Hw|]. intros ? [= <-].
  destruct (PyDict.get d k) as [x|] eqn:Hg; [|exact Hd].
  eapply fresh_dict_get; [|exact Hg]. eapply inv_read; eauto. now apply Nat.leb_le.
Qed.

Lemma preserves_setitem v k x :
  fresh v -> fresh x -> preserves (inv w0 n) (Py.setitem v k x) (fun _ => True).
Proof.
  intros Hv Hx w Hw. rewrite setitem_eq. destruct v; try (split; [exact Hw|discriminate]).
  destruct (w_heap w !! r) as [d|] eqn:Hr; [|split; [exact Hw|discriminate]].
  split; [|done]. simpl. apply Nat.leb_le in Hv. apply inv_write; [exact Hw|exact Hv|].
  apply fresh_dict_set; [|exact Hx]. eapply inv_read; eauto.
Qed.

Lemma preserves_pop v k dflt :
  fresh v -> fresh dflt -> preserves (inv w0 n) (Py.pop v k dflt) fresh.
Proof.
  intros Hv Hd w Hw. rewrite pop_eq. destruct v; try (split; [exact Hw|discriminate]).
  destruct (w_heap w !! r) as [d|] eqn:Hr; [|split; [exact Hw|discriminate]].
  apply Nat.leb_le in Hv.
  destruct (PyDict.get d k) as [x|] eqn:Hg.
  - split.
    + simpl. apply inv_write; [exact Hw|exact Hv|]. apply fresh_dict_del. eapply inv_read; eauto.
    + intros ? [= <-]. eapply fresh_dict_get; [|exact Hg]. eapply inv_read; eauto.
  - split; [exact Hw|]. now intros ? [= <-].
Qed.

Lemma preserves_deepcopy v : preserves (inv w0 n) (deepcopy E v) fresh.
Proof.
  intros w Hw. unfold deepcopy, lift_heap.
  destruct (deepcopy_rec (max_depth E) v (w_heap w)) as [res h'] eqn:Hc.
  apply deepcopy_rec_frame in Hc as [G Hf]. simpl. split.
  - now apply (inv_grows allowed w0 n w h').
  - intros a ->. eapply fresh_val_mono; [|now apply Hf]. eapply inv_length; eauto.
Qed.

Lemma preserves_get_model_config name :
  (forall nm b, allowed (EvGetModelConfig nm b) = true) ->
  preserves (inv w0 n) (get_model_config E name) fresh.
Proof.
  intros Hal. unfold get_model_config.
  eapply preserves_bind with (Q := fun _ => True); [now apply preserves_same|].
  intros reg _.
  destruct name; try apply preserves_raise;
    try (eapply preserves_bind; [apply preserves_emit, Hal|]; intros; now apply preserves_ret).
  destruct (reg !! s).
  - eapply preserves_bind; [apply preserves_emit, Hal|]. intros. apply preserves_deepcopy.
  - eapply preserves_bind; [apply preserves_emit, Hal|]. intros. now apply preserves_ret.
Qed.

Lemma preserves_get_cfg_and_handle_error name :
  (forall nm b, allowed (EvGetModelConfig nm b) = true) ->
  preserves (inv w0 n) (get_cfg_and_handle_error E name) fresh.
Proof.
  intros Hal. unfold get_cfg_and_handle_error.
  eapply preserves_bind; [now apply preserves_get_model_config|].
  intros cfg Hcfg. destruct cfg; try (now apply preserves_ret). apply preserves_raise.
Qed.

End Preserved.

(** ** What the factory leaves alone *)

Ltac fresh_side := first [assumption | reflexivity | exact I | intros; reflexivity].

Ltac pres_prim :=
  first
    [ apply preserves_emit; fresh_side
    | apply preserves_truthy
    | apply preserves_contains
    | apply preserves_kwargs
    | apply preserves_lower
    | apply preserves_get_heap
    | apply preserves_new_dict
    | apply preserves_get_cfg_and_handle_error; fresh_side
    | apply preserves_getitem; fresh_side
    | apply preserves_get; fresh_side
    | apply preserves_pop; fresh_side
    | apply preserves_setitem; fresh_side ].

Ltac pres :=
  lazymatch goal with
  | |- preserves _ (st_ret _) _ => apply preserves_ret; fresh_side
  | |- preserves _ (raise _) _ => apply preserves_raise
  | |- preserves _ (if ?b then _ else _) _ => destruct b; pres
  | |- preserves _ (match ?x with _ => _ end) _ => destruct x; pres
  | |- preserves _ (st_bind _ _) _ =>
      first
        [ eapply preserves_bind; [ pres_prim | intros; pres ]
        | eapply preserves_bind with (Q := fun _ => True); [ pres | intros; pres ] ]
  | |- _ => first [ pres_prim | eapply preserves_weaken; [pres_prim | done] ]
  end.

Lemma preserves_load_and_prepare_cfg E al w0 n name fqg fpd pi fct phf :
  (forall nm b, al (EvGetModelConfig nm b) = true) ->
  preserves (inv al w0 n)
    (load_and_prepare_cfg E name fqg fpd pi fct phf) (fun _ => True).
Proof.
  intros Hal. unfold load_and_prepare_cfg. pres.
Qed.

Lemma preserves_get_visual E I m : preserves I (get_visual E m) (fun _ => True).
Proof. unfold get_visual. destruct (visual m); [now apply preserves_ret|apply preserves_raise]. Qed.

Lemma preserves_load_state_dict E w0 n path :
  preserves (inv any_event w0 n) (load_state_dict E path) (fun _ => True).
Proof. unfold load_state_dict. pres. Qed.

Lemma preserves_load_checkpoint E w0 n m path strict which tower :
  preserves (inv any_event w0 n) (load_checkpoint E m path strict which tower)
    (fun _ => True).
Proof.
  unfold load_checkpoint. destruct tower; [pres|].
  eapply preserves_bind; [apply preserves_load_state_dict|]. intros sd _.
  destruct which;
    repeat first
      [ eapply preserves_bind;
          [first [now apply preserves_emit | apply preserves_get_visual]|intros]
      | match goal with |- preserves _ (let '(_, _) := ?x in _) _ => destruct x end
      | now apply preserves_ret ].
Qed.

Lemma preserves_or_default al w0 n x d :
  preserves (inv al w0 n) (or_default x d) (fun _ => True).
Proof. unfold or_default. pres. Qed.

Ltac pres_prim ::=
  first
    [ apply preserves_emit; fresh_side
    | apply preserves_truthy
    | apply preserves_contains
    | apply preserves_kwargs
    | apply preserves_lower
    | apply preserves_get_heap
    | apply preserves_new_dict
    | apply preserves_get_cfg_and_handle_error; fresh_side
    | apply preserves_load_and_prepare_cfg; fresh_side
    | apply preserves_load_checkpoint
    | apply preserves_or_default
    | apply preserves_get_visual
    | apply preserves_getitem; fresh_side
    | apply preserves_get; fresh_side
    | apply preserves_pop; fresh_side
    | apply preserves_setitem; fresh_side ].


Lemma st_bind_inv {S A B} (m : ST S A) (f : A -> ST S B) s b s' :
  st_bind m f s = (Ok b, s') ->
  exists a s1, m s = (Ok a, s1) /\ f a s1 = (Ok b, s').
Proof.
  unfold st_bind. destruct (m s) as [[a|e] s1]; [|discriminate]. intros H. now exists a, s1.
Qed.

(** ** Documents *)

Lemma snapshot_dict_inv n h v kts :
  snapshot n h v = Some (TDict kts) ->
  exists n' r d, n = S n' /\ v = VDict r /\ h !! r = Some d /\
                 Forall2 (fun kv kt => snap_item n' h kv = Some kt) d kts.
Proof.
  destruct n as [|n]; [discriminate|]. rewrite snapshot_S.
  destruct v; try discriminate.
  - intros H. apply fmap_Some in H as (? & _ & [=]).
  - intros H. apply bind_Some in H as (d & Hr & H).
    apply fmap_Some in H as (ts & Hm & [= ->]). apply mapM_Some in Hm.
    now exists n, r, d.
Qed.

Lemma snapshot_str_inv n h v s : snapshot n h v = Some (TStr s) -> v = VStr s.
Proof.
  destruct n as [|n]; [discriminate|]. rewrite snapshot_S.
  destruct v; try discriminate.
  - now intros [= ->].
  - intros H. apply fmap_Some in H as (? & _ & [=]).
  - intros H. apply bind_Some in H as (d & Hr & H). apply fmap_Some in H as (? & _ & [=]).
Qed.

Lemma snap_items_get n h d kts k :
  Forall2 (fun kv kt => snap_item n h kv = Some kt) d kts ->
  match PyDict.get kts k with
  | Some t => exists v, PyDict.get d k = Some v /\ snapshot n h v = Some t
  | None => PyDict.get d k = None
  end.
Proof.
  induction 1 as [|[k1 v1] [k2 t2] d kts Hx _ IH]; simpl; [reflexivity|].
  unfold snap_item in Hx. simpl in Hx. apply bind_Some in Hx as (t & Hs & [= <- <-]).
  destruct (String.eqb k1 k); [|exact IH]. now exists v1.
Qed.


Lemma snapshot_prefix n h h' v t :
  h `prefix_of` h' -> snapshot n h v = Some t -> snapshot n h' v = Some t.
Proof. intros [e ->]. apply snapshot_app. Qed.

(** ** Looking a registered name up *)

Lemma get_model_config_known E name cfg t w :
  w_registry w !! name = Some cfg ->
  snapshot (max_depth E) (w_heap w) cfg = Some t ->
  exists c h',
    get_model_config E (VStr name) w
    = (Ok c, with_heap (after w [EvGetModelConfig (VStr name) true]) h') /\
    snapshot (max_depth E) h' c = Some t /\
    fresh_val (List.length (w_heap w)) c = true /\
    w_heap w `prefix_of` h'.
Proof.
  intros Hreg Hsn.
  destruct (deepcopy_rec_snapshot _ _ _ _ Hsn) as (c & h' & Hc & Hs).
  exists c, h'. split; [|split; [exact Hs|]].
  - unfold get_model_config, get_registry, st_bind. rewrite Hreg. simpl.
    unfold deepcopy, lift_heap. simpl. now rewrite Hc.
  - apply deepcopy_rec_frame in Hc as [(e & -> & _) Hf].
    split; [now apply Hf | now exists e].
Qed.



(** ** The tokenizer *)

Lemma contains_dict_eq k r w d :
  w_heap w !! r = Some d -> Py.has k (VDict r) w = (Ok (PyDict.mem d k), w).
Proof. intros H. simpl. unfold st_bind. rewrite read_eq. now rewrite H. Qed.

(** C10, as the code has it. For a name that is not registered
    [get_model_config] returns [None] and [get_tokenizer] raises
    [TypeError] (subscripting [None]). For a registered name whose
    configuration is a dictionary with a dictionary under 'text_cfg',
    [get_tokenizer] returns [HFTokenizer(text_cfg['hf_tokenizer_name'])]
    when that key is present and [tokenize] otherwise. *)
Theorem get_tokenizer_registered_or_fails E :
  (forall name w,
     w_registry w !! name = None ->
     let w' := after w [EvGetModelConfig (VStr name) false] in
     get_model_config E (VStr name) w = (Ok VNone, w') /\
     get_tokenizer E name w = (Raise TypeError, w')) /\
  (forall name w cfg kts tkts,
     w_registry w !! name = Some cfg ->
     snapshot (max_depth E) (w_heap w) cfg = Some (TDict kts) ->
     PyDict.get kts "text_cfg" = Some (TDict tkts) ->
     exists w',
       match PyDict.get tkts "hf_tokenizer_name" with
       | Some tn =>
           exists n', get_tokenizer E name w = (Ok (HFTokenizer E n'), w') /\
                      (exists d, snapshot d (w_heap w') n' = Some tn) /\
                      (forall s, tn = TStr s -> n' = VStr s)
       | None => get_tokenizer E name w = (Ok (tokenize E), w')
       end).
Proof.
  split.
  - intros name w Hreg w'. split; [now apply get_model_config_unknown|].
    unfold get_tokenizer.
    erewrite st_bind_ok by (apply get_model_config_unknown; exact Hreg). reflexivity.
  - intros name w cfg kts tkts Hreg Hsn Htext.
    destruct (get_model_config_known E name cfg _ w Hreg Hsn) as (c & h' & Hget & Hs & _ & _).
    eexists. unfold get_tokenizer. erewrite st_bind_ok by exact Hget.
    apply snapshot_dict_inv in Hs as (n1 & r & d & Hn1 & -> & Hr & Hd).
    pose proof (snap_items_get n1 h' d kts "text_cfg" Hd) as Hg. rewrite Htext in Hg.
    destruct Hg as (tc & Hgtc & Hstc).
    assert (Hitem : Py.getitem (VDict r) "text_cfg"
              (with_heap (after w [EvGetModelConfig (VStr name) true]) h')
            = (Ok tc, with_heap (after w [EvGetModelConfig (VStr name) true]) h')).
    { rewrite getitem_eq. simpl. rewrite Hr. now rewrite Hgtc. }
    erewrite st_bind_ok by exact Hitem.
    apply snapshot_dict_inv in Hstc as (n2 & r2 & d2 & Hn2 & -> & Hr2 & Hd2).
    pose proof (snap_items_get n2 h' d2 tkts "hf_tokenizer_name" Hd2) as Hg2.
    erewrite st_bind_ok by (apply contains_dict_eq; exact Hr2).
    unfold PyDict.mem.
    destruct (PyDict.get tkts "hf_tokenizer_name") as [tn|].
    + destruct Hg2 as (n' & Hgn & Hsn'). rewrite Hgn.
      exists n'. erewrite st_bind_ok by exact Hitem.
      rewrite (st_bind_ok _ _ _ n' (with_heap (after w [EvGetModelConfig (VStr name) true]) h')).
      2:{ rewrite getitem_eq. simpl. rewrite Hr2. now rewrite Hgn. }
      split; [reflexivity|]. split; [now exists n2|].
      intros s ->. eapply snapshot_str_inv; eauto.
    + rewrite Hg2. reflexivity.
Qed.

Lemma load_and_prepare_cfg_dict E name fqg fpd pi fct phf w mn cfg ct wt w1 :
  load_and_prepare_cfg E name fqg fpd pi fct phf w = (Ok (mn, cfg, ct, wt), w1) ->
  exists r d, cfg = VDict r /\ w_heap w1 !! r = Some d.
Proof.
  intros H. unfold load_and_prepare_cfg in H.
  apply st_bind_inv in H as (model_cfg & wa & Ha & H).
  apply st_bind_inv in H as (dflt & wb & Hb & H).
  apply st_bind_inv in H as (vision_cfg & wc & Hc & H).
  destruct (preserves_get_cfg_and_handle_error E any_event w 0 name
              (fun _ _ => eq_refl) w (inv_refl _ w)) as [Ia Qa].
  rewrite Ha in Ia, Qa. simpl in Ia. specialize (Qa _ eq_refl).
  destruct (preserves_new_dict any_event w 0 wa Ia) as [Ib Qb].
  rewrite Hb in Ib, Qb. simpl in Ib. specialize (Qb _ eq_refl).
  destruct (preserves_get any_event w 0 model_cfg "vision_cfg" dflt Qa Qb wb Ib) as [Ic Qc].
  rewrite Hc in Ic, Qc. simpl in Ic. specialize (Qc _ eq_refl).
  rewrite get_eq in Hc. destruct model_cfg as [| | | | | |r]; try discriminate.
  destruct (w_heap wb !! r) as [d0|] eqn:Hr; [|discriminate].
  injection Hc as _ <-.
  assert (Hlt : r < List.length (w_heap wb)) by (eapply lookup_lt_Some; eauto).
  assert (Ic' : inv any_event w (S r) wb).
  { destruct Ic as (? & ? & ?). split; [assumption|]. split; [lia|assumption]. }
  match type of H with ?m wb = _ =>
    assert (Hp : preserves (inv any_event w (S r)) m (fun '(_, c, _, _) => c = VDict r)) end.
  { pres. }
  destruct (Hp wb Ic') as [(_ & Hlen & _) Hq]. rewrite H in Hlen, Hq. simpl in *.
  specialize (Hq _ eq_refl). simpl in Hq. subst cfg.
  destruct (lookup_lt_is_Some_2 (w_heap w1) r) as [d Hd]; [lia|]. now exists r, d.
Qed.

(** ** The order of the framework calls *)

Lemma load_state_dict_world E path w :
  (load_state_dict E path w).2 = after w [EvTorchLoad path].
Proof.
  unfold load_state_dict, st_bind. rewrite emit_after.
  destruct (select_state_dict (torch_load E path)) as [|[|[k0 ?] ?]|]; try reflexivity.
  now destruct (PyStr.startswith k0 "module").
Qed.

Lemma load_checkpoint_world E m path strict which tower w :
  exists evs, (load_checkpoint E m path strict which tower w).2 = after w evs /\
              Forall (fun e => is_weight_event e = true) evs.
Proof.
  unfold load_checkpoint. destruct tower as [t|].
  - exists [EvSetVisual]. split; [reflexivity|]. now repeat constructor.
  - unfold st_bind at 1. pose proof (load_state_dict_world E path w) as Hw.
    destruct (load_state_dict E path w) as [[sd|e] w1]; simpl in Hw; subst w1.
    2:{ exists [EvTorchLoad path]. split; [reflexivity|]. now repeat constructor. }
    assert (Hvis : forall items,
      exists evs,
        (st_bind (get_visual E m) (fun v =>
           st_bind (emit (EvLoadStateDict true strict)) (fun _ =>
             let '(incompatible_keys, v') :=
               visual_load_state_dict E v (PyDict.of_items items) strict in
             st_ret (Some incompatible_keys, set_visual E m v')))
           (after w [EvTorchLoad path])).2 = after w evs /\
        Forall (fun e => is_weight_event e = true) evs).
    { intros items. unfold st_bind, get_visual. destruct (visual m) as [v|]; simpl.
      - destruct (visual_load_state_dict E v (PyDict.of_items items) strict).
        exists [EvTorchLoad path; EvLoadStateDict true strict]. split; [|now repeat constructor].
        simpl. now rewrite after_after.
      - exists [EvTorchLoad path]. split; [reflexivity|now repeat constructor]. }
    destruct which; try apply Hvis.
    unfold st_bind. simpl.
    match goal with |- context [model_load_state_dict E m ?sd' strict] =>
      destruct (model_load_state_dict E m sd' strict) end.
    exists [EvTorchLoad path; EvLoadStateDict false strict]. split; [|now repeat constructor].
    simpl. now rewrite after_after.
Qed.

Lemma or_default_world x d w : (or_default x d w).2 = w.
Proof.
  unfold or_default, st_bind. pose proof (truthy_world x w) as H.
  destruct (Py.truthy x w) as [[b|e] w1]; simpl in *; now subst.
Qed.

Lemma create_model_run E model_name pretrained precision device jit fqg fct fpd
    pi phf cache_dir w mn cfg ct wt w1 m w' :
  load_and_prepare_cfg E (VStr (normalize_name model_name)) fqg fpd pi fct phf w
  = (Ok (mn, cfg, ct, wt), w1) ->
  create_model E model_name pretrained precision device jit fqg fct fpd pi phf
    cache_dir w = (Ok m, w') ->
  (is_pure_openai pretrained (extract_tower wt) = true /\
   w' = after w1 [EvLoadOpenAI mn precision jit] /\
   m = load_openai_model E mn precision
         (match device with inl s => torch_device E s | inr d => d end)
         jit cache_dir) \/
  (is_pure_openai pretrained (extract_tower wt) = false /\
   exists loads,
     Forall (fun e => is_weight_event e = true) loads /\
     w' = after w1
            ((if extract_tower wt then [EvLoadOpenAI mn precision jit] else [])
             ++ [EvConstruct ct] ++ loads ++ [EvToDevice]
             ++ lp_events precision ++ jit_events jit) /\
     exists m1 mean std,
       let moved :=
         model_to E m1 (match device with inl s => torch_device E s | inr d => d end) in
       let m2 := set_image_stats E (cast_precision E precision moved) mean std in
       visual (cast_precision E precision moved) <> None /\
       m = if jit then torch_jit_script E m2 else m2).
Proof.
  intros H1 H2. unfold create_model in H2. fold (normalize_name model_name) in H2.
  rewrite (st_bind_ok _ _ _ _ _ H1) in H2. cbv beta iota in H2.
  apply st_bind_inv in H2 as (extract & wx & Hx & H2).
  assert (Hex : extract = extract_tower wt /\ wx = w1).
  { destruct wt; simpl in Hx; try discriminate; now inversion Hx. }
  destruct Hex as [-> ->]. clear Hx.
  fold (is_pure_openai pretrained (extract_tower wt)) in H2.
  apply st_bind_inv in H2 as ([mo tower] & wa & Ha & H2).
  apply st_bind_inv in H2 as (mo' & wb & Hb & H2).
  destruct (is_pure_openai pretrained (extract_tower wt)) eqn:Hpure.
  - (* the pure OpenAI path *)
    left. rewrite orb_true_r in Ha. simpl in Hb. inversion Hb; subst; clear Hb.
    unfold st_bind in Ha. rewrite emit_after in Ha. inversion Ha; subst; clear Ha.
    inversion H2; subst. auto.
  - right. split; [reflexivity|]. rewrite orb_false_r in Ha, Hb. simpl negb in Hb.
    cbv iota in Hb.
    assert (Hwa : wa = after w1 (if extract_tower wt
                                 then [EvLoadOpenAI mn precision jit] else [])).
    { destruct (extract_tower wt).
      - unfold st_bind in Ha. rewrite emit_after in Ha. now inversion Ha.
      - inversion Ha. now rewrite after_nil. }
    clear Ha. set (pre := if extract_tower wt then _ else _) in Hwa.
    apply st_bind_inv in Hb as (kw & w2 & Hkw & Hb).
    pose proof (kwargs_world cfg wa) as Hw. rewrite Hkw in Hw. simpl in Hw. subst w2.
    apply st_bind_inv in Hb as ([] & w2 & Hdup & Hb).
    assert (w2 = wa) as ->
      by (destruct (PyDict.mem kw "cast_dtype"); [discriminate|now inversion Hdup]).
    clear Hdup.
    apply st_bind_inv in Hb as (h & w2 & Hh & Hb). inversion Hh; subst h w2; clear Hh.
    apply st_bind_inv in Hb as ([] & w2 & Hev & Hb).
    rewrite emit_after in Hev. inversion Hev; subst w2; clear Hev.
    apply st_bind_inv in Hb as (ptrue & w2 & Hpt & Hb).
    match type of Hpt with Py.truthy ?v ?w0 = _ =>
      pose proof (truthy_world v w0) as Hw; rewrite Hpt in Hw; simpl in Hw; subst w2 end.
    apply st_bind_inv in Hb as ([pcfg ckpt] & w2 & Hpc & Hb). cbv beta iota in Hb.
    assert (Hw2 : exists l1, Forall (fun e => is_weight_event e = true) l1 /\
                             w2 = after (after wa [EvConstruct ct]) l1).
    { destruct (ptrue && negb (extract_tower wt)).
      - destruct (get_pretrained_cfg E mn _).
        + exists []. split; [constructor|]. rewrite after_nil.
          destruct (os_path_exists E _); now inversion Hpc.
        + exists [EvDownloadPretrained]. split; [now repeat constructor|].
          unfold st_bind in Hpc. rewrite emit_after in Hpc. now inversion Hpc.
      - exists []. split; [constructor|]. rewrite after_nil. now inversion Hpc. }
    destruct Hw2 as (l1 & Hl1 & ->). clear Hpc.
    apply st_bind_inv in Hb as (cktrue & w3 & Hck & Hb).
    pose proof (truthy_world ckpt (after (after wa [EvConstruct ct]) l1)) as Hw.
    rewrite Hck in Hw. simpl in Hw. subst w3. clear Hck.
    apply st_bind_inv in Hb as (m1 & w3 & Hm1 & Hb).
    assert (Hw3 : exists l2, Forall (fun e => is_weight_event e = true) l2 /\
                             w3 = after (after (after wa [EvConstruct ct]) l1) l2).
    { destruct (cktrue || extract_tower wt).
      - apply st_bind_inv in Hm1 as ([ik m'] & w4 & Hlc & Hm1).
        inversion Hm1; subst; clear Hm1.
        match type of Hlc with load_checkpoint E ?a ?b ?c ?d ?e ?f = _ =>
          destruct (load_checkpoint_world E a b c d e f) as (l2 & Hl2 & HF) end.
        rewrite Hlc in Hl2. simpl in Hl2. now exists l2.
      - apply st_bind_inv in Hm1 as (pt & w4 & Hpt2 & Hm1).
        match type of Hpt2 with Py.truthy ?v ?w0 = _ =>
          pose proof (truthy_world v w0) as Hw; rewrite Hpt2 in Hw; simpl in Hw; subst w4 end.
        destruct pt; [discriminate|]. inversion Hm1; subst.
        exists []. split; [constructor|now rewrite after_nil]. }
    destruct Hw3 as (l2 & Hl2 & ->). clear Hm1.
    apply st_bind_inv in Hb as ([] & w4 & Hev & Hb).
    rewrite emit_after in Hev. inversion Hev; subst w4; clear Hev.
    apply st_bind_inv in Hb as (m2 & w4 & Hlp & Hb).
    assert (Hw4 : w4 = after (after (after (after (after wa [EvConstruct ct]) l1) l2)
                                [EvToDevice]) (lp_events precision) /\
                  m2 = cast_precision E precision
                         (model_to E m1 (match device with
                                         | inl s => torch_device E s
                                         | inr d => d
                                         end))).
    { unfold lp_events, cast_precision.
      destruct (String.eqb precision "fp16") eqn:H16; simpl in Hlp.
      - unfold st_bind in Hlp. rewrite emit_after in Hlp.
        destruct (String.eqb precision "bf16") eqn:Hb16.
        + apply String.eqb_eq in H16, Hb16. congruence.
        + now inversion Hlp.
      - destruct (String.eqb precision "bf16") eqn:Hb16.
        + unfold st_bind in Hlp. rewrite emit_after in Hlp. now inversion Hlp.
        + inversion Hlp. now rewrite after_nil. }
    destruct Hw4 as [-> Hm2]. clear Hlp.
    apply st_bind_inv in Hb as (mean & w5 & Hmean & Hb).
    match type of Hmean with or_default ?x ?d ?w0 = _ =>
      pose proof (or_default_world x d w0) as Hw; rewrite Hmean in Hw; simpl in Hw; subst w5 end.
    apply st_bind_inv in Hb as (v1 & w5 & Hv1 & Hb).
    assert (w5 = after (after (after (after (after wa [EvConstruct ct]) l1) l2)
                          [EvToDevice]) (lp_events precision)
            /\ visual m2 = Some v1) as [-> Hvis]
      by (unfold get_visual in Hv1; destruct (visual m2); now inversion Hv1).
    apply st_bind_inv in Hb as (std & w5 & Hstd & Hb).
    match type of Hstd with or_default ?x ?d ?w0 = _ =>
      pose proof (or_default_world x d w0) as Hw; rewrite Hstd in Hw; simpl in Hw; subst w5 end.
    apply st_bind_inv in Hb as (v2 & w5 & Hv2 & Hb).
    simpl in Hv2. inversion Hv2; subst v2 w5; clear Hv2.
    exists (l1 ++ l2). split; [now apply Forall_app|].
    assert (wb = after (after (after (after (after (after wa [EvConstruct ct]) l1) l2)
                          [EvToDevice]) (lp_events precision)) (jit_events jit)
            /\ exists m0, mo' = Some m0) as [-> [m0 ->]].
    { destruct jit; simpl in Hb.
      - unfold st_bind in Hb. rewrite emit_after in Hb. inversion Hb. eauto.
      - inversion Hb. rewrite after_nil. eauto. }
    inversion H2; subst m0 w'. split.
    { subst wa. rewrite !after_after. f_equal. now rewrite <- !app_assoc. }
    exists m1, mean, std. cbv zeta. rewrite <- Hm2. split; [now rewrite Hvis|].
    unfold set_image_stats. rewrite Hvis.
    destruct jit; simpl in Hb.
    + unfold st_bind in Hb. rewrite emit_after in Hb. inversion Hb. reflexivity.
    + inversion Hb. reflexivity.
Qed.

Lemma get_cfg_and_handle_error_ok E s w cfg wa :
  get_cfg_and_handle_error E (VStr s) w = (Ok cfg, wa) ->
  w_trace wa = w_trace w ++ [EvGetModelConfig (VStr s) true].
Proof.
  unfold get_cfg_and_handle_error, get_model_config, get_registry, st_bind. simpl.
  destruct (w_registry w !! s) as [c|]; simpl; [|discriminate].
  unfold deepcopy, lift_heap. simpl.
  destruct (deepcopy_rec (max_depth E) c (w_heap w)) as [[c'|e] h']; [|discriminate].
  destruct c'; intros [= _ <-]; reflexivity.
Qed.

Lemma load_and_prepare_cfg_trace E s fqg fpd pi fct phf w res w1 :
  load_and_prepare_cfg E (VStr s) fqg fpd pi fct phf w = (Ok res, w1) ->
  exists cfgs,
    w_trace w1 = w_trace w ++ EvGetModelConfig (VStr s) true :: cfgs /\
    Forall (fun e => is_cfg_event e = true) cfgs.
Proof.
  intros H. unfold load_and_prepare_cfg in H.
  apply st_bind_inv in H as (model_cfg & wa & Ha & H).
  pose proof (get_cfg_and_handle_error_ok _ _ _ _ _ Ha) as Htr.
  destruct (preserves_get_cfg_and_handle_error E any_event w 0 (VStr s)
              (fun _ _ => eq_refl) w (inv_refl _ w)) as [Ia Qa].
  rewrite Ha in Ia, Qa. simpl in Ia. specialize (Qa _ eq_refl).
  set (base := {| w_heap := w_heap w; w_registry := w_registry w;
                  w_trace := w_trace wa |}).
  assert (Ib : inv is_cfg_event base 0 wa).
  { destruct Ia as (Hr & Hl & He & _). split; [exact Hr|]. split; [exact Hl|].
    split; [exact He|]. exists []. simpl. split; [now rewrite app_nil_r|constructor]. }
  match type of H with ?m wa = _ =>
    assert (Hp : preserves (inv is_cfg_event base 0) m (fun _ => True)) end.
  { change (fresh_val (List.length (w_heap base)) model_cfg = true) in Qa. pres. }
  destruct (Hp wa Ib) as [(_ & _ & _ & evs & Hevs & Hf) _]. rewrite H in Hevs. simpl in Hevs.
  exists evs. split; [|exact Hf]. rewrite Hevs, Htr. now rewrite <- app_assoc.
Qed.

Lemma lp_events_cases E precision (m0 : model_obj (VisualBody E) (ModelBody E)) :
  (precision = "fp16" ->
   lp_events precision = [EvConvertLP float16] /\
   cast_precision E precision m0 = convert_weights_to_lp E m0 float16) /\
  (precision = "bf16" ->
   lp_events precision = [EvConvertLP bfloat16] /\
   cast_precision E precision m0 = convert_weights_to_lp E m0 bfloat16) /\
  (precision <> "fp16" -> precision <> "bf16" ->
   lp_events precision = [] /\ cast_precision E precision m0 = m0).
Proof.
  unfold lp_events, cast_precision. repeat split; try (subst; reflexivity).
  - destruct (String.eqb_spec precision "fp16"); [congruence|].
    destruct (String.eqb_spec precision "bf16"); [congruence|]. reflexivity.
  - destruct (String.eqb_spec precision "fp16"); [congruence|].
    destruct (String.eqb_spec precision "bf16"); [congruence|]. reflexivity.
Qed.

(** C6. Away from the pure-OpenAI path, the weights of the model that was
    moved to the device are converted to float16 when [precision] is
    'fp16', to bfloat16 when it is 'bf16', and are not converted for any
    other value; the conversion is the call that follows [model.to], and
    nothing before it converts. *)
Theorem create_model_precision_cast E model_name pretrained precision device jit
    force_quick_gelu force_custom_text force_patch_dropout pretrained_image
    pretrained_hf cache_dir w m w' :
  create_model E model_name pretrained precision device jit force_quick_gelu
    force_custom_text force_patch_dropout pretrained_image pretrained_hf
    cache_dir w = (Ok m, w') ->
  (forall m0,
     (precision = "fp16" ->
      lp_events precision = [EvConvertLP float16] /\
      cast_precision E precision m0 = convert_weights_to_lp E m0 float16) /\
     (precision = "bf16" ->
      lp_events precision = [EvConvertLP bfloat16] /\
      cast_precision E precision m0 = convert_weights_to_lp E m0 bfloat16) /\
     (precision <> "fp16" -> precision <> "bf16" ->
      lp_events precision = [] /\ cast_precision E precision m0 = m0)) /\
  exists model_name' model_cfg custom_text which_pretrained_image_tower w1,
    load_and_prepare_cfg E (VStr (normalize_name model_name)) force_quick_gelu
      force_patch_dropout pretrained_image force_custom_text pretrained_hf w
    = (Ok (model_name', model_cfg, custom_text, which_pretrained_image_tower), w1) /\
    (is_pure_openai pretrained (extract_tower which_pretrained_image_tower) = false ->
     exists before m1 mean std,
       Forall (fun e => is_convert_event e = false) before /\
       w_trace w'
       = w_trace w ++ before ++ [EvToDevice] ++ lp_events precision ++ jit_events jit /\
       let dev := match device with inl s => torch_device E s | inr d => d end in
       let cast := cast_precision E precision (model_to E m1 dev) in
       m = if jit
           then torch_jit_script E (set_image_stats E cast mean std)
           else set_image_stats E cast mean std).
Proof.
  intros H. split; [intros m0; apply lp_events_cases|].
  pose proof H as H0. unfold create_model in H0.
  fold (normalize_name model_name) in H0.
  apply st_bind_inv in H0 as ([[[mn cfg] ct] wt] & w1 & H1 & _).
  destruct (load_and_prepare_cfg_trace _ _ _ _ _ _ _ _ _ _ H1) as (cfgs & Htr & Hcfgs).
  exists mn, cfg, ct, wt, w1. split; [exact H1|]. intros Hpure.
  destruct (create_model_run _ _ _ _ _ _ _ _ _ _ _ _ _ _ _ _ _ _ _ _ H1 H)
    as [(Hp & _)|(_ & loads & Hl & -> & m1 & mean & std & _ & Hm)]; [congruence|].
  exists ((EvGetModelConfig (VStr (normalize_name model_name)) true :: cfgs)
          ++ (if extract_tower wt then [EvLoadOpenAI mn precision jit] else [])
          ++ [EvConstruct ct] ++ loads), m1, mean, std.
  split; [|split; [|exact Hm]].
  - repeat apply Forall_app_2.
    + constructor; [reflexivity|]. eapply Forall_impl; [exact Hcfgs|].
      now intros [] He.
    + destruct (extract_tower wt); now repeat constructor.
    + now repeat constructor.
    + eapply Forall_impl; [exact Hl|]. now intros [] He.
  - unfold after. simpl. rewrite Htr. now rewrite <- !app_assoc.
Qed.

Lemma truthy_str s w : Py.truthy (VStr s) w = (Ok (negb (String.eqb s "")), w).
Proof. reflexivity. Qed.

(** C5, as the code has it. With no image tower in play and a prepared
    configuration that can be instantiated (it has no 'cast_dtype' key,
    which would be a keyword given twice: then the instantiation raises
    [TypeError]), a [pretrained] that is non-empty, is not 'openai' in any
    letter case, names no pretrained configuration of the resolved model
    and is not an existing path makes [create_model] raise, after it has
    constructed the network, a [RuntimeError] whose message lists the
    model's pretrained tags.  [create_model_from_pretrained] raises its own
    [RuntimeError] before anything else happens whenever [is_pretrained_cfg]
    rejects the pair and [pretrained] is not an existing path, whatever
    [pretrained] spells. *)
Theorem create_model_unknown_pretrained E p :
  (forall model_name precision device jit force_quick_gelu force_custom_text
          force_patch_dropout pretrained_image pretrained_hf cache_dir w
          model_name' model_cfg custom_text w1,
     load_and_prepare_cfg E (VStr (normalize_name model_name)) force_quick_gelu
       force_patch_dropout pretrained_image force_custom_text pretrained_hf w
     = (Ok (model_name', model_cfg, custom_text, VNone), w1) ->
     p <> "" ->
     PyStr.lower p <> "openai" ->
     get_pretrained_cfg E model_name' (VStr p) = [] ->
     os_path_exists E (VStr p) = false ->
     exists kw,
       Py.kwargs model_cfg w1 = (Ok kw, w1) /\
       create_model E model_name (Some p) precision device jit force_quick_gelu
         force_custom_text force_patch_dropout pretrained_image pretrained_hf
         cache_dir w
       = if PyDict.mem kw "cast_dtype"
         then (Raise TypeError, w1)
         else (Raise (RuntimeError
                 ("Pretrained weights (" +:+ p +:+ ") not found for model "
                  +:+ fmt E model_name' +:+ ".Available pretrained tags ("
                  +:+ format_str_list E (list_pretrained_tags_by_model E model_name')
                  +:+ ".")),
               after w1 [EvConstruct custom_text])) /\
  (forall model_name precision device jit force_quick_gelu force_custom_text
          return_transform image_mean image_std cache_dir w,
     is_pretrained_cfg E model_name p = false ->
     os_path_exists E (VStr p) = false ->
     create_model_from_pretrained E model_name p precision device jit
       force_quick_gelu force_custom_text return_transform image_mean image_std
       cache_dir w
     = (Raise (RuntimeError
          (p +:+ " is not a valid pretrained cfg or checkpoint for "
           +:+ model_name +:+ "."
           +:+ " Use open_clip.list_pretrained() to find one.")),
        w)).
Proof.
  split.
  - intros model_name precision device jit force_quick_gelu force_custom_text
      force_patch_dropout pretrained_image pretrained_hf cache_dir w model_name'
      model_cfg custom_text w1 H1 Hne Hno Htag Hpath.
    destruct (load_and_prepare_cfg_dict _ _ _ _ _ _ _ _ _ _ _ _ _ H1) as (r & d & -> & Hr).
    exists d. split; [simpl; now rewrite read_eq, Hr|].
    unfold create_model. fold (normalize_name model_name).
    rewrite (st_bind_ok _ _ _ _ _ H1). cbv beta iota.
    apply String.eqb_neq in Hne, Hno.
    rewrite (st_bind_ok _ _ _ false w1) by reflexivity.
    cbv beta zeta. unfold Py.of_opt_str. simpl negb. rewrite Hne, Hno. simpl andb. simpl orb.
    cbv iota.
    rewrite (st_bind_ok _ _ _ (None, None) w1) by reflexivity. cbv beta iota. simpl negb.
    cbv iota.
    destruct (PyDict.mem d "cast_dtype") eqn:Hdup; apply st_bind_raise;
      erewrite st_bind_ok by (simpl; rewrite read_eq, Hr; reflexivity);
      rewrite Hdup; [reflexivity|].
    erewrite st_bind_ok by reflexivity.
    erewrite st_bind_ok by reflexivity.
    erewrite st_bind_ok by apply emit_after.
    erewrite st_bind_ok by apply truthy_str.
    rewrite Hne. simpl negb. simpl andb. cbv iota. rewrite Htag, Hpath.
    erewrite st_bind_ok by reflexivity. cbv beta iota.
    erewrite st_bind_ok by reflexivity. simpl orb. cbv iota.
    apply st_bind_raise.
    erewrite st_bind_ok by apply truthy_str.
    rewrite Hne. reflexivity.
  - intros model_name precision device jit force_quick_gelu force_custom_text
      return_transform image_mean image_std cache_dir w Hcfg Hpath.
    unfold create_model_from_pretrained. rewrite Hcfg, Hpath. reflexivity.
Qed.

(** ** Dictionaries built from items *)

Lemma dict_get_set {V} (d : list (string * V)) k v k' :
  PyDict.get (PyDict.set d k v) k'
  = if String.eqb k k' then Some v else PyDict.get d k'.
Proof.
  induction d as [|[k1 v1] d IH]; simpl.
  - reflexivity.
  - destruct (String.eqb_spec k1 k) as [->|Hne]; simpl.
    + now destruct (String.eqb k k').
    + destruct (String.eqb_spec k1 k') as [->|Hne'].
      * destruct (String.eqb_spec k k'); [congruence|reflexivity].
      * exact IH.
Qed.

Lemma dict_get_app {V} (d d' : list (string * V)) k :
  PyDict.get (d ++ d') k
  = match PyDict.get d k with
    | Some v => Some v
    | None => PyDict.get d' k
    end.
Proof.
  induction d as [|[k1 v1] d IH]; simpl; [reflexivity|].
  destruct (String.eqb k1 k); [reflexivity|exact IH].
Qed.

Lemma dict_get_foldl_set {V} (l acc : list (string * V)) k :
  PyDict.get (foldl (fun d kv => PyDict.set d kv.1 kv.2) acc l) k
  = match PyDict.get (rev l) k with
    | Some v => Some v
    | None => PyDict.get acc k
    end.
Proof.
  revert acc. induction l as [|[k1 v1] l IH]; intros acc; simpl; [reflexivity|].
  rewrite IH, dict_get_set, dict_get_app. simpl.
  destruct (PyDict.get (rev l) k); [reflexivity|].
  now destruct (String.eqb k1 k).
Qed.

(** A key of [dict(items)] holds the value of the last item with that key. *)
Lemma dict_get_of_items {V} (l : list (string * V)) k :
  PyDict.get (PyDict.of_items l) k = PyDict.get (rev l) k.
Proof.
  unfold PyDict.of_items. rewrite dict_get_foldl_set. simpl.
  now destruct (PyDict.get (rev l) k).
Qed.

Lemma dict_set_fresh {V} (d : list (string * V)) k v :
  PyDict.get d k = None -> PyDict.set d k v = d ++ [(k, v)].
Proof.
  induction d as [|[k1 v1] d IH]; simpl; [reflexivity|].
  destruct (String.eqb k1 k); [discriminate|]. intros H. now rewrite IH.
Qed.

Lemma dict_get_None {V} (d : list (string * V)) k :
  k ∉ map fst d -> PyDict.get d k = None.
Proof.
  induction d as [|[k1 v1] d IH]; simpl; [reflexivity|]. intros H.
  apply not_elem_of_cons in H as [Hne Hd].
  destruct (String.eqb_spec k1 k); [congruence|]. now apply IH.
Qed.

(** Items with pairwise distinct keys are kept as they are. *)
Lemma dict_of_items_NoDup {V} (l : list (string * V)) :
  NoDup (map fst l) -> PyDict.of_items l = l.
Proof.
  unfold PyDict.of_items.
  enough (forall acc, NoDup (map fst (acc ++ l)) ->
            foldl (fun d kv => PyDict.set d kv.1 kv.2) acc l = acc ++ l) as H
    by (intros Hnd; now apply (H [])).
  induction l as [|[k v] l IH]; intros acc Hnd; simpl.
  - now rewrite app_nil_r.
  - rewrite dict_set_fresh.
    + rewrite IH; rewrite <- app_assoc; [reflexivity|exact Hnd].
    + apply dict_get_None. rewrite map_app in Hnd. simpl in Hnd.
      apply NoDup_app in Hnd as (_ & Hdis & _). intros Hin.
      apply (Hdis k Hin). now left.
Qed.

(** ** Checkpoints *)

(** C4, as the code has it. [load_state_dict] selects
    [checkpoint['state_dict']] when the loaded object is a dictionary with
    that key and the loaded object otherwise. When the selected dictionary
    is not empty it is returned as it is unless its first key starts with
    'module'; then the result is the dictionary built from the items with
    the first 7 characters of every key removed, where a later item
    replaces an earlier one with the same shortened key (so every shortened
    key maps to the value it had when the shortened keys are pairwise
    distinct). On an empty dictionary [StopIteration] is raised. *)
Theorem load_state_dict_selects_and_strips E path w :
  let checkpoint := torch_load E path in
  let state_dict := select_state_dict checkpoint in
  let w' := after w [EvTorchLoad path] in
  (forall items,
     checkpoint = CDict items ->
     state_dict = match PyDict.get items "state_dict" with
                  | Some sd => sd
                  | None => checkpoint
                  end) /\
  ((forall items, checkpoint <> CDict items) -> state_dict = checkpoint) /\
  (forall k0 v0 rest,
     state_dict = CDict ((k0, v0) :: rest) ->
     let items := (k0, v0) :: rest in
     let stripped := map (fun kv => (PyStr.drop 7 kv.1, kv.2)) items in
     (PyStr.startswith k0 "module" = false ->
      load_state_dict E path w = (Ok items, w')) /\
     (PyStr.startswith k0 "module" = true ->
      load_state_dict E path w = (Ok (PyDict.of_items stripped), w') /\
      (forall k, PyDict.get (PyDict.of_items stripped) k = PyDict.get (rev stripped) k) /\
      (NoDup (map fst stripped) -> PyDict.of_items stripped = stripped))) /\
  (state_dict = CDict [] ->
   load_state_dict E path w = (Raise StopIteration, w')).
Proof.
  intros checkpoint state_dict w'. repeat split.
  - intros items H. unfold state_dict. now rewrite H.
  - intros H. unfold state_dict, select_state_dict.
    destruct checkpoint as [|items|]; try reflexivity. now destruct (H items).
  - intros Hm. unfold load_state_dict, st_bind. rewrite emit_after.
    fold checkpoint. fold state_dict. rewrite H. now rewrite Hm.
  - unfold load_state_dict, st_bind. rewrite emit_after.
    fold checkpoint. fold state_dict. rewrite H. now rewrite H0.
  - intros k. apply dict_get_of_items.
  - apply dict_of_items_NoDup.
  - intros H. unfold load_state_dict, st_bind. rewrite emit_after.
    fold checkpoint. fold state_dict. now rewrite H.
Qed.

Lemma drop_visual_prefix rest : PyStr.drop 7 ("visual." +:+ rest) = rest.
Proof. reflexivity. Qed.

(** C3, as the code has it. Called for an image tower
    ([which_pretrained_image_tower] not [None], no ready-made tower), with
    a checkpoint that [load_state_dict] accepts, [load_checkpoint] keeps the
    items of the state dict (after the old-format conversion and the
    resizing of the positional embedding) whose key starts with 'visual',
    removes the first 7 characters of each key (the 'visual.' prefix, where
    the key has it), collects them with [dict()], a later item replacing an
    earlier one with the same shortened key, and passes the result to
    [model.visual.load_state_dict]; of the model only [visual] changes. *)
Theorem load_checkpoint_image_tower E m checkpoint_path strict
    which_pretrained_image_tower w state_dict w1 v :
  which_pretrained_image_tower <> VNone ->
  load_state_dict E checkpoint_path w = (Ok state_dict, w1) ->
  visual m = Some v ->
  let converted :=
    if PyDict.mem state_dict "positional_embedding"
       && negb (has_positional_embedding E m)
    then convert_to_custom_text_state_dict E state_dict
    else state_dict in
  let resized := resize_pos_embed E converted m in
  let items :=
    map (fun i => (PyStr.drop 7 i.1, i.2))
        (List.filter (fun i => PyStr.startswith i.1 "visual") resized) in
  let loaded := visual_load_state_dict E v (PyDict.of_items items) strict in
  load_checkpoint E m checkpoint_path strict which_pretrained_image_tower None w
  = (Ok (Some loaded.1, {| visual := Some loaded.2; m_body := m_body m |}),
     after w [EvTorchLoad checkpoint_path; EvLoadStateDict true strict]) /\
  (forall k, PyDict.get (PyDict.of_items items) k = PyDict.get (rev items) k) /\
  (NoDup (map fst items) -> PyDict.of_items items = items) /\
  (forall rest, PyStr.drop 7 ("visual." +:+ rest) = rest).
Proof.
  intros Hwhich Hsd Hvis converted resized items loaded.
  split; [|split; [apply dict_get_of_items|split; [apply dict_of_items_NoDup|reflexivity]]].
  pose proof (load_state_dict_world E checkpoint_path w) as Hw.
  rewrite Hsd in Hw. simpl in Hw. subst w1.
  unfold load_checkpoint. rewrite (st_bind_ok _ _ _ _ _ Hsd).
  fold converted. fold resized.
  assert (Hgoal :
    (let* v0 := get_visual E m in
     emit (EvLoadStateDict true strict) ;;
     (let '(incompatible_keys, v') :=
        visual_load_state_dict E v0 (PyDict.of_items items) strict in
      st_ret (Some incompatible_keys, set_visual E m v')))
      (after w [EvTorchLoad checkpoint_path])
    = (Ok (Some loaded.1, {| visual := Some loaded.2; m_body := m_body m |}),
       after w [EvTorchLoad checkpoint_path; EvLoadStateDict true strict])).
  { unfold st_bind, get_visual. rewrite Hvis. simpl.
    unfold loaded. destruct (visual_load_state_dict E v (PyDict.of_items items) strict).
    simpl. now rewrite after_after. }
  destruct which_pretrained_image_tower; try exact Hgoal. congruence.
Qed.

(** ** Transforms *)

Lemma or_visual_attr_eq E given attr m w :
  or_visual_attr E given attr m w
  = match given with
    | Some (x :: t) => (Ok (VList (x :: t)), w)
    | _ => match visual m with
           | Some v => (Ok (default VNone (attr v)), w)
           | None => (Raise AttributeError, w)
           end
    end.
Proof.
  unfold or_visual_attr, get_visual, st_bind.
  destruct given as [[|x t]|]; try reflexivity; now destruct (visual m).
Qed.

Lemma chosen_stat_eq given attr :
  chosen_stat given attr
  = match given with
    | Some (x :: t) => VList (x :: t)
    | _ => default VNone attr
    end.
Proof. now destruct given as [[|x t]|]. Qed.

(** C7, as the code has it. A successful [create_model_and_transforms]
    returns the model of [create_model] and two transforms built from the
    same [model.visual.image_size], the same mean and the same std, with
    [is_train] true for the first and false for the second; the mean (and
    likewise the std) is the caller's when that is a non-empty tuple, and
    [model.visual.image_mean] (or [None]) otherwise. *)
Theorem create_model_and_transforms_same_stats E model_name pretrained precision
    device jit force_quick_gelu force_custom_text force_patch_dropout
    pretrained_image pretrained_hf image_mean image_std cache_dir w
    m preprocess_train preprocess_val w' :
  create_model_and_transforms E model_name pretrained precision device jit
    force_quick_gelu force_custom_text force_patch_dropout pretrained_image
    pretrained_hf image_mean image_std cache_dir w
  = (Ok (m, preprocess_train, preprocess_val), w') ->
  exists v w1,
    create_model E model_name pretrained precision device jit force_quick_gelu
      force_custom_text force_patch_dropout pretrained_image pretrained_hf
      cache_dir w = (Ok m, w1) /\
    visual m = Some v /\
    let mean := chosen_stat image_mean (v_image_mean v) in
    let std := chosen_stat image_std (v_image_std v) in
    preprocess_train = image_transform E (v_image_size v) true mean std /\
    preprocess_val = image_transform E (v_image_size v) false mean std /\
    w' = after w1 [EvImageTransform true; EvImageTransform false].
Proof.
  intros H. unfold create_model_and_transforms in H.
  apply st_bind_inv in H as (m0 & w1 & Hm & H).
  apply st_bind_inv in H as (mean & w2 & Hmean & H).
  apply st_bind_inv in H as (std & w3 & Hstd & H).
  apply st_bind_inv in H as (v & w4 & Hv & H).
  unfold get_visual in Hv. destruct (visual m0) as [v0|] eqn:Hvis; [|discriminate].
  inversion Hv; subst v0 w4; clear Hv.
  rewrite or_visual_attr_eq, Hvis in Hmean. rewrite or_visual_attr_eq, Hvis in Hstd.
  assert (Hm2 : mean = chosen_stat image_mean (v_image_mean v) /\ w2 = w1).
  { rewrite chosen_stat_eq. destruct image_mean as [[|x t]|]; now inversion Hmean. }
  destruct Hm2 as [-> ->].
  assert (Hs2 : std = chosen_stat image_std (v_image_std v) /\ w3 = w1).
  { rewrite chosen_stat_eq. destruct image_std as [[|x t]|]; now inversion Hstd. }
  destruct Hs2 as [-> ->].
  unfold st_bind, get_visual in H. simpl in H. rewrite Hvis in H. simpl in H.
  rewrite after_after in H. inversion H; subst. exists v, w1. repeat split; assumption.
Qed.

(** ** Natural sort keys *)

Lemma is_digit_lower_char c : is_digit (PyStr.lower_char c) = is_digit c.
Proof. destruct c as [[] [] [] [] [] [] [] []]; reflexivity. Qed.

Lemma lower_char_digit c : is_digit c = true -> PyStr.lower_char c = c.
Proof. destruct c as [[] [] [] [] [] [] [] []]; (reflexivity || discriminate). Qed.

Lemma lower_app s t : PyStr.lower (s +:+ t) = PyStr.lower s +:+ PyStr.lower t.
Proof. induction s as [|c s IH]; simpl; [reflexivity|]. now rewrite IH. Qed.

Lemma lower_digits s : all_digits s = true -> PyStr.lower s = s.
Proof.
  induction s as [|c s IH]; simpl; [reflexivity|]. intros H.
  apply andb_true_iff in H as [Hc Hs]. now rewrite lower_char_digit, IH.
Qed.

Lemma trailing_digit_lower s : trailing_digit (PyStr.lower s) = trailing_digit s.
Proof.
  induction s as [|c s IH]; [reflexivity|]. destruct s as [|c' s].
  - simpl. apply is_digit_lower_char.
  - exact IH.
Qed.

Lemma leading_digit_lower s : leading_digit (PyStr.lower s) = leading_digit s.
Proof. destruct s; [reflexivity|]. simpl. apply is_digit_lower_char. Qed.

Lemma isdigit_all_digits s : isdigit s = true -> all_digits s = true.
Proof. now destruct s. Qed.

Lemma no_digits_snoc s c :
  no_digits s = true -> is_digit c = false -> no_digits (s +:+ String c "") = true.
Proof.
  induction s as [|c' s IH]; simpl; intros Hs Hc.
  - now rewrite Hc.
  - apply andb_true_iff in Hs as [-> Hs]. now apply IH.
Qed.

Lemma all_digits_snoc s c :
  all_digits s = true -> is_digit c = true -> all_digits (s +:+ String c "") = true.
Proof.
  induction s as [|c' s IH]; simpl; intros Hs Hc.
  - now rewrite Hc.
  - apply andb_true_iff in Hs as [-> Hs]. now apply IH.
Qed.

Lemma isdigit_snoc s c :
  isdigit s = true -> is_digit c = true -> isdigit (s +:+ String c "") = true.
Proof.
  destruct s as [|c' s]; [discriminate|]. intros Hs Hc.
  change (all_digits (String c' s +:+ String c "") = true). now apply all_digits_snoc.
Qed.

Lemma no_digits_isdigit s : no_digits s = true -> isdigit s = false.
Proof.
  destruct s as [|c s]; [reflexivity|]. simpl. intros H.
  apply andb_true_iff in H as [Hc _]. apply negb_true_iff in Hc. now rewrite Hc.
Qed.

Lemma split_digits_alternates s : forall (in_digits : bool) (cur : string),
  (if in_digits then isdigit cur else no_digits cur) = true ->
  alternates in_digits (split_digits in_digits cur s) = true.
Proof.
  induction s as [|c s IH]; intros b cur Hcur.
  - destruct b; simpl.
    + now rewrite Hcur.
    + now rewrite (no_digits_isdigit _ Hcur).
  - simpl. destruct (is_digit c) eqn:Hc, b.
    + apply IH. now apply isdigit_snoc.
    + simpl. rewrite (no_digits_isdigit _ Hcur). simpl. apply (IH true). simpl. now rewrite Hc.
    + simpl. rewrite Hcur. simpl. apply (IH false). simpl. now rewrite Hc.
    + apply IH. now apply no_digits_snoc.
Qed.

Lemma natural_key_shape s : key_shape false (_natural_key s) = true.
Proof.
  unfold _natural_key, re_split_digits.
  pose proof (split_digits_alternates (PyStr.lower s) false "" eq_refl) as H.
  revert H. generalize (split_digits false "" (PyStr.lower s)). generalize false.
  intros b l. revert b. induction l as [|x l IH]; intros b H; [reflexivity|].
  simpl in H. apply andb_true_iff in H as [Hx Hl]. apply Bool.eqb_prop in Hx.
  simpl. rewrite Hx. destruct b; simpl; now apply IH.
Qed.

Lemma list_lt_shaped a : forall b ints,
  key_shape ints a = true -> key_shape ints b = true ->
  exists r, list_lt a b = Ok r.
Proof.
  induction a as [|x a IH]; intros [|y b] ints Ha Hb; simpl; eauto.
  destruct x, y, ints; simpl in *; try discriminate.
  - destruct (n =? n0)%N; eauto.
  - destruct (String.eqb s s0); eauto.
Qed.

Lemma natural_key_lt_total a b :
  exists r, list_lt (_natural_key a) (_natural_key b) = Ok r.
Proof. eapply list_lt_shaped; apply natural_key_shape. Qed.

Lemma insert_sorted_total {A} (key : A -> list key_part) x l :
  (forall a b, exists r, list_lt (key a) (key b) = Ok r) ->
  exists l', insert_sorted key x l = Ok l'.
Proof.
  intros Hk. induction l as [|y l [l' IH]]; simpl; [eauto|].
  destruct (Hk y x) as [[] ->]; [|eauto]. rewrite IH. eauto.
Qed.

Lemma sorted_total {A} (key : A -> list key_part) l :
  (forall a b, exists r, list_lt (key a) (key b) = Ok r) ->
  exists l', sorted key l = Ok l'.
Proof.
  intros Hk. induction l as [|x l [s IH]]; simpl; [eauto|].
  rewrite IH. now apply insert_sorted_total.
Qed.

(** X1. The natural keys of two names can always be compared: at every
    position both hold a [str] or both hold an [int], so [<] never raises
    [TypeError], and sorting names by their natural keys always returns. *)
Theorem natural_keys_comparable :
  (forall a b, exists r, list_lt (_natural_key a) (_natural_key b) = Ok r) /\
  (forall names, exists names', sorted _natural_key names = Ok names').
Proof.
  split; [apply natural_key_lt_total|].
  intros names. apply sorted_total, natural_key_lt_total.
Qed.

(** *** Numbers inside names *)

Lemma split_digits_text p : forall (in_digits : bool) (cur : string),
  trailing_digit p = false -> (p = "" -> in_digits = false) ->
  exists pre cur', forall s,
    split_digits in_digits cur (p +:+ s) = pre ++ split_digits false cur' s.
Proof.
  induction p as [|c p IH]; intros b cur Ht Hb.
  - rewrite (Hb eq_refl). exists [], cur. reflexivity.
  - destruct p as [|c' p].
    + simpl in Ht. destruct b.
      * exists [cur], (String c ""). intros s. simpl. now rewrite Ht.
      * exists [], (cur +:+ String c ""). intros s. simpl. now rewrite Ht.
    + change (trailing_digit (String c' p) = false) in Ht.
      destruct (is_digit c) eqn:Hc, b.
      * destruct (IH true (cur +:+ String c "") Ht) as (pre & cur' & H); [discriminate|].
        exists pre, cur'. intros s.
        change (String c (String c' p) +:+ s) with (String c (String c' p +:+ s)).
        cbn [split_digits]. rewrite Hc. apply H.
      * destruct (IH true (String c "") Ht) as (pre & cur' & H); [discriminate|].
        exists (cur :: pre), cur'. intros s.
        change (String c (String c' p) +:+ s) with (String c (String c' p +:+ s)).
        cbn [split_digits]. rewrite Hc. now rewrite H.
      * destruct (IH false (String c "") Ht) as (pre & cur' & H); [discriminate|].
        exists (cur :: pre), cur'. intros s.
        change (String c (String c' p) +:+ s) with (String c (String c' p +:+ s)).
        cbn [split_digits]. rewrite Hc. now rewrite H.
      * destruct (IH false (cur +:+ String c "") Ht) as (pre & cur' & H); [discriminate|].
        exists pre, cur'. intros s.
        change (String c (String c' p) +:+ s) with (String c (String c' p +:+ s)).
        cbn [split_digits]. rewrite Hc. apply H.
Qed.

Lemma append_snoc cur c a : (cur +:+ String c "") +:+ a = cur +:+ String c a.
Proof.
  induction cur as [|c' cur IH]; [reflexivity|].
  change ((String c' cur +:+ String c "") +:+ a)
    with (String c' ((cur +:+ String c "") +:+ a)).
  now rewrite IH.
Qed.

Lemma append_nil_r s : s +:+ "" = s.
Proof.
  induction s as [|c s IH]; [reflexivity|].
  change (String c s +:+ "") with (String c (s +:+ "")). now rewrite IH.
Qed.

Lemma split_digits_run a : forall cur r,
  all_digits a = true -> leading_digit r = false ->
  split_digits true cur (a +:+ r) = (cur +:+ a) :: split_digits false "" r.
Proof.
  induction a as [|c a IH]; intros cur r Ha Hr.
  - change ("" +:+ r) with r. rewrite append_nil_r.
    destruct r as [|c r]; [reflexivity|]. simpl in Hr. cbn [split_digits]. now rewrite Hr.
  - simpl in Ha. apply andb_true_iff in Ha as [Hc Ha].
    change (String c a +:+ r) with (String c (a +:+ r)). cbn [split_digits].
    rewrite Hc. rewrite IH by assumption. now rewrite append_snoc.
Qed.

Lemma natural_key_number p :
  trailing_digit p = false ->
  exists pre, forall a' r',
    isdigit a' = true -> leading_digit r' = false ->
    exists tail,
      _natural_key (p +:+ a' +:+ r') = pre ++ KInt (int_digits 0 a') :: tail.
Proof.
  intros Hp.
  destruct (split_digits_text (PyStr.lower p) false "") as (pre & cur' & H);
    [now rewrite trailing_digit_lower|reflexivity|].
  exists (map (fun s => if isdigit s then KInt (int_digits 0 s) else KStr s)
              (pre ++ [cur'])).
  intros a' r' Ha' Hr'. unfold _natural_key, re_split_digits.
  rewrite !lower_app, (lower_digits a') by now apply isdigit_all_digits.
  rewrite H. destruct a' as [|c a']; [discriminate|].
  simpl in Ha'. apply andb_true_iff in Ha' as [Hc Ha'].
  change (String c a' +:+ PyStr.lower r') with (String c (a' +:+ PyStr.lower r')).
  cbn [split_digits]. rewrite Hc.
  rewrite split_digits_run by (try assumption; now rewrite leading_digit_lower).
  change (String c "" +:+ a') with (String c a').
  assert (Hd : isdigit (String c a') = true) by (simpl; now rewrite Hc, Ha').
  eexists. rewrite !map_app. cbn [map]. rewrite Hd, <- app_assoc. reflexivity.
Qed.

Lemma part_eqb_refl x : part_eqb x x = true.
Proof. destruct x; simpl; [apply N.eqb_refl|apply String.eqb_refl]. Qed.

Lemma list_lt_common pre n m t1 t2 :
  (n < m)%N -> list_lt (pre ++ KInt n :: t1) (pre ++ KInt m :: t2) = Ok true.
Proof.
  intros Hnm. induction pre as [|x pre IH]; simpl.
  - destruct (N.eqb_spec n m); [lia|]. f_equal. now apply N.ltb_lt.
  - now rewrite part_eqb_refl.
Qed.

(** X2. Numbers inside names are ordered by value, not digit by digit:
    two names that agree up to a run of digits are ordered by the numbers
    the runs spell, whatever follows them. *)
Theorem natural_key_orders_numbers p a b r1 r2 :
  trailing_digit p = false ->
  isdigit a = true -> isdigit b = true ->
  leading_digit r1 = false -> leading_digit r2 = false ->
  (int_digits 0 a < int_digits 0 b)%N ->
  list_lt (_natural_key (p +:+ a +:+ r1)) (_natural_key (p +:+ b +:+ r2)) = Ok true.
Proof.
  intros Hp Ha Hb Hr1 Hr2 Hlt.
  destruct (natural_key_number p Hp) as (pre & H).
  destruct (H a r1 Ha Hr1) as (t1 & ->). destruct (H b r2 Hb Hr2) as (t2 & ->).
  now apply list_lt_common.
Qed.

(** ** The order of natural keys *)

Lemma ascii_compare_refl a : (a ?= a)%char = Eq.
Proof. unfold Ascii.compare. apply N.compare_refl. Qed.

Lemma string_compare_refl s : String.compare s s = Eq.
Proof. induction s as [|c s IH]; simpl; [reflexivity|]. now rewrite ascii_compare_refl. Qed.

Lemma string_compare_trans a : forall b c,
  String.compare a b = Lt -> String.compare b c = Lt -> String.compare a c = Lt.
Proof.
  induction a as [|x a IH]; intros [|y b] [|z c]; simpl; try easy.
  destruct (x ?= y)%char eqn:Hxy, (y ?= z)%char eqn:Hyz; try discriminate.
  - apply Ascii.compare_eq_iff in Hxy as ->. apply Ascii.compare_eq_iff in Hyz as ->.
    rewrite ascii_compare_refl. apply IH.
  - apply Ascii.compare_eq_iff in Hxy as ->. now rewrite Hyz.
  - apply Ascii.compare_eq_iff in Hyz as <-. now rewrite Hxy.
  - unfold Ascii.compare in *. rewrite N.compare_lt_iff in *.
    replace (N_of_ascii x ?= N_of_ascii z)%N with Lt; [reflexivity|].
    symmetry. apply N.compare_lt_iff. lia.
Qed.

Lemma part_cmp_eq x y : part_cmp x y = Eq -> x = y.
Proof.
  destruct x, y; simpl; try discriminate.
  - intros H. apply N.compare_eq_iff in H. now subst.
  - intros H. apply String.compare_eq_iff in H. now subst.
Qed.

Lemma part_cmp_refl x : part_cmp x x = Eq.
Proof. destruct x; simpl; [apply N.compare_refl|apply string_compare_refl]. Qed.

Lemma part_cmp_antisym x y : part_cmp y x = CompOpp (part_cmp x y).
Proof.
  destruct x, y; simpl; try reflexivity.
  - apply N.compare_antisym.
  - apply String.compare_antisym.
Qed.

Lemma part_cmp_trans x y z :
  part_cmp x y = Lt -> part_cmp y z = Lt -> part_cmp x z = Lt.
Proof.
  destruct x, y, z; simpl; try easy.
  - rewrite !N.compare_lt_iff. lia.
  - apply string_compare_trans.
Qed.

Lemma list_cmp_antisym a : forall b, list_cmp b a = CompOpp (list_cmp a b).
Proof.
  induction a as [|x a IH]; intros [|y b]; simpl; try reflexivity.
  rewrite (part_cmp_antisym x y). destruct (part_cmp x y); simpl; auto.
Qed.

Lemma list_cmp_trans a : forall b c,
  list_cmp a b = Lt -> list_cmp b c = Lt -> list_cmp a c = Lt.
Proof.
  induction a as [|x a IH]; intros [|y b] [|z c]; simpl; try easy.
  destruct (part_cmp x y) eqn:Hxy, (part_cmp y z) eqn:Hyz; try discriminate.
  - apply part_cmp_eq in Hxy as ->. apply part_cmp_eq in Hyz as ->.
    rewrite part_cmp_refl. apply IH.
  - apply part_cmp_eq in Hxy as ->. now rewrite Hyz.
  - apply part_cmp_eq in Hyz as <-. now rewrite Hxy.
  - now rewrite (part_cmp_trans _ _ _ Hxy Hyz).
Qed.

Lemma list_cmp_eq a : forall b, list_cmp a b = Eq -> a = b.
Proof.
  induction a as [|x a IH]; intros [|y b]; simpl; try easy.
  destruct (part_cmp x y) eqn:Hxy; try discriminate.
  apply part_cmp_eq in Hxy as ->. intros H. now rewrite (IH _ H).
Qed.

(** Not greater is transitive. *)
Lemma list_cmp_le_trans a b c :
  list_cmp a b <> Gt -> list_cmp b c <> Gt -> list_cmp a c <> Gt.
Proof.
  intros Hab Hbc Hac.
  destruct (list_cmp a b) eqn:H1; [|clear Hab|congruence].
  - apply list_cmp_eq in H1 as ->. contradiction.
  - destruct (list_cmp b c) eqn:H2; [| |congruence].
    + apply list_cmp_eq in H2 as ->. congruence.
    + rewrite (list_cmp_trans _ _ _ H1 H2) in Hac. discriminate.
Qed.

(** On keys of the same shape, [<] is the total order. *)
Lemma list_lt_cmp a : forall b ints,
  key_shape ints a = true -> key_shape ints b = true ->
  list_lt a b = Ok (match list_cmp a b with Lt => true | _ => false end).
Proof.
  induction a as [|x a IH]; intros [|y b] ints Ha Hb; simpl; try reflexivity.
  destruct x, y, ints; simpl in *; try discriminate.
  - destruct (N.eqb_spec n n0) as [->|Hne].
    + rewrite N.compare_refl. now apply (IH _ false).
    + unfold N.ltb. destruct (n ?= n0)%N eqn:Hc; try reflexivity.
      apply N.compare_eq_iff in Hc. contradiction.
  - destruct (String.eqb_spec s s0) as [->|Hne].
    + rewrite string_compare_refl. now apply (IH _ true).
    + unfold String.ltb. destruct (String.compare s s0) eqn:Hc; try reflexivity.
      apply String.compare_eq_iff in Hc. contradiction.
Qed.

Lemma natural_lt_cmp a b :
  list_lt (_natural_key a) (_natural_key b)
  = Ok (match list_cmp (_natural_key a) (_natural_key b) with
        | Lt => true
        | _ => false
        end).
Proof. eapply list_lt_cmp; apply natural_key_shape. Qed.

Lemma natural_le_cmp a b :
  natural_le a b <-> list_cmp (_natural_key a) (_natural_key b) <> Gt.
Proof.
  unfold natural_le. rewrite natural_lt_cmp, (list_cmp_antisym (_natural_key a)).
  destruct (list_cmp (_natural_key a) (_natural_key b)); simpl; split; congruence.
Qed.

(** ** [sorted] *)

Section SortedFacts.
Context {A : Type} (key : A -> list key_part).
Hypothesis key_shaped : forall a, key_shape false (key a) = true.

Let le (a b : A) : Prop := list_cmp (key a) (key b) <> Gt.

Lemma key_lt_eq a b :
  list_lt (key a) (key b)
  = Ok (match list_cmp (key a) (key b) with Lt => true | _ => false end).
Proof. eapply list_lt_cmp; apply key_shaped. Qed.

Lemma insert_sorted_spec x l :
  exists l1 l2,
    l = l1 ++ l2 /\
    insert_sorted key x l = Ok (l1 ++ x :: l2) /\
    Forall (fun y => list_cmp (key y) (key x) = Lt) l1 /\
    match l2 with
    | [] => True
    | y :: _ => le x y
    end.
Proof.
  induction l as [|y l (l1 & l2 & -> & Hins & Hl1 & Hl2)]; simpl.
  - exists [], []. repeat split. constructor.
  - rewrite key_lt_eq. destruct (list_cmp (key y) (key x)) eqn:Hc.
    + exists [], (y :: l1 ++ l2). repeat split; [constructor|].
      unfold le. rewrite (list_cmp_antisym (key y)), Hc. discriminate.
    + rewrite Hins. exists (y :: l1), l2. repeat split; [|exact Hl2].
      now constructor.
    + exists [], (y :: l1 ++ l2). repeat split; [constructor|].
      unfold le. rewrite (list_cmp_antisym (key y)), Hc. discriminate.
Qed.

Lemma insert_sorted_perm x l l' :
  insert_sorted key x l = Ok l' -> l' ≡ₚ x :: l.
Proof.
  destruct (insert_sorted_spec x l) as (l1 & l2 & -> & -> & _). intros [= <-].
  symmetry. apply Permutation_middle.
Qed.

Lemma sorted_perm l l' : sorted key l = Ok l' -> l' ≡ₚ l.
Proof.
  revert l'. induction l as [|x l IH]; intros l'; simpl.
  - now intros [= <-].
  - destruct (sorted key l) as [s|e]; [|discriminate]. intros H.
    apply insert_sorted_perm in H. rewrite H. now rewrite (IH s).
Qed.

Lemma le_trans a b c : le a b -> le b c -> le a c.
Proof. apply list_cmp_le_trans. Qed.

Lemma insert_sorted_sorted x l l' :
  StronglySorted le l -> insert_sorted key x l = Ok l' -> StronglySorted le l'.
Proof.
  intros Hl. destruct (insert_sorted_spec x l) as (l1 & l2 & -> & -> & Hl1 & Hl2).
  intros [= <-]. induction l1 as [|y l1 IH]; simpl in *.
  - constructor; [exact Hl|]. destruct l2 as [|z l2]; [constructor|].
    apply StronglySorted_inv in Hl as [_ Hz]. constructor; [exact Hl2|].
    eapply Forall_impl; [exact Hz|]. intros c Hc. eapply le_trans; eauto.
  - apply StronglySorted_inv in Hl as [Hs Hy]. apply Forall_cons in Hl1 as [Hyx Hl1].
    constructor; [now apply IH|].
    apply Forall_app in Hy as [Hy1 Hy2]. apply Forall_app. split; [exact Hy1|].
    constructor; [|exact Hy2]. unfold le. rewrite Hyx. discriminate.
Qed.

Lemma sorted_sorted l l' : sorted key l = Ok l' -> StronglySorted le l'.
Proof.
  revert l'. induction l as [|x l IH]; intros l'; simpl.
  - intros [= <-]. constructor.
  - destruct (sorted key l) as [s|e]; [|discriminate].
    apply insert_sorted_sorted. now apply IH.
Qed.

(** A sorted list is returned as it is. *)
Lemma sorted_idem l : StronglySorted le l -> sorted key l = Ok l.
Proof.
  induction 1 as [|x l Hl IH Hx]; simpl; [reflexivity|]. rewrite IH.
  destruct l as [|y l]; [reflexivity|]. simpl. rewrite key_lt_eq.
  apply Forall_cons in Hx as [Hxy _]. unfold le in Hxy.
  rewrite (list_cmp_antisym (key x)). destruct (list_cmp (key x) (key y)); simpl; congruence.
Qed.

End SortedFacts.

(** ** Documents read from files *)

Lemma snapshot_fuel n : forall m h v t,
  n <= m -> snapshot n h v = Some t -> snapshot m h v = Some t.
Proof.
  induction n as [|n IH]; intros m h v t Hnm H; [discriminate|].
  destruct m as [|m]; [lia|]. rewrite snapshot_S in *.
  destruct v as [| | | | |vs|r]; try exact H.
  - apply fmap_Some in H as (ts & Hm & ->). apply fmap_Some. exists ts. split; [|reflexivity].
    apply mapM_Some. apply mapM_Some in Hm.
    eapply Forall2_impl; [exact Hm|]. intros x y. apply IH. lia.
  - apply bind_Some in H as (d & Hr & H). apply bind_Some. exists d. split; [exact Hr|].
    apply fmap_Some in H as (ts & Hm & ->). apply fmap_Some. exists ts. split; [|reflexivity].
    apply mapM_Some. apply mapM_Some in Hm.
    eapply Forall2_impl; [exact Hm|]. intros [k x] y. unfold snap_item. simpl.
    intros Hx. apply bind_Some in Hx as (t & Hx & [= <-]). apply bind_Some.
    exists t. split; [|reflexivity]. eapply IH; [|exact Hx]. lia.
Qed.

Lemma snap_item_fuel n m h kv kt :
  n <= m -> snap_item n h kv = Some kt -> snap_item m h kv = Some kt.
Proof.
  unfold snap_item. intros Hnm H. apply bind_Some in H as (t & Hx & [= <-]).
  apply bind_Some. exists t. split; [|reflexivity]. eapply snapshot_fuel; eauto.
Qed.

(** Loading a list of things whose loads succeed and read back. *)
Lemma st_mapM_load {A B T} (f : A -> ST heap B)
    (sn : nat -> heap -> B -> option T) (c : A -> T) :
  (forall n h e y t, sn n h y = Some t -> sn n (h ++ e) y = Some t) ->
  (forall n m h y t, n <= m -> sn n h y = Some t -> sn m h y = Some t) ->
  forall l,
  Forall (fun x => forall h, exists y e n,
            f x h = (Ok y, h ++ e) /\ sn n (h ++ e) y = Some (c x)) l ->
  forall h, exists ys e n,
    st_mapM f l h = (Ok ys, h ++ e) /\
    Forall2 (fun y x => sn n (h ++ e) y = Some (c x)) ys l.
Proof.
  intros Hheap Hfuel l. induction l as [|x l IH]; intros Hl h.
  - exists [], [], 0. rewrite app_nil_r. split; [reflexivity|constructor].
  - apply Forall_cons in Hl as [Hx Hl].
    destruct (Hx h) as (y & e1 & n1 & Hfx & Hy).
    destruct (IH Hl (h ++ e1)) as (ys & e2 & n2 & Hrest & Hys).
    exists (y :: ys), (e1 ++ e2), (n1 `max` n2). split.
    + simpl. unfold st_bind. rewrite Hfx, Hrest. now rewrite app_assoc.
    + rewrite app_assoc. constructor.
      * apply Hheap. eapply Hfuel; [|exact Hy]. lia.
      * eapply Forall2_impl; [exact Hys|]. intros b a Hb. eapply Hfuel; [|exact Hb]. lia.
Qed.

Lemma dict_set_Forall2 {V W} (R : string * V -> string * W -> Prop) d kts k v t :
  (forall a b, R a b -> a.1 = b.1) ->
  Forall2 R d kts -> R (k, v) (k, t) ->
  Forall2 R (PyDict.set d k v) (PyDict.set kts k t).
Proof.
  intros Hkey H Hkv. induction H as [|[k1 v1] [k2 t2] d kts Hx Hd IH]; simpl.
  - now constructor.
  - pose proof (Hkey _ _ Hx) as Hk. simpl in Hk. subst k2.
    destruct (String.eqb k1 k) eqn:He.
    + apply String.eqb_eq in He as ->. now constructor.
    + now constructor.
Qed.

Lemma dict_of_items_Forall2 {V W} (R : string * V -> string * W -> Prop) l l' :
  (forall a b, R a b -> a.1 = b.1) ->
  Forall2 R l l' -> Forall2 R (PyDict.of_items l) (PyDict.of_items l').
Proof.
  intros Hkey. unfold PyDict.of_items.
  enough (forall acc acc', Forall2 R acc acc' -> Forall2 R l l' ->
            Forall2 R (foldl (fun d kv => PyDict.set d kv.1 kv.2) acc l)
                      (foldl (fun d kv => PyDict.set d kv.1 kv.2) acc' l')) as H
    by (apply H; constructor).
  intros acc acc' Hacc Hl. revert acc acc' Hacc.
  induction Hl as [|[k v] [k' t] l l' Hx Hl IH]; intros acc acc' Hacc; simpl; [exact Hacc|].
  pose proof (Hkey _ _ Hx) as Hk. simpl in Hk. subst k'.
  apply IH. now apply dict_set_Forall2.
Qed.

(** [json.load] returns, and what it builds denotes the document. *)
Lemma load_json_snapshot t : forall h,
  exists v e n, load_json t h = (Ok v, h ++ e) /\
                snapshot n (h ++ e) v = Some (canon t).
Proof.
  induction t as [| | | | |ts IH|kts IH] using tree_nested_ind; intros h;
    try (eexists _, [], 1; rewrite app_nil_r; split; reflexivity).
  - destruct (st_mapM_load load_json snapshot canon) with (l := ts) (h := h)
      as (vs & e & n & Hrun & Hvs); auto.
    { intros. now apply snapshot_app. }
    { intros. eapply snapshot_fuel; eauto. }
    exists (VList vs), e, (S n). split.
    + simpl. unfold st_bind. fold load_json. now rewrite Hrun.
    + rewrite snapshot_S. apply fmap_Some. exists (map canon ts). split; [|reflexivity].
      apply mapM_Some. apply Forall2_fmap_r. exact Hvs.
  - destruct (st_mapM_load load_item snap_item canon_item) with (l := kts) (h := h)
      as (d & e & n & Hrun & Hd); auto.
    { intros. now apply snap_item_app. }
    { intros. eapply snap_item_fuel; eauto. }
    { eapply Forall_impl; [exact IH|]. intros [k t] Ht h0. simpl in Ht.
      destruct (Ht h0) as (v & e & n & Hl & Hs). exists (k, v), e, n. split.
      - unfold load_item, st_bind. simpl. now rewrite Hl.
      - unfold snap_item, canon_item. simpl. now rewrite Hs. }
    exists (VDict (List.length (h ++ e))), (e ++ [PyDict.of_items d]), (S n). split.
    + change (load_json (TDict kts))
        with (let* d := st_mapM load_item kts in
              let* r := heap_alloc (PyDict.of_items d) in st_ret (VDict r)).
      unfold st_bind. rewrite Hrun. unfold heap_alloc, st_ret. now rewrite app_assoc.
    + rewrite snapshot_S. rewrite app_assoc. apply bind_Some.
      exists (PyDict.of_items d). split.
      * rewrite lookup_app_r by lia. now rewrite Nat.sub_diag.
      * apply fmap_Some. exists (PyDict.of_items (map canon_item kts)).
        split; [|reflexivity]. apply mapM_Some.
        apply dict_of_items_Forall2.
        -- intros [k v] [k' t] Hs. unfold snap_item in Hs. simpl in *.
           apply bind_Some in Hs as (? & _ & [= -> _]). reflexivity.
        -- apply Forall2_fmap_r. eapply Forall2_impl; [exact Hd|].
           intros a b. apply snap_item_app.
Qed.

(** ** Membership tests on documents *)

Lemma dict_mem_elem {V} (d : list (string * V)) k :
  PyDict.mem d k = true <-> k ∈ map fst d.
Proof.
  unfold PyDict.mem. induction d as [|[k1 v1] d IH]; simpl.
  - split; [discriminate|]. intros H. inversion H.
  - destruct (String.eqb_spec k1 k) as [->|Hne].
    + split; [intros _; left|reflexivity].
    + rewrite IH. split; [now right|]. intros H.
      apply elem_of_cons in H as [->|H]; [congruence|exact H].
Qed.

Lemma dict_mem_same_keys {V W} (d : list (string * V)) (d' : list (string * W)) k :
  (forall x, x ∈ map fst d <-> x ∈ map fst d') -> PyDict.mem d k = PyDict.mem d' k.
Proof.
  intros H. apply eq_true_iff_eq. rewrite !dict_mem_elem. apply H.
Qed.

Lemma dict_mem_of_items {V} (l : list (string * V)) k :
  PyDict.mem (PyDict.of_items l) k = PyDict.mem l k.
Proof.
  transitivity (PyDict.mem (rev l) k).
  - unfold PyDict.mem. now rewrite dict_get_of_items.
  - apply dict_mem_same_keys. intros x. rewrite map_rev, !list_elem_of_In.
    symmetry. apply in_rev.
Qed.

Lemma tree_has_canon k t : tree_has k (canon t) = tree_has k t.
Proof.
  destruct t as [| | | | |ts|kts]; try reflexivity; simpl; f_equal.
  - induction ts as [|x ts IH]; simpl; [reflexivity|]. rewrite IH. now destruct x.
  - rewrite dict_mem_of_items. apply dict_mem_same_keys. intros x.
    now rewrite map_map.
Qed.

Lemma tree_all_in_canon keys t : tree_all_in keys (canon t) = tree_all_in keys t.
Proof.
  induction keys as [|a keys IH]; simpl; [reflexivity|]. now rewrite tree_has_canon, IH.
Qed.

(** [k in v] is decided by the document [v] denotes. *)
Lemma has_of_snapshot n w v t k :
  snapshot n (w_heap w) v = Some t ->
  Py.has k v w = match tree_has k t with
                 | Some b => (Ok b, w)
                 | None => (Raise TypeError, w)
                 end.
Proof.
  destruct n as [|n]; [discriminate|]. rewrite snapshot_S.
  destruct v as [| | | | |vs|r]; try (intros [= <-]; reflexivity).
  - intros H. apply fmap_Some in H as (ts & Hm & ->). apply mapM_Some in Hm.
    simpl. unfold st_ret. do 2 f_equal.
    induction Hm as [|x tx vs ts Hx _ IH]; simpl; [reflexivity|]. rewrite IH. f_equal.
    destruct n as [|n]; [discriminate|]. rewrite snapshot_S in Hx.
    destruct x; try (injection Hx as <-; reflexivity).
    + apply fmap_Some in Hx as (? & _ & ->). reflexivity.
    + apply bind_Some in Hx as (? & _ & Hx). apply fmap_Some in Hx as (? & _ & ->). reflexivity.
  - intros H. apply bind_Some in H as (d & Hr & H).
    apply fmap_Some in H as (kts & Hm & ->). apply mapM_Some in Hm.
    rewrite (contains_dict_eq _ _ _ _ Hr). simpl. do 2 f_equal.
    unfold PyDict.mem. pose proof (snap_items_get n (w_heap w) d kts k Hm) as Hg.
    destruct (PyDict.get kts k); [destruct Hg as (? & -> & _); reflexivity|now rewrite Hg].
Qed.

Lemma all_in_of_snapshot n w v t keys :
  snapshot n (w_heap w) v = Some t ->
  all_in keys v w = match tree_all_in keys t with
                    | Some b => (Ok b, w)
                    | None => (Raise TypeError, w)
                    end.
Proof.
  intros Hs. induction keys as [|a keys IH]; simpl; [reflexivity|].
  unfold st_bind. rewrite (has_of_snapshot _ _ _ _ a Hs).
  destruct (tree_has a t) as [[]|]; [exact IH|reflexivity|reflexivity].
Qed.

(** ** One file of the scan *)

Lemma lift_load_json t w :
  exists v e n,
    lift_heap (load_json t) w = (Ok v, with_heap w (w_heap w ++ e)) /\
    snapshot n (w_heap w ++ e) v = Some (canon t).
Proof.
  destruct (load_json_snapshot t (w_heap w)) as (v & e & n & Hl & Hs).
  exists v, e, n. split; [|exact Hs]. unfold lift_heap. now rewrite Hl.
Qed.

Lemma register_config_spec FS cf st res st' :
  register_config FS cf st = (res, st') ->
  config_paths st' = config_paths st /\
  w_heap (ms_world st) `prefix_of` w_heap (ms_world st') /\
  w_trace (ms_world st') = w_trace (ms_world st) /\
  match file_outcome FS cf with
  | inr true =>
      res = None /\
      exists t v n,
        read_json FS cf = Json t /\
        snapshot n (w_heap (ms_world st')) v = Some (canon t) /\
        w_registry (ms_world st')
        = <[path_stem FS cf := v]> (w_registry (ms_world st)) /\
        config_order st'
        = match w_registry (ms_world st) !! path_stem FS cf with
          | Some _ => config_order st
          | None => config_order st ++ [path_stem FS cf]
          end
  | other =>
      res = match other with inl e => Some e | inr _ => None end /\
      w_registry (ms_world st') = w_registry (ms_world st) /\
      config_order st' = config_order st
  end.
Proof.
  unfold register_config, file_outcome.
  destruct (read_json FS cf) as [| | | |t] eqn:Hread;
    try (intros [= <- <-]; repeat split; reflexivity).
  destruct (lift_load_json t (ms_world st)) as (v & e & n & Hl & Hs).
  unfold st_bind at 1. rewrite Hl. unfold st_bind at 1.
  rewrite (all_in_of_snapshot n (with_heap (ms_world st) (w_heap (ms_world st) ++ e))
             v (canon t) _ Hs).
  rewrite tree_all_in_canon. fold (has_config_keys t).
  destruct (has_config_keys t) as [[]|]; intros [= <- <-]; simpl;
    (split; [reflexivity|]); (split; [now exists e|]); (split; [reflexivity|]).
  - split; [reflexivity|]. exists t, v, n. repeat split. exact Hs.
  - repeat split; reflexivity.
  - repeat split; reflexivity.
Qed.

Lemma registry_insert_registered (reg : gmap string value) k v name :
  is_Some (reg !! name) -> is_Some (<[k := v]> reg !! name).
Proof.
  intros H. destruct (decide (k = name)) as [->|Hne].
  - rewrite lookup_insert_eq. eauto.
  - now rewrite lookup_insert_ne.
Qed.

Lemma register_config_consistent FS cf st res st' :
  register_config FS cf st = (res, st') -> consistent st -> consistent st'.
Proof.
  intros H [Hnd Hin]. apply register_config_spec in H as (_ & _ & _ & H).
  unfold consistent, registered in *.
  destruct (file_outcome FS cf) as [e|[]].
  - destruct H as (_ & -> & ->). now split.
  - destruct H as (_ & t & v & n & _ & _ & -> & ->).
    destruct (w_registry (ms_world st) !! path_stem FS cf) eqn:Hk.
    + split; [exact Hnd|]. intros name. rewrite Hin.
      destruct (decide (path_stem FS cf = name)) as [<-|Hne].
      * rewrite lookup_insert_eq, Hk. split; eauto.
      * now rewrite lookup_insert_ne.
    + split.
      * apply NoDup_app. split; [exact Hnd|]. split; [|apply NoDup_singleton].
        intros x Hx Hx'. apply list_elem_of_singleton in Hx' as ->.
        apply Hin in Hx. rewrite Hk in Hx. now destruct Hx.
      * intros name. rewrite elem_of_app, list_elem_of_singleton, Hin.
        destruct (decide (path_stem FS cf = name)) as [<-|Hne].
        -- rewrite lookup_insert_eq. split; eauto.
        -- rewrite lookup_insert_ne by exact Hne. split; [|now left].
           intros [H|H]; [exact H|congruence].
  - destruct H as (_ & -> & ->). now split.
Qed.

(** ** The loop over the files *)

Lemma register_configs_cons FS cf files st :
  register_configs FS (cf :: files) st
  = match register_config FS cf st with
    | (None, st') => register_configs FS files st'
    | (Some e, st') => (Some e, st')
    end.
Proof. reflexivity. Qed.

Lemma register_configs_frame FS files : forall st res st',
  register_configs FS files st = (res, st') ->
  config_paths st' = config_paths st /\
  w_heap (ms_world st) `prefix_of` w_heap (ms_world st') /\
  w_trace (ms_world st') = w_trace (ms_world st) /\
  res = first_failure FS files /\
  (forall name, registered st name -> registered st' name) /\
  (consistent st -> consistent st').
Proof.
  induction files as [|cf files IH]; intros st res st'.
  - intros [= <- <-]. do 5 (split; [first [reflexivity | auto]|]). auto.
  - rewrite register_configs_cons.
    destruct (register_config FS cf st) as [r1 st1] eqn:H1.
    pose proof (register_config_consistent _ _ _ _ _ H1) as Hc1.
    apply register_config_spec in H1 as (Hp1 & Hh1 & Ht1 & H1).
    assert (Hreg1 : forall name, registered st name -> registered st1 name).
    { unfold registered. destruct (file_outcome FS cf) as [e|[]].
      - destruct H1 as (_ & -> & _). auto.
      - destruct H1 as (_ & t & v & n & _ & _ & -> & _).
        intros name. apply registry_insert_registered.
      - destruct H1 as (_ & -> & _). auto. }
    simpl first_failure. destruct (file_outcome FS cf) as [e|b].
    + destruct H1 as (-> & Hr1 & Ho1). intros [= <- <-].
      do 5 (split; [first [assumption | reflexivity]|]). exact Hc1.
    + assert (r1 = None) as -> by (destruct b; apply H1).
      intros H. apply IH in H as (Hp & Hh & Ht & Hr & Hreg & Hc).
      split; [congruence|]. split; [etrans; eauto|]. split; [congruence|].
      split; [exact Hr|]. split; auto.
Qed.

(** A name no registered file carries keeps its entry. *)
Lemma register_configs_untouched FS name files : forall st,
  (forall cf, cf ∈ files -> path_stem FS cf = name ->
              file_outcome FS cf <> inr true) ->
  w_registry (ms_world (register_configs FS files st).2) !! name
  = w_registry (ms_world st) !! name.
Proof.
  induction files as [|cf files IH]; intros st Hfiles; [reflexivity|].
  rewrite register_configs_cons.
  destruct (register_config FS cf st) as [r1 st1] eqn:H1.
  apply register_config_spec in H1 as (_ & _ & _ & H1).
  assert (Hst1 : w_registry (ms_world st1) !! name = w_registry (ms_world st) !! name).
  { pose proof (Hfiles cf ltac:(left)) as Hcf.
    destruct (file_outcome FS cf) as [e|[]].
    - now destruct H1 as (_ & -> & _).
    - destruct H1 as (_ & t & v & n & _ & _ & -> & _).
      apply lookup_insert_ne. intros Heq. now apply Hcf.
    - now destruct H1 as (_ & -> & _). }
  destruct r1 as [e|]; [exact Hst1|]. rewrite IH; [exact Hst1|].
  intros cf' Hin. apply Hfiles. now right.
Qed.

(** The last file that carries a name decides its entry. *)
Lemma register_configs_last FS before : forall st st' cf later t,
  register_configs FS (before ++ cf :: later) st = (None, st') ->
  read_json FS cf = Json t -> has_config_keys t = Some true ->
  (forall cf', cf' ∈ later -> path_stem FS cf' <> path_stem FS cf) ->
  exists v n,
    w_registry (ms_world st') !! path_stem FS cf = Some v /\
    snapshot n (w_heap (ms_world st')) v = Some (canon t).
Proof.
  induction before as [|b before IH]; intros st st' cf later t Hrun Hread Hkeys Hlater.
  - simpl app in Hrun. rewrite register_configs_cons in Hrun.
    destruct (register_config FS cf st) as [r1 st1] eqn:H1.
    apply register_config_spec in H1 as (_ & _ & _ & H1).
    unfold file_outcome in H1. rewrite Hread, Hkeys in H1.
    destruct H1 as (-> & t' & v & n & Ht' & Hs & Hreg & _).
    injection Ht' as <-.
    pose proof (register_configs_untouched FS (path_stem FS cf) later st1) as Hu.
    rewrite Hrun in Hu. simpl in Hu.
    apply register_configs_frame in Hrun as (_ & Hh & _).
    exists v, n. split.
    + rewrite Hu; [rewrite Hreg; apply lookup_insert_eq|].
      intros cf' Hin Hstem. now destruct (Hlater cf' Hin).
    + eapply snapshot_prefix; eauto.
  - simpl app in Hrun. rewrite register_configs_cons in Hrun.
    destruct (register_config FS b st) as [[e|] st1]; [discriminate|].
    eapply IH; eauto.
Qed.

(** Files whose names are registered already change no key. *)
Lemma register_configs_same_keys FS files : forall st,
  (forall cf, cf ∈ files -> file_outcome FS cf = inr true ->
              registered st (path_stem FS cf)) ->
  let st' := (register_configs FS files st).2 in
  config_order st' = config_order st /\
  forall name, registered st' name <-> registered st name.
Proof.
  induction files as [|cf files IH]; intros st Hfiles; [now split|].
  rewrite register_configs_cons.
  destruct (register_config FS cf st) as [r1 st1] eqn:H1.
  apply register_config_spec in H1 as (_ & _ & _ & H1).
  assert (Hst1 : config_order st1 = config_order st /\
                 forall name, registered st1 name <-> registered st name).
  { pose proof (Hfiles cf ltac:(left)) as Hcf. unfold registered in *.
    destruct (file_outcome FS cf) as [e|[]].
    - destruct H1 as (_ & -> & ->). now split.
    - destruct H1 as (_ & t & v & n & _ & _ & -> & ->).
      destruct (Hcf eq_refl) as [c Hc]. rewrite Hc. split; [reflexivity|].
      intros name. destruct (decide (path_stem FS cf = name)) as [<-|Hne].
      + rewrite lookup_insert_eq, Hc. split; eauto.
      + now rewrite lookup_insert_ne.
    - destruct H1 as (_ & -> & ->). now split. }
  destruct r1 as [e|]; [exact Hst1|].
  destruct Hst1 as [Ho Hr]. destruct (IH st1) as [Ho' Hr'].
  { intros cf' Hin Hout. apply Hr. apply Hfiles; [now right|exact Hout]. }
  simpl. split; [congruence|]. intros name. now rewrite Hr'.
Qed.

(** After a loop that completes, every registered file has its name in
    the registry. *)
Lemma register_configs_registered FS files : forall st st' cf,
  register_configs FS files st = (None, st') ->
  cf ∈ files -> file_outcome FS cf = inr true ->
  registered st' (path_stem FS cf).
Proof.
  induction files as [|cf0 files IH]; intros st st' cf Hrun Hin Hout.
  - inversion Hin.
  - rewrite register_configs_cons in Hrun.
    destruct (register_config FS cf0 st) as [[e|] st1] eqn:H1; [discriminate|].
    apply elem_of_cons in Hin as [->|Hin]; [|eapply IH; eauto].
    apply register_config_spec in H1 as (_ & _ & _ & H1). rewrite Hout in H1.
    destruct H1 as (_ & t & v & n & _ & _ & Hreg & _).
    apply register_configs_frame in Hrun as (_ & _ & _ & _ & Hkeep & _).
    apply Hkeep. unfold registered. rewrite Hreg, lookup_insert_eq. eauto.
Qed.

(** ** The scan *)

Lemma StronglySorted_impl {A} (R R' : A -> A -> Prop) l :
  (forall a b, R a b -> R' a b) -> StronglySorted R l -> StronglySorted R' l.
Proof.
  intros HR. induction 1 as [|x l _ IH Hx]; constructor; [exact IH|].
  eapply Forall_impl; [exact Hx|]. intros b. apply HR.
Qed.

Lemma sorted_natural_total names : exists names', sorted _natural_key names = Ok names'.
Proof. apply sorted_total, natural_key_lt_total. Qed.

Lemma rescan_eq FS st :
  exists order,
    sorted _natural_key (config_order (register_configs FS
        (config_files_of FS (config_paths st)) st).2) = Ok order /\
    _rescan_model_configs FS st
    = match register_configs FS (config_files_of FS (config_paths st)) st with
      | (Some e, st') => (Some e, st')
      | (None, st') =>
          (None, {| config_paths := config_paths st';
                    config_order := order;
                    ms_world := ms_world st' |})
      end.
Proof.
  unfold _rescan_model_configs.
  destruct (register_configs FS (config_files_of FS (config_paths st)) st) as [[e|] st1].
  - destruct (sorted_natural_total (config_order st1)) as (order & Ho).
    exists order. now split.
  - simpl. destruct (sorted_natural_total (config_order st1)) as (order & Ho).
    exists order. now rewrite Ho.
Qed.

Lemma rescan_frame FS st res st' :
  _rescan_model_configs FS st = (res, st') ->
  config_paths st' = config_paths st /\
  w_heap (ms_world st) `prefix_of` w_heap (ms_world st') /\
  w_trace (ms_world st') = w_trace (ms_world st) /\
  res = first_failure FS (config_files_of FS (config_paths st)) /\
  (forall name, registered st name -> registered st' name) /\
  (consistent st -> consistent st').
Proof.
  destruct (rescan_eq FS st) as (order & Ho & ->).
  destruct (register_configs FS (config_files_of FS (config_paths st)) st)
    as [r1 st1] eqn:H1.
  pose proof (register_configs_frame _ _ _ _ _ H1) as (Hp & Hh & Ht & Hr & Hreg & Hc).
  destruct r1 as [e|]; intros [= <- <-];
    do 5 (split; [first [assumption | reflexivity]|]); [exact Hc|].
  intros H. destruct (Hc H) as [Hnd Hin]. simpl in Ho.
  apply (sorted_perm _ natural_key_shape) in Ho.
  split; simpl.
  - now rewrite Ho.
  - intros name. unfold registered. simpl. split.
    + intros Hn. apply Hin. now rewrite <- Ho.
    + intros Hn. rewrite Ho. now apply Hin.
Qed.

Lemma consistent_empty FS : consistent (empty_module FS).
Proof.
  split; [constructor|]. intros name. unfold registered. simpl.
  rewrite lookup_empty. split; [intros H; inversion H|intros [? [=]]].
Qed.

(** X3. After a scan that completes, [list_models] returns the registered
    names, each once, in natural order. *)
Theorem rescan_lists_models_in_natural_order FS st st' :
  consistent st ->
  _rescan_model_configs FS st = (None, st') ->
  StronglySorted natural_le (list_models FS st') /\
  NoDup (list_models FS st') /\
  forall name, name ∈ list_models FS st' <-> registered st' name.
Proof.
  intros Hc Hrun. pose proof Hrun as Hf.
  apply rescan_frame in Hf as (_ & _ & _ & _ & _ & Hc'). destruct (Hc' Hc) as [Hnd Hin].
  split; [|now split].
  destruct (rescan_eq FS st) as (order & Ho & Heq). rewrite Heq in Hrun.
  destruct (register_configs FS (config_files_of FS (config_paths st)) st) as [[e|] st1];
    [discriminate|].
  injection Hrun as <-. unfold list_models. simpl.
  apply (sorted_sorted _ natural_key_shape) in Ho.
  eapply StronglySorted_impl; [|exact Ho]. intros a b. apply natural_le_cmp.
Qed.

(** X4. A scan only adds: whatever its outcome, the list of paths is the
    one it was called with, every registered name stays registered, the
    objects of the store are left as they are, and the key order and the
    map of the registry still describe one dictionary; [add_model_config]
    appends its path first, and does so even when the scan then raises. *)
Theorem rescan_only_adds FS st path :
  consistent (empty_module FS) /\
  (let st' := (_rescan_model_configs FS st).2 in
   config_paths st' = config_paths st /\
   w_heap (ms_world st) `prefix_of` w_heap (ms_world st') /\
   (forall name, registered st name -> registered st' name) /\
   (consistent st -> consistent st')) /\
  (let st' := (add_model_config FS path st).2 in
   config_paths st'
   = config_paths st ++ [match path with inl s => to_path FS s | inr p => p end] /\
   w_heap (ms_world st) `prefix_of` w_heap (ms_world st') /\
   (forall name, registered st name -> registered st' name) /\
   (consistent st -> consistent st')).
Proof.
  split; [apply consistent_empty|]. split.
  - intros st'. destruct (_rescan_model_configs FS st) as [res st0] eqn:Hrun.
    apply rescan_frame in Hrun as (Hp & Hh & _ & _ & Hreg & Hc). now subst st'.
  - intros st'. unfold add_model_config in st'.
    destruct (_rescan_model_configs FS _) as [res st0] eqn:Hrun in st'.
    apply rescan_frame in Hrun as (Hp & Hh & _ & _ & Hreg & Hc). now subst st'.
Qed.

(** X5. After a scan that completes, the name of a file that has the three
    keys is registered with the document of the last such file the scan
    collected: the entry denotes what [json.load] makes of that file. *)
Theorem rescan_registers_last_file FS st st' before cf later t :
  _rescan_model_configs FS st = (None, st') ->
  config_files_of FS (config_paths st) = before ++ cf :: later ->
  (forall cf', cf' ∈ later -> path_stem FS cf' <> path_stem FS cf) ->
  read_json FS cf = Json t ->
  has_config_keys t = Some true ->
  exists v n,
    w_registry (ms_world st') !! path_stem FS cf = Some v /\
    snapshot n (w_heap (ms_world st')) v = Some (canon t).
Proof.
  intros Hrun Hfiles Hlater Hread Hkeys.
  destruct (rescan_eq FS st) as (order & Ho & Heq). rewrite Heq, Hfiles in Hrun.
  destruct (register_configs FS (before ++ cf :: later) st) as [[e|] st1] eqn:H1;
    [discriminate|].
  injection Hrun as <-. simpl. eapply register_configs_last; eauto.
Qed.

Lemma file_outcome_registers FS cf :
  file_outcome FS cf = inr true <->
  exists t, read_json FS cf = Json t /\ has_config_keys t = Some true.
Proof.
  unfold file_outcome. destruct (read_json FS cf) as [| | | |t];
    try (split; [discriminate|]; intros (? & H & _); discriminate H).
  split.
  - destruct (has_config_keys t) as [[]|] eqn:Hk; try discriminate. eauto.
  - intros (t' & [= <-] & ->). reflexivity.
Qed.

(** X6. A file that lacks one of 'embed_dim', 'vision_cfg' and 'text_cfg'
    is passed over: whatever the outcome of the scan, a name that no
    collected file with the three keys carries keeps the entry it had, or
    stays unregistered. *)
Theorem rescan_skips_incomplete_files FS st name :
  (forall cf t, cf ∈ config_files_of FS (config_paths st) ->
                path_stem FS cf = name -> read_json FS cf = Json t ->
                has_config_keys t <> Some true) ->
  w_registry (ms_world (_rescan_model_configs FS st).2) !! name
  = w_registry (ms_world st) !! name.
Proof.
  intros Hfiles.
  pose proof (register_configs_untouched FS name
                (config_files_of FS (config_paths st)) st) as Hu.
  destruct (rescan_eq FS st) as (order & Ho & ->).
  destruct (register_configs FS (config_files_of FS (config_paths st)) st) as [[e|] st1];
    simpl in *; apply Hu; intros cf Hin Hstem Hout;
    apply file_outcome_registers in Hout as (t & Hread & Hkeys);
    exact (Hfiles cf t Hin Hstem Hread Hkeys).
Qed.





(** X9. Scanning again changes nothing a caller of [list_models] sees:
    after a scan that completes, a second scan of the same files completes
    too and returns the same names in the same order. *)
Theorem rescan_twice_same_listing FS st st1 :
  consistent st ->
  _rescan_model_configs FS st = (None, st1) ->
  exists st2,
    _rescan_model_configs FS st1 = (None, st2) /\
    list_models FS st2 = list_models FS st1 /\
    forall name, registered st2 name <-> registered st1 name.
Proof.
  intros Hc Hrun.
  pose proof (rescan_frame _ _ _ _ Hrun) as (Hp & _ & _ & Hr & _ & _).
  destruct (rescan_eq FS st) as (order & Ho & Heq). rewrite Heq in Hrun.
  destruct (register_configs FS (config_files_of FS (config_paths st)) st)
    as [[e|] sta] eqn:Ha; [discriminate|].
  injection Hrun as <-. simpl in *.
  apply (sorted_sorted _ natural_key_shape) in Ho.
  set (st1 := {| config_paths := config_paths sta; config_order := order;
                 ms_world := ms_world sta |}) in *.
  assert (Hreg : forall cf, cf ∈ config_files_of FS (config_paths st) ->
                   file_outcome FS cf = inr true -> registered st1 (path_stem FS cf)).
  { intros cf Hin Hout. exact (register_configs_registered _ _ _ _ _ Ha Hin Hout). }
  destruct (rescan_eq FS st1) as (order2 & Ho2 & Heq2). rewrite Heq2. clear Heq2.
  replace (config_paths st1) with (config_paths st) in * by (symmetry; exact Hp).
  pose proof (register_configs_same_keys FS _ st1 Hreg) as [Hord Hkeys].
  destruct (register_configs FS (config_files_of FS (config_paths st)) st1)
    as [r2 stb] eqn:Hb.
  pose proof (register_configs_frame _ _ _ _ _ Hb) as (_ & _ & _ & Hr2 & _ & _).
  rewrite <- Hr in Hr2. subst r2. simpl in *.
  rewrite Hord in Ho2. simpl in Ho2.
  rewrite (sorted_idem _ natural_key_shape _ Ho) in Ho2. injection Ho2 as <-.
  eexists. split; [reflexivity|]. split; [reflexivity|exact Hkeys].
Qed.

(** ** Dictionaries under the factory's operations *)

Lemma getitem_world v k w : (Py.getitem v k w).2 = w.
Proof.
  rewrite getitem_eq. destruct v; try reflexivity.
  destruct (w_heap w !! r); [|reflexivity]. now destruct (PyDict.get _ _).
Qed.

Lemma get_or_world v k dflt w : (Py.get_or v k dflt w).2 = w.
Proof.
  rewrite get_eq. destruct v; try reflexivity. now destruct (w_heap w !! r).
Qed.

Lemma dict_get_set_ne {V} (d : list (string * V)) k k' v :
  k <> k' -> PyDict.get (PyDict.set d k v) k' = PyDict.get d k'.
Proof.
  intros Hne. rewrite dict_get_set.
  destruct (String.eqb_spec k k'); [contradiction|reflexivity].
Qed.

Lemma dict_get_del_ne {V} (d : list (string * V)) k k' :
  k <> k' -> PyDict.get (PyDict.del d k) k' = PyDict.get d k'.
Proof.
  intros Hne. induction d as [|[k1 v1] d IH]; simpl; [reflexivity|].
  destruct (String.eqb_spec k1 k) as [->|Hk].
  - destruct (String.eqb_spec k k'); [contradiction|reflexivity].
  - simpl. destruct (String.eqb k1 k'); [reflexivity|exact IH].
Qed.

Lemma dict_set_keys {V} (d : list (string * V)) k v :
  map fst (PyDict.set d k v)
  = if PyDict.mem d k then map fst d else map fst d ++ [k].
Proof.
  unfold PyDict.mem. induction d as [|[k1 v1] d IH]; simpl; [reflexivity|].
  destruct (String.eqb_spec k1 k) as [->|Hk]; simpl; [reflexivity|].
  rewrite IH. now destruct (PyDict.get d k).
Qed.

Lemma dict_set_NoDup {V} (d : list (string * V)) k v :
  NoDup (map fst d) -> NoDup (map fst (PyDict.set d k v)).
Proof.
  intros Hnd. rewrite dict_set_keys. destruct (PyDict.mem d k) eqn:Hm; [exact Hnd|].
  apply NoDup_app. split; [exact Hnd|]. split; [|apply NoDup_singleton].
  intros x Hx Hx'. apply list_elem_of_singleton in Hx' as ->.
  apply dict_mem_elem in Hx. congruence.
Qed.

Lemma dict_del_sublist {V} (d : list (string * V)) k :
  map fst (PyDict.del d k) `sublist_of` map fst d.
Proof.
  induction d as [|[k1 v1] d IH]; simpl; [constructor|].
  destruct (String.eqb k1 k); simpl; [now constructor|now constructor].
Qed.

Lemma dict_del_NoDup {V} (d : list (string * V)) k :
  NoDup (map fst d) -> NoDup (map fst (PyDict.del d k)).
Proof. intros Hnd. eapply sublist_NoDup; [exact Hnd|apply dict_del_sublist]. Qed.

(** With every key written once, a deleted key is gone. *)
Lemma dict_get_del {V} (d : list (string * V)) k :
  NoDup (map fst d) -> PyDict.get (PyDict.del d k) k = None.
Proof.
  induction d as [|[k1 v1] d IH]; simpl; [reflexivity|]. intros Hnd.
  apply NoDup_cons in Hnd as [Hk1 Hnd].
  destruct (String.eqb_spec k1 k) as [->|Hk].
  - now apply dict_get_None.
  - simpl. destruct (String.eqb_spec k1 k); [contradiction|]. now apply IH.
Qed.

Section DictInv.
Variable E : Externals.
Variable r : loc.
Variable P : dict -> Prop.

Lemma dinv_heap w h :
  (forall d, w_heap w !! r = Some d -> P d ->
             exists d', h !! r = Some d' /\ P d') ->
  dict_inv r P w -> dict_inv r P (with_heap w h).
Proof. intros H (d & Hr & Hd). destruct (H d Hr Hd) as (d' & ? & ?). now exists d'. Qed.

Lemma dinv_emit e : preserves (dict_inv r P) (emit e) (fun _ => True).
Proof. intros w Hw. split; [exact Hw|done]. Qed.

Lemma dinv_new_dict d0 : preserves (dict_inv r P) (Py.new_dict d0) (fun _ => True).
Proof.
  intros w Hw. rewrite new_dict_eq. split; [|done]. simpl.
  apply dinv_heap; [|exact Hw]. intros d Hr Hd. exists d. split; [|exact Hd].
  now apply lookup_app_l_Some.
Qed.

Lemma dinv_insert w r' d' :
  (forall d, w_heap w !! r = Some d -> r' = r -> P d -> P d') ->
  dict_inv r P w -> dict_inv r P (with_heap w (<[r' := d']> (w_heap w))).
Proof.
  intros H Hw. apply dinv_heap; [|exact Hw]. intros d Hr Hd.
  destruct (decide (r' = r)) as [->|Hne].
  - exists d'. split; [|now apply (H d)].
    apply list_lookup_insert_eq. eapply lookup_lt_Some; eauto.
  - exists d. split; [|exact Hd]. now rewrite list_lookup_insert_ne.
Qed.

Lemma dinv_setitem v k x :
  (forall d, P d -> P (PyDict.set d k x)) ->
  preserves (dict_inv r P) (Py.setitem v k x) (fun _ => True).
Proof.
  intros HP w Hw. rewrite setitem_eq. destruct v; try (split; [exact Hw|done]).
  destruct (w_heap w !! r0) as [d0|] eqn:Hr0; [|split; [exact Hw|done]].
  split; [|done]. simpl. apply dinv_insert; [|exact Hw].
  intros d Hr -> Hd. rewrite Hr in Hr0. injection Hr0 as <-. now apply HP.
Qed.

Lemma dinv_pop v k dflt :
  (forall d, P d -> P (PyDict.del d k)) ->
  preserves (dict_inv r P) (Py.pop v k dflt) (fun _ => True).
Proof.
  intros HP w Hw. rewrite pop_eq. destruct v; try (split; [exact Hw|done]).
  destruct (w_heap w !! r0) as [d0|] eqn:Hr0; [|split; [exact Hw|done]].
  destruct (PyDict.get d0 k); [|split; [exact Hw|done]].
  split; [|done]. simpl. apply dinv_insert; [|exact Hw].
  intros d Hr -> Hd. rewrite Hr in Hr0. injection Hr0 as <-. now apply HP.
Qed.

Lemma dinv_get_cfg_and_handle_error name :
  preserves (dict_inv r P) (get_cfg_and_handle_error E name) (fun _ => True).
Proof.
  intros w Hw. split; [|done].
  destruct (preserves_get_cfg_and_handle_error E any_event w 0 name
              (fun _ _ => eq_refl) w (inv_refl _ w)) as [Hinv _].
  apply inv_prefix in Hinv as [e He].
  destruct Hw as (d & Hr & Hd). exists d. split; [|exact Hd].
  rewrite He. now apply lookup_app_l_Some.
Qed.

End DictInv.

Ltac dpres_prim side :=
  first
    [ apply dinv_emit
    | apply preserves_same; intros; first
        [ apply truthy_world | apply contains_world | apply getitem_world
        | apply get_or_world | apply kwargs_world | apply lower_world ]
    | apply dinv_new_dict
    | apply dinv_get_cfg_and_handle_error
    | apply dinv_setitem; side
    | apply dinv_pop; side ].

Ltac dpres side :=
  lazymatch goal with
  | |- preserves _ (st_ret _) _ => apply preserves_ret; exact I
  | |- preserves _ (raise _) _ => apply preserves_raise
  | |- preserves _ (if ?b then _ else _) _ => destruct b; dpres side
  | |- preserves _ (match ?x with _ => _ end) _ => destruct x; dpres side
  | |- preserves _ (st_bind _ _) _ =>
      eapply preserves_bind with (Q := fun _ => True);
        [ dpres side | intros; dpres side ]
  | |- _ => dpres_prim side
  end.

Ltac holds_side :=
  intros; unfold holds in *;
  first [ rewrite dict_get_set_ne by discriminate; assumption
        | rewrite dict_get_del_ne by discriminate; assumption ].

(** ** The steps of [load_and_prepare_cfg] *)

(** What a successful call went through, step by step. *)
Lemma load_and_prepare_cfg_steps E name fqg fpd pi fct phf w mn cfg ct wt w1 :
  load_and_prepare_cfg E name fqg fpd pi fct phf w = (Ok (mn, cfg, ct, wt), w1) ->
  exists wa dflt wb vision_cfg pimg wd we wf wg popped wh,
    get_cfg_and_handle_error E name w = (Ok cfg, wa) /\
    Py.new_dict [] wa = (Ok dflt, wb) /\
    Py.get_or cfg "vision_cfg" dflt wb = (Ok vision_cfg, wb) /\
    (if pi then st_ret true
     else let* has_name := Py.has "model_name" vision_cfg in
          if has_name then st_ret true else Py.has "pretrained" vision_cfg) wb
    = (Ok pimg, wd) /\
    (if pimg then
       let* is_timm := Py.has "timm_model_name" vision_cfg in
       if is_timm then
         let* vc := Py.getitem cfg "vision_cfg" in
         Py.setitem vc "timm_model_pretrained" (VBool true) ;;
         st_ret (name, VNone)
       else
         let* has_name := Py.has "model_name" vision_cfg in
         if has_name then
           let* pretrained_image_model_name := Py.get_or vision_cfg "model_name" VNone in
           let* pretrained_image_model_cfg :=
             get_cfg_and_handle_error E pretrained_image_model_name in
           let* which := Py.get_or vision_cfg "pretrained" (VStr "openai") in
           let* vc := Py.getitem pretrained_image_model_cfg "vision_cfg" in
           Py.setitem cfg "vision_cfg" vc ;;
           st_ret (pretrained_image_model_name, which)
         else
           raise (AssertionError
                    "Unintended logic triggered, please debug or implement this block.")
     else st_ret (name, VNone)) wd = (Ok (mn, wt), we) /\
    (if fqg then Py.setitem cfg "quick_gelu" (VBool true) else st_ret tt) we
    = (Ok tt, wf) /\
    match fpd with
    | Some p => (let* vc := Py.getitem cfg "vision_cfg" in
                 Py.setitem vc "patch_dropout" (VFloat p.1 p.2)) wf
    | None => (Ok tt, wf)
    end = (Ok tt, wg) /\
    Py.pop cfg "custom_text" (VBool false) wg = (Ok popped, wh) /\
    (let* popped_true := Py.truthy popped in
     let* custom_text :=
       if popped_true then st_ret true
       else if fct then st_ret true
       else
         let* dflt := Py.new_dict [] in
         let* text_cfg := Py.get_or cfg "text_cfg" dflt in
         Py.has "hf_model_name" text_cfg in
     (if custom_text then
        let* dflt := Py.new_dict [] in
        let* text_cfg := Py.get_or cfg "text_cfg" dflt in
        let* has_hf := Py.has "hf_model_name" text_cfg in
        if has_hf then
          let* tc := Py.getitem cfg "text_cfg" in
          Py.setitem tc "hf_model_pretrained" (VBool phf)
        else st_ret tt
      else st_ret tt) ;;
     st_ret custom_text) wh = (Ok ct, w1).
Proof.
  intros H. unfold load_and_prepare_cfg in H.
  apply st_bind_inv in H as (model_cfg & wa & Ha & H).
  apply st_bind_inv in H as (dflt & wb & Hb & H).
  apply st_bind_inv in H as (vision_cfg & wc & Hc & H).
  pose proof (get_or_world model_cfg "vision_cfg" dflt wb) as Hwc.
  rewrite Hc in Hwc. simpl in Hwc. subst wc.
  apply st_bind_inv in H as (pimg & wd & Hd & H).
  apply st_bind_inv in H as ([mn' wt'] & we & He & H). cbv beta iota in H.
  apply st_bind_inv in H as ([] & wf & Hf & H).
  apply st_bind_inv in H as ([] & wg & Hg & H).
  apply st_bind_inv in H as (popped & wh & Hh & H).
  apply st_bind_inv in H as (ptrue & wi & Hi & H).
  apply st_bind_inv in H as (ctx & wj & Hj & H).
  apply st_bind_inv in H as ([] & wk & Hk & H).
  injection H as <- <- <- <- <-.
  exists wa, dflt, wb, vision_cfg, pimg, wd, we, wf, wg, popped, wh.
  repeat (split; [first [assumption | now destruct fpd]|]).
  unfold st_bind at 1. rewrite Hi. unfold st_bind at 1. rewrite Hj.
  unfold st_bind at 1. rewrite Hk. reflexivity.
Qed.

Lemma preserves_run {A} (I : world -> Prop) (m : M A) w res w' :
  preserves I m (fun _ => True) -> m w = (res, w') -> I w -> I w'.
Proof. intros Hp Hm Hw. destruct (Hp w Hw) as [Hi _]. now rewrite Hm in Hi. Qed.

Lemma setitem_inv v k x w w' :
  Py.setitem v k x w = (Ok tt, w') ->
  exists r d, v = VDict r /\ w_heap w !! r = Some d /\
              w' = with_heap w (<[r := PyDict.set d k x]> (w_heap w)).
Proof.
  rewrite setitem_eq. destruct v; try discriminate.
  destruct (w_heap w !! r) as [d|] eqn:Hr; [|discriminate].
  intros [= <-]. now exists r, d.
Qed.

Lemma getitem_inv v k w x w' :
  Py.getitem v k w = (Ok x, w') ->
  exists r d, v = VDict r /\ w_heap w !! r = Some d /\
              PyDict.get d k = Some x /\ w' = w.
Proof.
  rewrite getitem_eq. destruct v; try discriminate.
  destruct (w_heap w !! r) as [d|] eqn:Hr; [|discriminate].
  destruct (PyDict.get d k) as [y|] eqn:Hg; [|discriminate].
  intros [= <- <-]. now exists r, d.
Qed.

Lemma dict_inv_getitem r k x w :
  dict_inv r (holds k x) w -> Py.getitem (VDict r) k w = (Ok x, w).
Proof. intros (d & Hr & Hd). rewrite getitem_eq, Hr. unfold holds in Hd. now rewrite Hd. Qed.

(** The last part of [load_and_prepare_cfg], from the [pop] on. *)
Lemma custom_text_part_keeps (r : loc) (P : dict -> Prop) (cfg : value)
    (fct phf : bool) (popped : value) :
  (forall d x, P d -> P (PyDict.set d "hf_model_pretrained" x)) ->
  preserves (dict_inv r P)
    (let* popped_true := Py.truthy popped in
     let* custom_text :=
       if popped_true then st_ret true
       else if fct then st_ret true
       else
         let* dflt := Py.new_dict [] in
         let* text_cfg := Py.get_or cfg "text_cfg" dflt in
         Py.has "hf_model_name" text_cfg in
     (if custom_text then
        let* dflt := Py.new_dict [] in
        let* text_cfg := Py.get_or cfg "text_cfg" dflt in
        let* has_hf := Py.has "hf_model_name" text_cfg in
        if has_hf then
          let* tc := Py.getitem cfg "text_cfg" in
          Py.setitem tc "hf_model_pretrained" (VBool phf)
        else st_ret tt
      else st_ret tt) ;;
     st_ret custom_text) (fun _ => True).
Proof.
  intros HP. dpres ltac:(intros; now apply HP).
Qed.

(** X10. The overrides a caller forces are in the configuration
    [load_and_prepare_cfg] returns: with [force_quick_gelu] its
    'quick_gelu' is [True], and with a [force_patch_dropout] the
    'patch_dropout' of its 'vision_cfg' is that value. *)
Theorem load_and_prepare_cfg_applies_overrides E name fqg fpd pi fct phf w
    mn cfg ct wt w1 :
  load_and_prepare_cfg E name fqg fpd pi fct phf w = (Ok (mn, cfg, ct, wt), w1) ->
  (fqg = true -> Py.getitem cfg "quick_gelu" w1 = (Ok (VBool true), w1)) /\
  (forall p, fpd = Some p ->
     (let* vc := Py.getitem cfg "vision_cfg" in Py.getitem vc "patch_dropout") w1
     = (Ok (VFloat p.1 p.2), w1)).
Proof.
  intros H. apply load_and_prepare_cfg_steps in H
    as (wa & dflt & wb & vision_cfg & pimg & wd & we & wf & wg & popped & wh
        & Ha & Hb & Hc & Hd & He & Hf & Hg & Hh & Hrest).
  split.
  - intros ->. apply setitem_inv in Hf as (r & d & -> & Hr & ->).
    assert (If : dict_inv r (holds "quick_gelu" (VBool true))
                   (with_heap we (<[r := PyDict.set d "quick_gelu" (VBool true)]>
                                    (w_heap we)))).
    { eexists. split.
      - simpl. apply list_lookup_insert_eq. eapply lookup_lt_Some; eauto.
      - unfold holds. rewrite dict_get_set. now rewrite String.eqb_refl. }
    assert (Ig : (dict_inv r (holds "quick_gelu" (VBool true))) wg).
    { destruct fpd as [p|].
      - eapply (preserves_run (dict_inv r (holds "quick_gelu" (VBool true))));
          [|exact Hg|exact If].
        dpres ltac:(idtac; holds_side).
      - injection Hg as <-. exact If. }
    assert (Ih : (dict_inv r (holds "quick_gelu" (VBool true))) wh)
      by (eapply (preserves_run (dict_inv r (holds "quick_gelu" (VBool true))));
          [|exact Hh|exact Ig]; apply dinv_pop; holds_side).
    apply dict_inv_getitem.
    eapply (preserves_run (dict_inv r (holds "quick_gelu" (VBool true))));
      [|exact Hrest|exact Ih];
      apply custom_text_part_keeps; holds_side.
  - intros p ->. apply st_bind_inv in Hg as (vc & wx & Hgv & Hs).
    apply getitem_inv in Hgv as (r & d & -> & Hr & Hgd & ->).
    pose proof Hs as Hs'. apply setitem_inv in Hs' as (rv & dv & -> & Hrv & ->).
    assert (Iag : dict_inv r (holds "vision_cfg" (VDict rv))
                    (with_heap wf
                       (<[rv := PyDict.set dv "patch_dropout" (VFloat p.1 p.2)]>
                          (w_heap wf)))).
    { eapply (preserves_run (dict_inv r (holds "vision_cfg" (VDict rv))));
        [|exact Hs|now exists d]. apply dinv_setitem; holds_side. }
    assert (Ibg : dict_inv rv (holds "patch_dropout" (VFloat p.1 p.2))
                    (with_heap wf
                       (<[rv := PyDict.set dv "patch_dropout" (VFloat p.1 p.2)]>
                          (w_heap wf)))).
    { eexists. split.
      - simpl. apply list_lookup_insert_eq. eapply lookup_lt_Some; eauto.
      - unfold holds. rewrite dict_get_set. now rewrite String.eqb_refl. }
    assert (Ia : (dict_inv r (holds "vision_cfg" (VDict rv))) w1).
    { eapply (preserves_run (dict_inv r (holds "vision_cfg" (VDict rv))));
        [|exact Hrest|]; [apply custom_text_part_keeps; holds_side|].
      eapply (preserves_run (dict_inv r (holds "vision_cfg" (VDict rv))));
        [|exact Hh|exact Iag]. apply dinv_pop; holds_side. }
    assert (Ib : (dict_inv rv (holds "patch_dropout" (VFloat p.1 p.2))) w1).
    { eapply (preserves_run (dict_inv rv (holds "patch_dropout" (VFloat p.1 p.2))));
        [|exact Hrest|]; [apply custom_text_part_keeps; holds_side|].
      eapply (preserves_run (dict_inv rv (holds "patch_dropout" (VFloat p.1 p.2))));
        [|exact Hh|exact Ibg]. apply dinv_pop; holds_side. }
    erewrite st_bind_ok by (apply dict_inv_getitem; exact Ia).
    now apply dict_inv_getitem.
Qed.

Lemma snap_items_keys n h d kts :
  Forall2 (fun kv kt => snap_item n h kv = Some kt) d kts ->
  map fst d = map fst kts.
Proof.
  induction 1 as [|[k v] [k' t] d kts Hx _ IH]; simpl; [reflexivity|].
  unfold snap_item in Hx. simpl in Hx. apply bind_Some in Hx as (? & _ & [= -> _]).
  now rewrite IH.
Qed.

Lemma get_cfg_and_handle_error_known E s cfg kts w :
  w_registry w !! s = Some cfg ->
  snapshot (max_depth E) (w_heap w) cfg = Some (TDict kts) ->
  exists r h' d,
    get_cfg_and_handle_error E (VStr s) w
    = (Ok (VDict r), with_heap (after w [EvGetModelConfig (VStr s) true]) h') /\
    snapshot (max_depth E) h' (VDict r) = Some (TDict kts) /\
    h' !! r = Some d /\
    (exists n, Forall2 (fun kv kt => snap_item n h' kv = Some kt) d kts) /\
    w_heap w `prefix_of` h'.
Proof.
  intros Hreg Hsn.
  destruct (get_model_config_known E s cfg _ w Hreg Hsn) as (c & h' & Hget & Hs & _ & Hp).
  pose proof Hs as Hs'.
  apply snapshot_dict_inv in Hs' as (n1 & r & d & _ & -> & Hr & Hd1).
  exists r, h', d.
  split; [|split; [exact Hs|split; [exact Hr|split; [now exists n1|exact Hp]]]].
  unfold get_cfg_and_handle_error. now rewrite (st_bind_ok _ _ _ _ _ Hget).
Qed.

(** X11. The configuration [load_and_prepare_cfg] returns has no
    'custom_text' entry: the key is popped, and nothing the function does
    afterwards writes it, so it is not among the keyword arguments the model
    class is instantiated with. *)
Theorem load_and_prepare_cfg_removes_custom_text E s cfg0 kts fqg fpd pi fct
    phf w mn cfg ct wt w1 :
  w_registry w !! s = Some cfg0 ->
  snapshot (max_depth E) (w_heap w) cfg0 = Some (TDict kts) ->
  NoDup (map fst kts) ->
  load_and_prepare_cfg E (VStr s) fqg fpd pi fct phf w = (Ok (mn, cfg, ct, wt), w1) ->
  exists kw,
    Py.kwargs cfg w1 = (Ok kw, w1) /\ PyDict.get kw "custom_text" = None.
Proof.
  intros Hreg Hsn Hnd H. apply load_and_prepare_cfg_steps in H
    as (wa & dflt & wb & vision_cfg & pimg & wd & we & wf & wg & popped & wh
        & Ha & Hb & Hc & Hd & He & Hf & Hg & Hh & Hrest).
  destruct (get_cfg_and_handle_error_known E s cfg0 _ w Hreg Hsn)
    as (r & h1 & d & Ha' & _ & Hr & (n1 & Hd1) & _).
  rewrite Ha' in Ha. injection Ha as <- <-.
  pose (unique := fun d : dict => NoDup (map fst d)).
  assert (Hside_set : forall k x d, unique d -> unique (PyDict.set d k x))
    by (intros; now apply dict_set_NoDup).
  assert (I0 : dict_inv r unique (with_heap (after w [EvGetModelConfig (VStr s) true]) h1)).
  { exists d. split; [exact Hr|]. unfold unique.
    now rewrite (snap_items_keys _ _ _ _ Hd1). }
  assert (Ib : (dict_inv r unique) wb)
    by (eapply (preserves_run (dict_inv r unique)); [|exact Hb|exact I0]; apply dinv_new_dict).
  assert (Id : (dict_inv r unique) wd).
  { eapply (preserves_run (dict_inv r unique)); [|exact Hd|exact Ib].
    dpres ltac:(intros; now apply Hside_set). }
  assert (Ie : (dict_inv r unique) we).
  { eapply (preserves_run (dict_inv r unique)); [|exact He|exact Id].
    dpres ltac:(intros; now apply Hside_set). }
  assert (If : (dict_inv r unique) wf).
  { eapply (preserves_run (dict_inv r unique)); [|exact Hf|exact Ie].
    dpres ltac:(intros; now apply Hside_set). }
  assert (Ig : (dict_inv r unique) wg).
  { destruct fpd as [p|].
    - eapply (preserves_run (dict_inv r unique)); [|exact Hg|exact If].
      dpres ltac:(intros; now apply Hside_set).
    - injection Hg as <-. exact If. }
  assert (Ih : dict_inv r (lacks "custom_text") wh).
  { destruct Ig as (dg & Hrg & Hug). rewrite pop_eq, Hrg in Hh.
    destruct (PyDict.get dg "custom_text") eqn:Hget.
    - injection Hh as _ <-. eexists. split.
      + simpl. apply list_lookup_insert_eq. eapply lookup_lt_Some; eauto.
      + split; [now apply dict_del_NoDup|now apply dict_get_del].
    - injection Hh as _ <-. exists dg. now repeat split. }
  assert (I1 : dict_inv r (lacks "custom_text") w1).
  { eapply (preserves_run (dict_inv r (lacks "custom_text")));
      [|exact Hrest|exact Ih].
    apply custom_text_part_keeps. intros d0 x [Hnd0 Hg0]. split.
    - now apply dict_set_NoDup.
    - now rewrite dict_get_set_ne by discriminate. }
  destruct I1 as (kw & Hkw & _ & Hlack). exists kw. split; [|exact Hlack].
  simpl. now rewrite read_eq, Hkw.
Qed.

(** ** Reading a configuration as a document *)

Lemma get_or_snapshot n w r kts k dflt :
  snapshot n (w_heap w) (VDict r) = Some (TDict kts) ->
  snapshot 1 (w_heap w) dflt = Some (TDict []) ->
  exists v m,
    Py.get_or (VDict r) k dflt w = (Ok v, w) /\
    snapshot m (w_heap w) v = Some (default (TDict []) (PyDict.get kts k)).
Proof.
  intros Hs Hd. apply snapshot_dict_inv in Hs as (n1 & r' & d & _ & [= <-] & Hr & Hitems).
  pose proof (snap_items_get n1 (w_heap w) d kts k Hitems) as Hg.
  rewrite get_eq, Hr. destruct (PyDict.get kts k) as [t|].
  - destruct Hg as (v & -> & Hv). now exists v, n1.
  - rewrite Hg. now exists dflt, 1.
Qed.

Lemma snapshot_new_dict h : snapshot 1 (h ++ [[]]) (VDict (List.length h)) = Some (TDict []).
Proof.
  rewrite snapshot_S. rewrite lookup_app_r by lia. now rewrite Nat.sub_diag.
Qed.

(** The first three steps of [load_and_prepare_cfg] on a registered name:
    the copy, the default, and the vision part of the copy. *)
Lemma load_and_prepare_cfg_vision E s cfg0 kts w :
  w_registry w !! s = Some cfg0 ->
  snapshot (max_depth E) (w_heap w) cfg0 = Some (TDict kts) ->
  exists r h1 vc n,
    let wa := with_heap (after w [EvGetModelConfig (VStr s) true]) h1 in
    let wb := with_heap wa (h1 ++ [[]]) in
    get_cfg_and_handle_error E (VStr s) w = (Ok (VDict r), wa) /\
    Py.new_dict [] wa = (Ok (VDict (List.length h1)), wb) /\
    Py.get_or (VDict r) "vision_cfg" (VDict (List.length h1)) wb = (Ok vc, wb) /\
    snapshot n (h1 ++ [[]]) vc = Some (vision_of kts) /\
    snapshot (max_depth E) h1 (VDict r) = Some (TDict kts) /\
    w_heap w `prefix_of` h1.
Proof.
  intros Hreg Hsn.
  destruct (get_cfg_and_handle_error_known E s cfg0 kts w Hreg Hsn)
    as (r & h1 & d & Ha & Hs1 & Hr & _ & Hp).
  set (wa := with_heap (after w [EvGetModelConfig (VStr s) true]) h1).
  set (wb := with_heap wa (h1 ++ [[]])).
  destruct (get_or_snapshot (max_depth E) wb r kts "vision_cfg" (VDict (List.length h1)))
    as (vc & n & Hget & Hvc).
  { simpl. now apply snapshot_app. }
  { apply snapshot_new_dict. }
  exists r, h1, vc, n. repeat split; assumption.
Qed.

Lemma has_doc n w v t k b :
  snapshot n (w_heap w) v = Some t -> tree_has k t = Some b ->
  Py.has k v w = (Ok b, w).
Proof. intros Hs Ht. rewrite (has_of_snapshot _ _ _ _ k Hs). now rewrite Ht. Qed.

(** X12. A configuration whose vision part asks for a pretrained image
    tower (through [pretrained_image], or a 'pretrained' entry) without
    naming a timm model or a model to take it from is refused:
    [load_and_prepare_cfg], and [create_model] with it, raises the
    [AssertionError] of the branch left unimplemented. *)
Theorem load_and_prepare_cfg_unintended_logic E s cfg0 kts fqg fpd pi fct phf w :
  w_registry w !! s = Some cfg0 ->
  snapshot (max_depth E) (w_heap w) cfg0 = Some (TDict kts) ->
  tree_has "timm_model_name" (vision_of kts) = Some false ->
  tree_has "model_name" (vision_of kts) = Some false ->
  pi = true \/ tree_has "pretrained" (vision_of kts) = Some true ->
  let err := AssertionError
    "Unintended logic triggered, please debug or implement this block." in
  (load_and_prepare_cfg E (VStr s) fqg fpd pi fct phf w).1 = Raise err /\
  forall model_name pretrained precision device jit cache_dir,
    normalize_name model_name = s ->
    (create_model E model_name pretrained precision device jit fqg fct fpd pi
       phf cache_dir w).1 = Raise err.
Proof.
  intros Hreg Hsn Htimm Hname Hpre err.
  assert (Hlap : exists w', load_and_prepare_cfg E (VStr s) fqg fpd pi fct phf w
                            = (Raise err, w')).
  { destruct (load_and_prepare_cfg_vision E s cfg0 kts w Hreg Hsn)
      as (r & h1 & vc & n & Ha & Hb & Hc & Hvc & _ & _).
    cbv zeta in Ha, Hb, Hc.
    set (wb := with_heap (with_heap (after w [EvGetModelConfig (VStr s) true]) h1)
                 (h1 ++ [[]])) in *.
    assert (Hhas : forall k b, tree_has k (vision_of kts) = Some b ->
                               Py.has k vc wb = (Ok b, wb)).
    { intros k b. apply (has_doc n wb vc). exact Hvc. }
    exists wb. unfold load_and_prepare_cfg.
    rewrite (st_bind_ok _ _ _ _ _ Ha), (st_bind_ok _ _ _ _ _ Hb), (st_bind_ok _ _ _ _ _ Hc).
    rewrite (st_bind_ok _ _ _ true wb).
    - apply st_bind_raise.
      rewrite (st_bind_ok _ _ _ _ _ (Hhas _ _ Htimm)).
      now rewrite (st_bind_ok _ _ _ _ _ (Hhas _ _ Hname)).
    - destruct pi; [reflexivity|]. destruct Hpre as [|Hpre]; [discriminate|].
      rewrite (st_bind_ok _ _ _ _ _ (Hhas _ _ Hname)). now apply Hhas. }
  destruct Hlap as (w' & Hlap). split; [now rewrite Hlap|].
  intros model_name pretrained precision device jit cache_dir Hnorm.
  unfold create_model. fold (normalize_name model_name). rewrite Hnorm.
  now rewrite (st_bind_raise _ _ _ _ _ Hlap).
Qed.

(** X13. With no override asked for, a configuration that names no image
    tower, no pretrained vision weights, no HuggingFace text model and has
    no 'custom_text' entry comes back from [load_and_prepare_cfg] as it is
    registered: the same name, a copy denoting the same document, no
    custom text tower and no image tower, after the one registry lookup. *)
Theorem load_and_prepare_cfg_plain E s cfg0 kts phf w :
  w_registry w !! s = Some cfg0 ->
  snapshot (max_depth E) (w_heap w) cfg0 = Some (TDict kts) ->
  tree_has "model_name" (vision_of kts) = Some false ->
  tree_has "pretrained" (vision_of kts) = Some false ->
  PyDict.get kts "custom_text" = None ->
  tree_has "hf_model_name" (text_of kts) = Some false ->
  exists cfg w1,
    load_and_prepare_cfg E (VStr s) false None false false phf w
    = (Ok (VStr s, cfg, false, VNone), w1) /\
    snapshot (max_depth E) (w_heap w1) cfg = Some (TDict kts) /\
    w_trace w1 = w_trace w ++ [EvGetModelConfig (VStr s) true] /\
    w_registry w1 = w_registry w.
Proof.
  intros Hreg Hsn Hname Hpre Hct Hhf.
  destruct (load_and_prepare_cfg_vision E s cfg0 kts w Hreg Hsn)
    as (r & h1 & vc & n & Ha & Hb & Hc & Hvc & Hs1 & _).
  cbv zeta in Ha, Hb, Hc.
  set (wa := with_heap (after w [EvGetModelConfig (VStr s) true]) h1) in *.
  set (wb := with_heap wa (h1 ++ [[]])) in *.
  set (wc := with_heap wb ((h1 ++ [[]]) ++ [[]])).
  assert (Hsb : snapshot (max_depth E) (w_heap wb) (VDict r) = Some (TDict kts))
    by (simpl; now apply snapshot_app).
  assert (Hsc : snapshot (max_depth E) (w_heap wc) (VDict r) = Some (TDict kts))
    by (simpl; now apply snapshot_app).
  assert (Hpop : Py.pop (VDict r) "custom_text" (VBool false) wb = (Ok (VBool false), wb)).
  { pose proof Hsb as Hx. apply snapshot_dict_inv in Hx as (n1 & r' & d & _ & [= <-] & Hr & Hd).
    pose proof (snap_items_get n1 _ d kts "custom_text" Hd) as Hg. rewrite Hct in Hg.
    rewrite pop_eq, Hr. now rewrite Hg. }
  destruct (get_or_snapshot (max_depth E) wc r kts "text_cfg"
              (VDict (List.length (w_heap wb)))) as (tc & m & Htc & Hstc);
    [exact Hsc|apply snapshot_new_dict|].
  exists (VDict r), wc. split; [|split; [exact Hsc|split; reflexivity]].
  unfold load_and_prepare_cfg.
  rewrite (st_bind_ok _ _ _ _ _ Ha), (st_bind_ok _ _ _ _ _ Hb), (st_bind_ok _ _ _ _ _ Hc).
  rewrite (st_bind_ok _ _ _ false wb).
  2:{ rewrite (st_bind_ok _ _ _ _ _ (has_doc n wb vc _ _ _ Hvc Hname)).
      exact (has_doc n wb vc _ _ _ Hvc Hpre). }
  rewrite (st_bind_ok _ _ _ (VStr s, VNone) wb) by reflexivity. cbv beta iota.
  rewrite (st_bind_ok _ _ _ tt wb) by reflexivity.
  rewrite (st_bind_ok _ _ _ tt wb) by reflexivity.
  rewrite (st_bind_ok _ _ _ _ _ Hpop).
  rewrite (st_bind_ok _ _ _ false wb) by reflexivity.
  rewrite (st_bind_ok _ _ _ false wc).
  2:{ rewrite (st_bind_ok _ _ _ _ _ (new_dict_eq [] wb)).
      rewrite (st_bind_ok _ _ _ _ _ Htc).
      exact (has_doc m wc tc _ _ _ Hstc Hhf). }
  reflexivity.
Qed.


(** ** [create_model], stage by stage *)

Lemma lp_step E precision (m : model_obj (VisualBody E) (ModelBody E)) w :
  (if String.eqb precision "fp16" || String.eqb precision "bf16" then
     let dt := if String.eqb precision "bf16" then bfloat16 else float16 in
     emit (EvConvertLP dt) ;; st_ret (convert_weights_to_lp E m dt)
   else st_ret m) w
  = (Ok (cast_precision E precision m), after w (lp_events precision)).
Proof.
  unfold cast_precision, lp_events.
  destruct (String.eqb_spec precision "fp16") as [->|H16]; [reflexivity|].
  destruct (String.eqb precision "bf16"); [reflexivity|].
  simpl. unfold st_ret. now rewrite after_nil.
Qed.

Lemma st_bind_assoc {S A B C} (m : ST S A) (f : A -> ST S B) (k : B -> ST S C) s :
  st_bind (st_bind m f) k s = st_bind m (fun a => st_bind (f a) k) s.
Proof. unfold st_bind. now destruct (m s) as [[a|e] s1]. Qed.

Lemma st_bind_ext {S A B} (m : ST S A) (f g : A -> ST S B) s :
  (forall a s', f a s' = g a s') -> st_bind m f s = st_bind m g s.
Proof. intros H. unfold st_bind. destruct (m s) as [[a|e] s1]; [apply H|reflexivity]. Qed.

Ltac step H := rewrite ?st_bind_assoc; rewrite (st_bind_ok _ _ _ _ _ H); cbv beta iota.

Lemma kwargs_dict r d w : w_heap w !! r = Some d -> Py.kwargs (VDict r) w = (Ok d, w).
Proof. intros H. simpl. now rewrite read_eq, H. Qed.

(** A successful tower test: the configuration named no tower, or a
    string. *)
Lemma extract_tower_run wt extract w w' :
  match wt with
  | VNone => st_ret false
  | w0 => let* l := Py.to_lower w0 in st_ret (String.eqb l "openai")
  end w = (Ok extract, w') ->
  extract = extract_tower wt /\ w' = w /\ (wt = VNone \/ exists s, wt = VStr s).
Proof.
  destruct wt; simpl; try discriminate; intros [= <- <-]; eauto 6.
Qed.

Lemma extract_tower_ok wt w :
  wt = VNone \/ (exists s, wt = VStr s) ->
  match wt with
  | VNone => st_ret false
  | w0 => let* l := Py.to_lower w0 in st_ret (String.eqb l "openai")
  end w = (Ok (extract_tower wt), w).
Proof. intros [->|(s & ->)]; reflexivity. Qed.

(** After the preparation, away from the pure-OpenAI path: the OpenAI
    model is loaded when its tower is wanted, the model class is
    instantiated unless 'cast_dtype' is a key of the configuration, the
    weights are loaded and the model is finished. *)
Lemma create_model_after_cfg E model_name pretrained precision device jit fqg fct
    fpd pi phf cache_dir w mn r d ct wt w1 :
  load_and_prepare_cfg E (VStr (normalize_name model_name)) fqg fpd pi fct phf w
  = (Ok (mn, VDict r, ct, wt), w1) ->
  w_heap w1 !! r = Some d ->
  wt = VNone \/ (exists s, wt = VStr s) ->
  is_pure_openai pretrained (extract_tower wt) = false ->
  let dev := device_of E device in
  let extract := extract_tower wt in
  let openai := if extract then [EvLoadOpenAI mn precision jit] else [] in
  let tower :=
    if extract then visual (load_openai_model E mn precision dev jit cache_dir)
    else None in
  let built := model_class E ct (w_heap w1) d (get_cast_dtype E precision) in
  create_model E model_name pretrained precision device jit fqg fct fpd pi phf
    cache_dir w
  = if PyDict.mem d "cast_dtype" then (Raise TypeError, after w1 openai)
    else
      st_bind
        (let* pm := load_requested_weights E built mn
                      (requested_weights pretrained wt) wt extract extract tower
                      cache_dir in
         finish_model E pm.2 pm.1 dev precision jit)
        return_model
        (after w1 (openai ++ [EvConstruct ct])).
Proof.
  intros H1 Hr Hwt Hpure dev extract openai tower built.
  unfold create_model. fold (normalize_name model_name).
  step H1. rewrite (st_bind_ok _ _ _ _ _ (extract_tower_ok wt w1 Hwt)). cbv zeta.
  fold (is_pure_openai pretrained (extract_tower wt)). rewrite Hpure.
  rewrite orb_false_r. simpl negb. cbv iota. fold (device_of E device). fold dev.
  fold extract.
  assert (Hopen :
    (if extract
     then emit (EvLoadOpenAI mn precision jit) ;;
          st_ret (Some (load_openai_model E mn precision dev jit cache_dir),
                  if extract
                  then visual (load_openai_model E mn precision dev jit cache_dir)
                  else None)
     else st_ret (None, None)) w1
    = (Ok (if extract
           then Some (load_openai_model E mn precision dev jit cache_dir)
           else None, tower), after w1 openai)).
  { subst tower openai. destruct extract; [reflexivity|].
    unfold st_ret. now rewrite after_nil. }
  rewrite (st_bind_ok _ _ _ _ _ Hopen). cbv beta iota.
  step (kwargs_dict _ _ (after w1 openai) Hr).
  destruct (PyDict.mem d "cast_dtype"); [reflexivity|].
  rewrite ?st_bind_assoc.
  rewrite (st_bind_ok _ _ _ tt (after w1 openai)) by reflexivity.
  rewrite ?st_bind_assoc.
  rewrite (st_bind_ok _ _ _ (w_heap w1) (after w1 openai)) by reflexivity.
  step (emit_after (EvConstruct ct) (after w1 openai)). rewrite after_after.
  assert (Hbuilt : (if ct then CustomTextCLIP E (w_heap w1) d (get_cast_dtype E precision)
                    else CLIP E (w_heap w1) d (get_cast_dtype E precision)) = built)
    by (unfold built, model_class; now destruct ct).
  rewrite Hbuilt. fold (requested_weights pretrained wt).
  unfold load_requested_weights, finish_model.
  rewrite ?st_bind_assoc.
  apply st_bind_ext. intros pt s1. rewrite ?st_bind_assoc.
  apply st_bind_ext. intros [pcfg path] s2. rewrite ?st_bind_assoc.
  apply st_bind_ext. intros ck s3. rewrite ?st_bind_assoc.
  apply st_bind_ext. intros m s4. reflexivity.
Qed.

Lemma truthy_after v w evs :
  Py.truthy v (after w evs) = ((Py.truthy v w).1, after w evs).
Proof.
  destruct v; try reflexivity. simpl. unfold st_bind. rewrite !read_eq.
  change (w_heap (after w evs)) with (w_heap w). now destruct (w_heap w !! r).
Qed.

Lemma or_default_after x d w evs :
  or_default x d (after w evs) = ((or_default x d w).1, after w evs).
Proof.
  unfold or_default, st_bind. rewrite truthy_after.
  pose proof (truthy_world x w) as Hw.
  destruct (Py.truthy x w) as [[b|e] w0]; reflexivity.
Qed.

Lemma or_default_run x d w r w' :
  or_default x d w = (r, w') -> w' = w /\ forall w0 evs, w = after w0 evs ->
  or_default x d w0 = (r, w0).
Proof.
  intros H. pose proof (or_default_world x d w) as Hw. rewrite H in Hw. simpl in Hw.
  subst w'. split; [reflexivity|]. intros w0 evs ->.
  rewrite or_default_after in H. injection H as <-.
  pose proof (or_default_world x d w0) as Hw0.
  destruct (or_default x d w0) as [r0 w0']. simpl in *. now subst.
Qed.

(** What [load_state_dict] returns does not depend on the world. *)
Lemma load_state_dict_any_world E path w sd w' :
  load_state_dict E path w = (Ok sd, w') ->
  w' = after w [EvTorchLoad path] /\
  forall w0, load_state_dict E path w0 = (Ok sd, after w0 [EvTorchLoad path]).
Proof.
  unfold load_state_dict, st_bind. rewrite emit_after.
  destruct (select_state_dict (torch_load E path)) as [|[|[k0 ?] ?]|]; try discriminate.
  destruct (PyStr.startswith k0 "module"); intros [= <- <-];
    (split; [reflexivity|]); intros w0; now rewrite emit_after.
Qed.

(** [load_checkpoint], when it returns. *)
Lemma load_checkpoint_ok E m path strict wt tower w r m' w' :
  load_checkpoint E m path strict wt tower w = (Ok (r, m'), w') ->
  exists calls,
    checkpoint_loaded E m path strict wt tower m' calls /\ w' = after w calls.
Proof.
  unfold load_checkpoint, checkpoint_loaded. destruct tower as [t|].
  - intros H. unfold st_bind in H. rewrite emit_after in H. unfold st_ret in H.
    injection H as _ <- <-. now exists [EvSetVisual].
  - intros H. apply st_bind_inv in H as (sd0 & w1 & Hsd & H).
    apply load_state_dict_any_world in Hsd as [-> Hany].
    fold (prepared_state_dict E sd0 m) in H.
    assert (Hvis :
      (let* v := get_visual E m in
       emit (EvLoadStateDict true strict) ;;
       (let '(incompatible_keys, v') :=
          visual_load_state_dict E v
            (PyDict.of_items
               (map (fun i => (PyStr.drop (PyStr.len "visual" + 1) i.1, i.2))
                  (List.filter (fun i => PyStr.startswith i.1 "visual")
                     (prepared_state_dict E sd0 m)))) strict in
        st_ret (Some incompatible_keys, set_visual E m v')))
        (after w [EvTorchLoad path]) = (Ok (r, m'), w') ->
      exists v,
        visual m = Some v /\
        m' = set_visual E m
               (visual_load_state_dict E v
                  (PyDict.of_items
                     (map (fun i => (PyStr.drop 7 i.1, i.2))
                        (List.filter (fun i => PyStr.startswith i.1 "visual")
                           (prepared_state_dict E sd0 m)))) strict).2 /\
        w' = after w [EvTorchLoad path; EvLoadStateDict true strict]).
    { intros Hv. apply st_bind_inv in Hv as (v & w2 & Hg & Hv).
      unfold get_visual in Hg. destruct (visual m) as [v0|]; [|discriminate].
      injection Hg as <- <-. exists v0. split; [reflexivity|].
      unfold st_bind in Hv. rewrite emit_after in Hv.
      change (PyStr.len "visual" + 1) with 7 in Hv.
      destruct (visual_load_state_dict E v0 _ strict) as [ik v'].
      injection Hv as _ <- <-. now rewrite after_after. }
    destruct wt;
      try (destruct (Hvis H) as (v & Hv & -> & ->);
           eexists; split; [exists sd0; split; [exact Hany|]; exists v; eauto|reflexivity]).
    unfold st_bind in H. rewrite emit_after in H.
    destruct (model_load_state_dict E m (prepared_state_dict E sd0 m) strict)
      as [ik m0] eqn:Hl.
    injection H as _ <- <-. eexists. split.
    + exists sd0. split; [exact Hany|]. cbv zeta. rewrite Hl. split; reflexivity.
    + now rewrite after_after.
Qed.

Lemma truthy_nonempty v w :
  v = VNone \/ (exists s, v = VStr s) -> Py.truthy v w = (Ok (nonempty v), w).
Proof. intros [->|(s & ->)]; reflexivity. Qed.

(** Lines 230 to 253, when they return. *)
Lemma load_requested_weights_ok E built mn req wt extract tower cache_dir w pcfg
    loaded w' :
  req = VNone \/ (exists s, req = VStr s) ->
  load_requested_weights E built mn req wt extract extract tower cache_dir w
  = (Ok (pcfg, loaded), w') ->
  exists calls,
    weights_loaded E built mn req wt extract tower cache_dir pcfg loaded calls /\
    w' = after w calls.
Proof.
  intros Hreq H. unfold load_requested_weights in H.
  rewrite (st_bind_ok _ _ _ _ _ (truthy_nonempty req w Hreq)) in H.
  apply st_bind_inv in H as ([found path] & w1 & Hf & H). cbv beta iota in H.
  unfold weights_loaded. cbv zeta.
  set (wanted := nonempty req && negb extract) in *.
  assert (Hfound :
    found = (if wanted then get_pretrained_cfg E mn req else []) /\
    path = (if wanted then
              match found with
              | _ :: _ => VStr (download_pretrained E found cache_dir)
              | [] => if os_path_exists E req then req else VNone
              end
            else VNone) /\
    w1 = after w (match found with _ :: _ => [EvDownloadPretrained] | [] => [] end)).
  { destruct wanted.
    - destruct (get_pretrained_cfg E mn req) as [|kv rest] eqn:Hcfg.
      + destruct (os_path_exists E req); injection Hf as <- <- <-;
          now rewrite after_nil.
      + unfold st_bind in Hf. rewrite emit_after in Hf. now injection Hf as <- <- <-.
    - injection Hf as <- <- <-. now rewrite after_nil. }
  destruct Hfound as (Hfd & Hpath & ->). clear Hf.
  assert (Hp : path = VNone \/ (exists s, path = VStr s)).
  { rewrite Hpath. destruct wanted; [|now left].
    destruct found; [|eauto].
    destruct (os_path_exists E req); [exact Hreq|now left]. }
  rewrite (st_bind_ok _ _ _ _ _ (truthy_nonempty path _ Hp)) in H.
  apply st_bind_inv in H as (m1 & w2 & Hm & H). injection H as <- <- <-.
  rewrite <- Hfd. rewrite <- Hpath.
  destruct (nonempty path || extract) eqn:Hload.
  - apply st_bind_inv in Hm as ([ik m'] & w3 & Hlc & Hm). injection Hm as <- <-.
    apply load_checkpoint_ok in Hlc as (calls & Hc & ->).
    exists (match found with _ :: _ => [EvDownloadPretrained] | [] => [] end ++ calls).
    split; [|now rewrite after_after].
    split; [reflexivity|]. exists calls. split; [exact Hc|].
    subst found. destruct wanted; reflexivity.
  - rewrite (st_bind_ok _ _ _ _ _ (truthy_nonempty req _ Hreq)) in Hm.
    destruct (nonempty req) eqn:Hne; [discriminate|]. injection Hm as <- <-.
    assert (found = []) as -> by (subst found wanted; reflexivity).
    exists []. split; [|now rewrite after_nil]. split; [reflexivity|]. now repeat split.
Qed.

(** The end of [create_model], when it returns. *)
Lemma finish_model_ok E (m : model_obj (VisualBody E) (ModelBody E))
    (pretrained_cfg : dict) device precision (jit : bool) w o w' :
  finish_model E m pretrained_cfg device precision jit w = (Ok o, w') ->
  exists mean std,
    (forall w0 evs, w = after w0 evs ->
       or_default (default VNone (PyDict.get pretrained_cfg "mean"))
         (OPENAI_DATASET_MEAN E) w0 = (Ok mean, w0) /\
       or_default (default VNone (PyDict.get pretrained_cfg "std"))
         (OPENAI_DATASET_STD E) w0 = (Ok std, w0)) /\
    let cast := cast_precision E precision (model_to E m device) in
    visual cast <> None /\
    o = Some (if jit
              then torch_jit_script E (set_image_stats E cast mean std)
              else set_image_stats E cast mean std) /\
    w' = after w ([EvToDevice] ++ lp_events precision ++ jit_events jit).
Proof.
  unfold finish_model. intros H.
  rewrite (st_bind_ok _ _ _ _ _ (emit_after EvToDevice w)) in H. cbv zeta in H.
  rewrite (st_bind_ok _ _ _ _ _ (lp_step E precision _ _)) in H.
  apply st_bind_inv in H as (mean & w1 & Hmean & H).
  apply or_default_run in Hmean as [-> Hmean].
  apply st_bind_inv in H as (v & w1 & Hv & H).
  unfold get_visual in Hv.
  destruct (visual (cast_precision E precision (model_to E m device))) as [v0|] eqn:Hvis;
    [|discriminate].
  injection Hv as <- <-.
  apply st_bind_inv in H as (std & w1 & Hstd & H).
  apply or_default_run in Hstd as [-> Hstd].
  apply st_bind_inv in H as (v2 & w2 & Hv2 & H). simpl in Hv2. injection Hv2 as <- <-.
  exists mean, std. split.
  { intros w0 evs ->. rewrite !after_after in Hmean, Hstd.
    split; [eapply Hmean|eapply Hstd]; reflexivity. }
  cbv zeta. split; [discriminate|].
  unfold set_image_stats. rewrite Hvis.
  destruct jit.
  - unfold st_bind in H. rewrite emit_after in H. injection H as <- <-.
    split; [reflexivity|]. now rewrite !after_after.
  - injection H as <- <-. split; [reflexivity|].
    rewrite !after_after. simpl jit_events. now rewrite app_nil_r.
Qed.

(** C2, as the code has it. A successful call first resolves and prepares
    the configuration (only registry lookups happen, the first one for the
    normalised name).  Away from the pure-OpenAI path these steps follow,
    in this order, each acting on the result of the one before:
    [load_openai_model], only when the configuration names 'openai' as its
    image tower; the instantiation of [CustomTextCLIP] or [CLIP] from the
    prepared configuration, which has no 'cast_dtype' key; the loading of
    the weights that were asked for ([weights_loaded]: the tower of the
    OpenAI model replaces [visual], or the checkpoint of the tag or at the
    path is read and loaded, or nothing is done); [model.to]; the precision
    cast; the image statistics; and [torch.jit.script] when [jit] is set.
    The model returned is the outcome of these steps, and the framework
    calls made are theirs. *)
Theorem create_model_linear_order E model_name pretrained precision device jit
    force_quick_gelu force_custom_text force_patch_dropout pretrained_image
    pretrained_hf cache_dir w m w' :
  create_model E model_name pretrained precision device jit force_quick_gelu
    force_custom_text force_patch_dropout pretrained_image pretrained_hf
    cache_dir w = (Ok m, w') ->
  exists model_name' model_cfg custom_text which_pretrained_image_tower w1 cfgs,
    load_and_prepare_cfg E (VStr (normalize_name model_name)) force_quick_gelu
      force_patch_dropout pretrained_image force_custom_text pretrained_hf w
    = (Ok (model_name', model_cfg, custom_text, which_pretrained_image_tower), w1) /\
    w_trace w1
    = w_trace w ++ EvGetModelConfig (VStr (normalize_name model_name)) true :: cfgs /\
    Forall (fun e => is_cfg_event e = true) cfgs /\
    (is_pure_openai pretrained (extract_tower which_pretrained_image_tower) = false ->
     let dev := device_of E device in
     let extract := extract_tower which_pretrained_image_tower in
     let openai := if extract then [EvLoadOpenAI model_name' precision jit] else [] in
     let tower :=
       if extract
       then visual (load_openai_model E model_name' precision dev jit cache_dir)
       else None in
     exists kw pretrained_cfg loaded loads mean std,
       Py.kwargs model_cfg w1 = (Ok kw, w1) /\
       PyDict.mem kw "cast_dtype" = false /\
       let built :=
         model_class E custom_text (w_heap w1) kw (get_cast_dtype E precision) in
       weights_loaded E built model_name'
         (requested_weights pretrained which_pretrained_image_tower)
         which_pretrained_image_tower extract tower cache_dir
         pretrained_cfg loaded loads /\
       or_default (default VNone (PyDict.get pretrained_cfg "mean"))
         (OPENAI_DATASET_MEAN E) w1 = (Ok mean, w1) /\
       or_default (default VNone (PyDict.get pretrained_cfg "std"))
         (OPENAI_DATASET_STD E) w1 = (Ok std, w1) /\
       let cast := cast_precision E precision (model_to E loaded dev) in
       m = (if jit
            then torch_jit_script E (set_image_stats E cast mean std)
            else set_image_stats E cast mean std) /\
       w_trace w'
       = w_trace w1 ++ openai ++ [EvConstruct custom_text] ++ loads
         ++ [EvToDevice] ++ lp_events precision ++ jit_events jit).
Proof.
  intros H. pose proof H as H0. unfold create_model in H0.
  fold (normalize_name model_name) in H0.
  apply st_bind_inv in H0 as ([[[mn cfg] ct] wt] & w1 & H1 & H0).
  cbv beta iota in H0. apply st_bind_inv in H0 as (extract & wx & Hx & _).
  apply extract_tower_run in Hx as (_ & _ & Hwt).
  destruct (load_and_prepare_cfg_trace _ _ _ _ _ _ _ _ _ _ H1) as (cfgs & Htr & Hcfgs).
  exists mn, cfg, ct, wt, w1, cfgs. split; [exact H1|]. split; [exact Htr|].
  split; [exact Hcfgs|]. intros Hpure dev extract' openai tower.
  destruct (load_and_prepare_cfg_dict _ _ _ _ _ _ _ _ _ _ _ _ _ H1) as (r & d & -> & Hr).
  rewrite (create_model_after_cfg _ _ _ _ _ _ _ _ _ _ _ _ _ _ _ _ _ _ _ H1 Hr Hwt Hpure)
    in H.
  cbv zeta in H. fold dev extract' openai tower in H.
  destruct (PyDict.mem d "cast_dtype") eqn:Hdup; [discriminate|].
  apply st_bind_inv in H as (o & wb & Hrun & Hret).
  apply st_bind_inv in Hrun as ([pcfg loaded] & wl & Hlw & Hfin). simpl in Hfin.
  apply load_requested_weights_ok in Hlw as (loads & Hloads & ->).
  2:{ destruct Hwt as [->|(s & ->)]; [|right; eauto].
      destruct pretrained; [right; eauto|now left]. }
  apply finish_model_ok in Hfin as (mean & std & Hstats & Hfin).
  cbv zeta in Hfin. destruct Hfin as (_ & -> & ->).
  simpl in Hret. injection Hret as <- <-.
  destruct (Hstats w1 _ (after_after _ _ _)) as [Hmean Hstd].
  exists d, pcfg, loaded, loads, mean, std.
  split; [now apply kwargs_dict|]. split; [exact Hdup|]. cbv zeta.
  split; [exact Hloads|]. split; [exact Hmean|]. split; [exact Hstd|].
  split; [reflexivity|].
  rewrite !after_after. unfold after. simpl. now rewrite <- !app_assoc.
Qed.

(** ** [create_model], path by path *)

(** The end of [create_model]: the move to the device, the cast, the image
    statistics and the jit wrapping. *)
Lemma create_model_tail E (m : model_obj (VisualBody E) (ModelBody E))
    (pretrained_cfg : dict) device precision (jit : bool) w v mean std :
  visual (cast_precision E precision (model_to E m device)) = Some v ->
  (forall w', or_default (default VNone (PyDict.get pretrained_cfg "mean"))
                (OPENAI_DATASET_MEAN E) w' = (Ok mean, w')) ->
  (forall w', or_default (default VNone (PyDict.get pretrained_cfg "std"))
                (OPENAI_DATASET_STD E) w' = (Ok std, w')) ->
  finish_model E m pretrained_cfg device precision jit w
  = (let m2 := set_image_stats E
                 (cast_precision E precision (model_to E m device)) mean std in
     (Ok (Some (if jit then torch_jit_script E m2 else m2)),
      after w ([EvToDevice] ++ lp_events precision ++ jit_events jit))).
Proof.
  intros Hv Hmean Hstd. unfold finish_model.
  rewrite (st_bind_ok _ _ _ _ _ (emit_after EvToDevice w)). cbv zeta.
  rewrite (st_bind_ok _ _ _ _ _ (lp_step E precision _ _)).
  rewrite (st_bind_ok _ _ _ _ _ (Hmean _)).
  rewrite (st_bind_ok _ _ _ v (after (after w [EvToDevice]) (lp_events precision)))
    by (unfold get_visual; now rewrite Hv).
  rewrite (st_bind_ok _ _ _ _ _ (Hstd _)).
  erewrite st_bind_ok by reflexivity. unfold set_image_stats. rewrite Hv.
  destruct jit.
  - rewrite (st_bind_ok _ _ _ _ _ (emit_after _ _)). unfold st_ret.
    rewrite !after_after. reflexivity.
  - unfold st_ret. rewrite !after_after. simpl jit_events. now rewrite app_nil_r.
Qed.

Lemma finish_model_no_visual E (m : model_obj (VisualBody E) (ModelBody E))
    (pretrained_cfg : dict) device precision (jit : bool) w mean :
  visual (cast_precision E precision (model_to E m device)) = None ->
  (forall w', or_default (default VNone (PyDict.get pretrained_cfg "mean"))
                (OPENAI_DATASET_MEAN E) w' = (Ok mean, w')) ->
  finish_model E m pretrained_cfg device precision jit w
  = (Raise AttributeError, after w ([EvToDevice] ++ lp_events precision)).
Proof.
  intros Hv Hmean. unfold finish_model.
  rewrite (st_bind_ok _ _ _ _ _ (emit_after EvToDevice w)). cbv zeta.
  rewrite (st_bind_ok _ _ _ _ _ (lp_step E precision _ _)).
  rewrite (st_bind_ok _ _ _ _ _ (Hmean _)).
  unfold st_bind at 1, get_visual. rewrite Hv. unfold raise. now rewrite after_after.
Qed.

Lemma lower_openai_nonempty s : PyStr.lower s = "openai" -> String.eqb s "" = false.
Proof. now destruct s. Qed.

(** X15. With [pretrained] spelling 'openai' in any letter case, and no
    OpenAI image tower asked for by the configuration, [create_model]
    returns what [load_openai_model] returns for the prepared name, the
    precision, the device and [jit]: it constructs no model of its own,
    moves and casts nothing, and sets no image statistics. *)
Theorem create_model_pure_openai E model_name p precision device jit fqg fct fpd
    pi phf cache_dir w mn cfg ct wt w1 :
  load_and_prepare_cfg E (VStr (normalize_name model_name)) fqg fpd pi fct phf w
  = (Ok (mn, cfg, ct, wt), w1) ->
  wt = VNone \/ (exists s, wt = VStr s /\ PyStr.lower s <> "openai") ->
  PyStr.lower p = "openai" ->
  create_model E model_name (Some p) precision device jit fqg fct fpd pi phf
    cache_dir w
  = (Ok (load_openai_model E mn precision (device_of E device) jit cache_dir),
     after w1 [EvLoadOpenAI mn precision jit]).
Proof.
  intros H1 Hwt Hp. unfold create_model. fold (normalize_name model_name).
  rewrite (st_bind_ok _ _ _ _ _ H1). cbv beta iota.
  rewrite (st_bind_ok _ _ _ false w1).
  2:{ destruct Hwt as [->|(s & -> & Hs)]; [reflexivity|].
      simpl. unfold st_bind, st_ret. simpl. f_equal. f_equal.
      now apply String.eqb_neq. }
  cbv zeta. rewrite (lower_openai_nonempty _ Hp), Hp. simpl negb. simpl andb. simpl orb.
  cbv iota.
  rewrite (st_bind_ok _ _ _ _ _
             (st_bind_ok _ _ _ _ _ (emit_after (EvLoadOpenAI mn precision jit) w1))).
  cbv beta iota. erewrite st_bind_ok by reflexivity. reflexivity.
Qed.

(** Nothing asked for: no checkpoint is looked for and none is loaded. *)
Lemma load_requested_weights_none E (m : model_obj (VisualBody E) (ModelBody E))
    mn pretrained cache_dir w :
  pretrained = None \/ pretrained = Some "" ->
  load_requested_weights E m mn (requested_weights pretrained VNone) VNone false
    false None cache_dir w
  = (Ok ([], m), w).
Proof. intros [->| ->]; reflexivity. Qed.

(** The tower of the OpenAI model is installed, and no file is read. *)
Lemma load_requested_weights_openai E (m : model_obj (VisualBody E) (ModelBody E))
    mn pretrained s tower cache_dir w :
  PyStr.lower s = "openai" ->
  load_requested_weights E m mn (requested_weights pretrained (VStr s)) (VStr s)
    true true (Some tower) cache_dir w
  = (Ok ([], set_visual E m tower), after w [EvSetVisual]).
Proof.
  intros Hs. unfold load_requested_weights, requested_weights.
  step (truthy_str s w). rewrite andb_false_r. cbv iota.
  rewrite (st_bind_ok _ _ _ ([], VNone) w) by reflexivity. cbv beta iota.
  rewrite (st_bind_ok _ _ _ false w) by reflexivity. simpl orb. cbv iota.
  reflexivity.
Qed.

(** X16. Without [pretrained] (none given, or the empty string) and with
    no image tower named by the configuration, [create_model] instantiates
    [CustomTextCLIP] when the prepared configuration asks for a custom text
    tower and [CLIP] otherwise, with the prepared configuration as keyword
    arguments, loads no weights, moves the model to the device, casts it,
    and sets the image statistics to the OpenAI dataset's; it raises
    [AttributeError] when the model has no [visual].  A prepared
    configuration with a 'cast_dtype' key cannot be instantiated:
    [cast_dtype] would be given twice, and the call raises [TypeError]
    before any model is constructed. *)
Theorem create_model_without_pretrained E model_name pretrained precision device
    jit fqg fct fpd pi phf cache_dir w mn cfg ct w1 :
  load_and_prepare_cfg E (VStr (normalize_name model_name)) fqg fpd pi fct phf w
  = (Ok (mn, cfg, ct, VNone), w1) ->
  pretrained = None \/ pretrained = Some "" ->
  exists kw,
    Py.kwargs cfg w1 = (Ok kw, w1) /\
    (PyDict.mem kw "cast_dtype" = true ->
     create_model E model_name pretrained precision device jit fqg fct fpd pi
       phf cache_dir w
     = (Raise TypeError, w1)) /\
    (PyDict.mem kw "cast_dtype" = false ->
     let built := model_class E ct (w_heap w1) kw (get_cast_dtype E precision) in
     let cast := cast_precision E precision (model_to E built (device_of E device)) in
     let m2 := set_image_stats E cast (OPENAI_DATASET_MEAN E) (OPENAI_DATASET_STD E) in
     (visual cast <> None ->
      create_model E model_name pretrained precision device jit fqg fct fpd pi
        phf cache_dir w
      = (Ok (if jit then torch_jit_script E m2 else m2),
         after w1 ([EvConstruct ct; EvToDevice] ++ lp_events precision
                   ++ jit_events jit))) /\
     (visual cast = None ->
      (create_model E model_name pretrained precision device jit fqg fct fpd pi
         phf cache_dir w).1 = Raise AttributeError)).
Proof.
  intros H1 Hpre.
  destruct (load_and_prepare_cfg_dict _ _ _ _ _ _ _ _ _ _ _ _ _ H1) as (r & d & -> & Hr).
  exists d. split; [now apply kwargs_dict|].
  assert (Hpure : is_pure_openai pretrained (extract_tower VNone) = false)
    by (destruct Hpre as [->| ->]; reflexivity).
  pose proof (create_model_after_cfg E model_name pretrained precision device jit fqg
                fct fpd pi phf cache_dir w mn r d ct VNone w1 H1 Hr (or_introl eq_refl)
                Hpure) as Heq.
  cbv zeta in Heq. simpl extract_tower in Heq. cbv iota in Heq.
  rewrite after_nil in Heq. simpl app in Heq. rewrite Heq. clear Heq.
  split; [now intros ->|]. intros -> built cast m2.
  rewrite st_bind_assoc.
  rewrite (st_bind_ok _ _ _ _ _ (load_requested_weights_none E _ mn pretrained cache_dir
                                   _ Hpre)).
  cbv beta. simpl fst. simpl snd. fold built. split.
  - intros Hv. destruct (visual cast) as [v|] eqn:Hvis; [|contradiction].
    rewrite (st_bind_ok _ _ _ _ _
               (create_model_tail E built [] (device_of E device) precision jit
                  (after w1 [EvConstruct ct]) v (OPENAI_DATASET_MEAN E)
                  (OPENAI_DATASET_STD E) Hvis (fun _ => eq_refl) (fun _ => eq_refl))).
    simpl return_model. unfold st_ret. now rewrite after_after.
  - intros Hvis.
    now rewrite (st_bind_raise _ _ _ _ _
                   (finish_model_no_visual E built [] (device_of E device) precision jit
                      (after w1 [EvConstruct ct]) (OPENAI_DATASET_MEAN E) Hvis
                      (fun _ => eq_refl))).
Qed.

(** X17. When the prepared configuration names 'openai' (in any letter
    case) as its image tower, [pretrained] plays no part: every value of
    it gives the same run.  [load_openai_model] is called for the prepared
    name; with a 'cast_dtype' key in the prepared configuration the
    instantiation then raises [TypeError]; otherwise the model is
    instantiated from the prepared configuration, the [visual] of the
    OpenAI model, when it has one, replaces the [visual] of the new model,
    no checkpoint is read, and the model is finished as usual with the
    OpenAI image statistics. *)
Theorem create_model_openai_image_tower E model_name precision device jit fqg fct
    fpd pi phf cache_dir w mn cfg ct s w1 :
  load_and_prepare_cfg E (VStr (normalize_name model_name)) fqg fpd pi fct phf w
  = (Ok (mn, cfg, ct, VStr s), w1) ->
  PyStr.lower s = "openai" ->
  (forall pretrained pretrained',
     create_model E model_name pretrained precision device jit fqg fct fpd pi phf
       cache_dir w
     = create_model E model_name pretrained' precision device jit fqg fct fpd pi
         phf cache_dir w) /\
  exists kw,
    Py.kwargs cfg w1 = (Ok kw, w1) /\
    (PyDict.mem kw "cast_dtype" = true ->
     forall pretrained,
       create_model E model_name pretrained precision device jit fqg fct fpd pi phf
         cache_dir w
       = (Raise TypeError, after w1 [EvLoadOpenAI mn precision jit])) /\
    (PyDict.mem kw "cast_dtype" = false ->
     forall pretrained tower,
       visual (load_openai_model E mn precision (device_of E device) jit cache_dir)
       = Some tower ->
       let built := model_class E ct (w_heap w1) kw (get_cast_dtype E precision) in
       create_model E model_name pretrained precision device jit fqg fct fpd pi phf
         cache_dir w
       = st_bind
           (finish_model E (set_visual E built tower) [] (device_of E device)
              precision jit)
           return_model
           (after w1 [EvLoadOpenAI mn precision jit; EvConstruct ct; EvSetVisual])).
Proof.
  intros H1 Hs.
  destruct (load_and_prepare_cfg_dict _ _ _ _ _ _ _ _ _ _ _ _ _ H1) as (r & d & -> & Hr).
  assert (Hext : extract_tower (VStr s) = true) by (simpl; now rewrite Hs).
  assert (Hpure : forall pretrained : option string,
            is_pure_openai pretrained (extract_tower (VStr s)) = false)
    by (intros [p|]; rewrite Hext; [apply andb_false_r|reflexivity]).
  assert (Heq := fun pretrained =>
    create_model_after_cfg E model_name pretrained precision device jit fqg fct fpd pi
      phf cache_dir w mn r d ct (VStr s) w1 H1 Hr (or_intror (ex_intro _ s eq_refl))
      (Hpure pretrained)).
  cbv zeta in Heq. rewrite Hext in Heq. simpl app in Heq.
  split; [intros p p'; now rewrite (Heq p), (Heq p')|].
  exists d. split; [now apply kwargs_dict|]. split.
  - intros Hdup pretrained. now rewrite Heq, Hdup.
  - intros Hdup pretrained tower Htower built. rewrite Heq, Hdup, Htower.
    rewrite st_bind_assoc. fold built.
    rewrite (st_bind_ok _ _ _ _ _
               (load_requested_weights_openai E built mn pretrained s tower cache_dir
                  _ Hs)).
    cbv beta. simpl fst. simpl snd. now rewrite after_after.
Qed.

(** X18. With no 'cast_dtype' key in the prepared configuration, a
    [pretrained] that is not 'openai' and names a pretrained configuration
    of the prepared model, or else an existing file, makes [create_model]
    instantiate the model and load into it, with [strict=True] and no image
    tower, the checkpoint at the downloaded path, or else at [pretrained]
    itself; the model is then finished with the image statistics of the
    pretrained configuration.  With a 'cast_dtype' key the instantiation
    raises [TypeError] and no checkpoint is looked for. *)
Theorem create_model_loads_checkpoint E model_name p precision device jit fqg fct
    fpd pi phf cache_dir w mn cfg ct w1 :
  load_and_prepare_cfg E (VStr (normalize_name model_name)) fqg fpd pi fct phf w
  = (Ok (mn, cfg, ct, VNone), w1) ->
  PyStr.lower p <> "openai" ->
  let pretrained_cfg := get_pretrained_cfg E mn (VStr p) in
  let checkpoint_path :=
    match pretrained_cfg with
    | [] => p
    | _ :: _ => download_pretrained E pretrained_cfg cache_dir
    end in
  pretrained_cfg <> [] \/ os_path_exists E (VStr p) = true ->
  p <> "" -> checkpoint_path <> "" ->
  exists kw,
    Py.kwargs cfg w1 = (Ok kw, w1) /\
    (PyDict.mem kw "cast_dtype" = true ->
     create_model E model_name (Some p) precision device jit fqg fct fpd pi phf
       cache_dir w
     = (Raise TypeError, w1)) /\
    (PyDict.mem kw "cast_dtype" = false ->
     let built := model_class E ct (w_heap w1) kw (get_cast_dtype E precision) in
     create_model E model_name (Some p) precision device jit fqg fct fpd pi phf
       cache_dir w
     = st_bind
         (let* (_, m) := load_checkpoint E built (VStr checkpoint_path) true VNone None in
          finish_model E m pretrained_cfg (device_of E device) precision jit)
         return_model
         (after w1 (EvConstruct ct ::
                    match pretrained_cfg with
                    | [] => []
                    | _ :: _ => [EvDownloadPretrained]
                    end))).
Proof.
  intros H1 Hp pretrained_cfg checkpoint_path Hfound Hne Hpath.
  destruct (load_and_prepare_cfg_dict _ _ _ _ _ _ _ _ _ _ _ _ _ H1) as (r & d & -> & Hr).
  exists d. split; [now apply kwargs_dict|].
  apply String.eqb_neq in Hp, Hne, Hpath.
  assert (Hpure : is_pure_openai (Some p) (extract_tower VNone) = false)
    by (simpl; now rewrite Hp, andb_false_r).
  pose proof (create_model_after_cfg E model_name (Some p) precision device jit fqg
                fct fpd pi phf cache_dir w mn r d ct VNone w1 H1 Hr (or_introl eq_refl)
                Hpure) as Heq.
  cbv zeta in Heq. simpl extract_tower in Heq. cbv iota in Heq.
  rewrite after_nil in Heq. simpl app in Heq. rewrite Heq. clear Heq.
  split; [now intros ->|]. intros -> built. fold built.
  unfold load_requested_weights, requested_weights, Py.of_opt_str.
  step (truthy_str p (after w1 [EvConstruct ct])). rewrite Hne. simpl negb. simpl andb.
  cbv iota. fold pretrained_cfg.
  subst checkpoint_path. destruct pretrained_cfg as [|kv rest] eqn:Hcfg.
  - destruct Hfound as [|Hexists]; [contradiction|]. rewrite Hexists.
    rewrite ?st_bind_assoc.
    rewrite (st_bind_ok _ _ _ ([], VStr p) (after w1 [EvConstruct ct])) by reflexivity.
    cbv beta iota.
    step (truthy_str p (after w1 [EvConstruct ct])). rewrite Hne. simpl negb. simpl orb.
    cbv iota. rewrite ?st_bind_assoc. apply st_bind_ext. now intros [ik m'] s'.
  - rewrite ?st_bind_assoc. step (emit_after EvDownloadPretrained (after w1 [EvConstruct ct])).
    rewrite ?st_bind_assoc. erewrite st_bind_ok by reflexivity. cbv beta iota.
    step (truthy_str (download_pretrained E (kv :: rest) cache_dir)
            (after (after w1 [EvConstruct ct]) [EvDownloadPretrained])).
    rewrite Hpath. simpl negb. simpl orb. cbv iota. rewrite ?st_bind_assoc.
    rewrite after_after. apply st_bind_ext. now intros [ik m'] s'.
Qed.

(** X19. [create_model_from_pretrained] agrees with
    [create_model_and_transforms]: for a [pretrained] that is a known tag
    or an existing file, whenever the latter returns a model and its two
    transforms, the former returns that model with the validation
    transform, and that model alone when no transform is asked for. *)
Theorem create_model_from_pretrained_agrees E model_name p precision device jit
    fqg fct image_mean image_std cache_dir w m preprocess_train preprocess_val w' :
  is_pretrained_cfg E model_name p = true \/ os_path_exists E (VStr p) = true ->
  create_model_and_transforms E model_name (Some p) precision device jit fqg fct
    None false true image_mean image_std cache_dir w
  = (Ok (m, preprocess_train, preprocess_val), w') ->
  (exists w2,
     create_model_from_pretrained E model_name p precision device jit fqg fct
       true image_mean image_std cache_dir w
     = (Ok (inr (m, preprocess_val)), w2)) /\
  (exists w1,
     create_model_from_pretrained E model_name p precision device jit fqg fct
       false image_mean image_std cache_dir w
     = (Ok (inl m), w1)).
Proof.
  intros Hvalid H. unfold create_model_and_transforms in H.
  apply st_bind_inv in H as (m0 & w1 & Hm & H).
  apply st_bind_inv in H as (mean & w2 & Hmean & H).
  apply st_bind_inv in H as (std & w3 & Hstd & H).
  apply st_bind_inv in H as (v & w4 & Hv & H).
  apply st_bind_inv in H as ([] & w5 & _ & H).
  apply st_bind_inv in H as (v' & w6 & Hv' & H).
  apply st_bind_inv in H as ([] & w7 & _ & H).
  injection H as <- _ <- _.
  assert (v' = v) as ->.
  { unfold get_visual, st_ret in Hv, Hv'. destruct (visual m0); [|discriminate]. congruence. }
  rewrite or_visual_attr_eq in Hmean, Hstd.
  assert (Hvis : visual m0 = Some v /\ w4 = w3)
    by (unfold get_visual in Hv; destruct (visual m0); now inversion Hv).
  destruct Hvis as [Hvis ->].
  assert (w2 = w1) as -> by (destruct image_mean as [[|]|]; rewrite ?Hvis in Hmean; congruence).
  assert (w3 = w1) as -> by (destruct image_std as [[|]|]; rewrite ?Hvis in Hstd; congruence).
  assert (Hcheck : negb (is_pretrained_cfg E model_name p)
                   && negb (os_path_exists E (VStr p)) = false).
  { destruct Hvalid as [-> | ->]; [reflexivity|apply andb_false_r]. }
  split.
  - eexists. unfold create_model_from_pretrained. rewrite Hcheck.
    rewrite (st_bind_ok _ _ _ _ _ Hm). cbv beta. change (negb true) with false. cbv iota.
    rewrite (st_bind_ok _ _ _ mean w1) by (now rewrite or_visual_attr_eq).
    rewrite (st_bind_ok _ _ _ std w1) by (now rewrite or_visual_attr_eq).
    rewrite (st_bind_ok _ _ _ _ _ Hv).
    rewrite (st_bind_ok _ _ _ _ _ (emit_after _ _)). reflexivity.
  - eexists. unfold create_model_from_pretrained. rewrite Hcheck.
    rewrite (st_bind_ok _ _ _ _ _ Hm). reflexivity.
Qed.

(** ** The lookup [create_model] makes *)

Lemma get_cfg_and_handle_error_found E s w cfg0 :
  w_registry w !! s = Some cfg0 ->
  w_trace (get_cfg_and_handle_error E (VStr s) w).2
  = w_trace w ++ [EvGetModelConfig (VStr s) true].
Proof.
  intros Hreg.
  unfold get_cfg_and_handle_error, get_model_config, get_registry, st_bind. simpl.
  rewrite Hreg. simpl. unfold deepcopy, lift_heap. simpl.
  destruct (deepcopy_rec (max_depth E) cfg0 (w_heap w)) as [[c'|e] h']; [|reflexivity].
  destruct c'; reflexivity.
Qed.

(** Whatever its outcome, the preparation starts with the lookup of the
    name it is given. *)
Lemma load_and_prepare_cfg_found E s fqg fpd pi fct phf w cfg0 :
  w_registry w !! s = Some cfg0 ->
  exists cfgs,
    w_trace (load_and_prepare_cfg E (VStr s) fqg fpd pi fct phf w).2
    = w_trace w ++ EvGetModelConfig (VStr s) true :: cfgs.
Proof.
  intros Hreg. pose proof (get_cfg_and_handle_error_found E s w cfg0 Hreg) as Htr.
  destruct (preserves_get_cfg_and_handle_error E any_event w 0 (VStr s)
              (fun _ _ => eq_refl) w (inv_refl _ w)) as [Ia Qa].
  unfold load_and_prepare_cfg. unfold st_bind at 1.
  destruct (get_cfg_and_handle_error E (VStr s) w) as [[model_cfg|e] wa] eqn:Ha;
    simpl in Htr, Ia, Qa.
  2:{ exists []. exact Htr. }
  specialize (Qa _ eq_refl).
  set (base := {| w_heap := w_heap w; w_registry := w_registry w;
                  w_trace := w_trace wa |}).
  assert (Ib : inv any_event base 0 wa).
  { destruct Ia as (Hr & Hl & He & _). split; [exact Hr|]. split; [exact Hl|].
    split; [exact He|]. exists []. simpl. split; [now rewrite app_nil_r|constructor]. }
  match goal with |- context [(?m wa).2] =>
    assert (Hp : preserves (inv any_event base 0) m (fun _ => True)) end.
  { change (fresh_val (List.length (w_heap base)) model_cfg = true) in Qa. pres. }
  destruct (Hp wa Ib) as [(_ & _ & _ & evs & Hevs & _) _].
  exists evs. rewrite Hevs. simpl. rewrite Htr. now rewrite <- app_assoc.
Qed.

(** And so does [create_model], with the normalised name. *)
Lemma create_model_found E model_name pretrained precision device jit fqg fct fpd pi
    phf cache_dir w cfg0 :
  w_registry w !! normalize_name model_name = Some cfg0 ->
  exists rest,
    w_trace (create_model E model_name pretrained precision device jit fqg fct fpd
               pi phf cache_dir w).2
    = w_trace w ++ EvGetModelConfig (VStr (normalize_name model_name)) true :: rest.
Proof.
  intros Hreg.
  destruct (load_and_prepare_cfg_found E _ fqg fpd pi fct phf w cfg0 Hreg)
    as (cfgs & Htr).
  unfold create_model. fold (normalize_name model_name). unfold st_bind at 1.
  destruct (load_and_prepare_cfg E (VStr (normalize_name model_name)) fqg fpd pi fct
              phf w) as [[[[[mn cfg] ct] wt]|e] w1] eqn:H1; simpl in Htr.
  2:{ now exists cfgs. }
  match goal with |- context [(?m w1).2] =>
    assert (Hp : preserves (inv any_event w1 0) m (fun _ => True)) end.
  { pres. }
  destruct (Hp w1 (inv_refl _ w1)) as [(_ & _ & _ & evs & Hevs & _) _].
  exists (cfgs ++ evs). rewrite Hevs, Htr. now rewrite <- app_assoc.
Qed.

(** C9. [create_model] replaces every '/' of its [model_name] by '-' before
    any lookup: the replacement leaves no '/' and is idempotent, calling
    with the already-replaced name is the same computation, and the
    registry is asked for the replaced name, never for the name as given.
    Whatever the outcome of the call, the first thing it does is that
    lookup, which succeeds exactly when the replaced name is registered;
    when it is not, the call raises the [RuntimeError] that names the
    replaced name, whether or not the name as given is registered. *)
Theorem create_model_normalizes_name E model_name pretrained precision device
    jit force_quick_gelu force_custom_text force_patch_dropout
    pretrained_image pretrained_hf cache_dir :
  let name := normalize_name model_name in
  PyStr.contains "/" name = false /\
  normalize_name name = name /\
  create_model E name pretrained precision device jit
    force_quick_gelu force_custom_text force_patch_dropout pretrained_image
    pretrained_hf cache_dir
  = create_model E model_name pretrained precision device jit
      force_quick_gelu force_custom_text force_patch_dropout pretrained_image
      pretrained_hf cache_dir /\
  forall w,
    let run := create_model E model_name pretrained precision device jit
                 force_quick_gelu force_custom_text force_patch_dropout
                 pretrained_image pretrained_hf cache_dir w in
    (exists rest,
       w_trace run.2
       = w_trace w
         ++ EvGetModelConfig (VStr name) (bool_decide (is_Some (w_registry w !! name)))
            :: rest) /\
    (w_registry w !! name = None ->
     run = (Raise (RuntimeError ("Model config for " +:+ name +:+ " not found.")),
            after w [EvGetModelConfig (VStr name) false])).
Proof.
  intros name.
  split; [apply normalize_name_no_slash|]. split; [apply normalize_name_idem|].
  split.
  { unfold create_model. fold (normalize_name model_name).
    fold (normalize_name name). unfold name. now rewrite normalize_name_idem. }
  intros w run.
  assert (Hnone : w_registry w !! name = None ->
            run = (Raise (RuntimeError ("Model config for " +:+ name +:+ " not found.")),
                   after w [EvGetModelConfig (VStr name) false])).
  { intros Hreg. unfold run, create_model. fold (normalize_name model_name). fold name.
    erewrite st_bind_raise by (apply load_and_prepare_cfg_unknown; exact Hreg).
    reflexivity. }
  split; [|exact Hnone].
  destruct (w_registry w !! name) as [cfg0|] eqn:Hreg.
  - rewrite bool_decide_eq_true_2 by eauto.
    exact (create_model_found E model_name pretrained precision device jit
             force_quick_gelu force_custom_text force_patch_dropout pretrained_image
             pretrained_hf cache_dir w cfg0 Hreg).
  - rewrite bool_decide_eq_false_2 by (intros [? [=]]).
    exists []. now rewrite (Hnone eq_refl).
Qed.

(** ** What the steps of [load_and_prepare_cfg] leave in place *)

Lemma holds_survives k x :
  k <> "timm_model_pretrained" -> k <> "vision_cfg" -> k <> "quick_gelu" ->
  k <> "patch_dropout" -> k <> "custom_text" ->
  survives (holds k x).
Proof.
  intros H1 H2 H3 H4 H5. split.
  - intros d k' x' Hk Hd. unfold holds. rewrite dict_get_set_ne; [exact Hd|].
    destruct Hk as [-> | [-> | [-> | ->]]]; congruence.
  - intros d Hd. unfold holds. rewrite dict_get_del_ne; [exact Hd|congruence].
Qed.

Lemma steps_keep E (r : loc) (P : dict -> Prop) (cfg name : value) (fqg : bool)
    (fpd : option (Z * Z)) (pi : bool) (vision_cfg : value) wa dflt wb (pimg : bool)
    wd (mn wt : value) we wf wg popped wh :
  survives P ->
  Py.new_dict [] wa = (Ok dflt, wb) ->
  (if pi then st_ret true
   else let* has_name := Py.has "model_name" vision_cfg in
        if has_name then st_ret true else Py.has "pretrained" vision_cfg) wb
  = (Ok pimg, wd) ->
  (if pimg then
     let* is_timm := Py.has "timm_model_name" vision_cfg in
     if is_timm then
       let* vc := Py.getitem cfg "vision_cfg" in
       Py.setitem vc "timm_model_pretrained" (VBool true) ;;
       st_ret (name, VNone)
     else
       let* has_name := Py.has "model_name" vision_cfg in
       if has_name then
         let* pretrained_image_model_name := Py.get_or vision_cfg "model_name" VNone in
         let* pretrained_image_model_cfg :=
           get_cfg_and_handle_error E pretrained_image_model_name in
         let* which := Py.get_or vision_cfg "pretrained" (VStr "openai") in
         let* vc := Py.getitem pretrained_image_model_cfg "vision_cfg" in
         Py.setitem cfg "vision_cfg" vc ;;
         st_ret (pretrained_image_model_name, which)
       else
         raise (AssertionError
                  "Unintended logic triggered, please debug or implement this block.")
   else st_ret (name, VNone)) wd = (Ok (mn, wt), we) ->
  (if fqg then Py.setitem cfg "quick_gelu" (VBool true) else st_ret tt) we
  = (Ok tt, wf) ->
  match fpd with
  | Some p => (let* vc := Py.getitem cfg "vision_cfg" in
               Py.setitem vc "patch_dropout" (VFloat p.1 p.2)) wf
  | None => (Ok tt, wf)
  end = (Ok tt, wg) ->
  Py.pop cfg "custom_text" (VBool false) wg = (Ok popped, wh) ->
  dict_inv r P wa -> dict_inv r P wh.
Proof.
  intros [Hset Hdel] Hb Hd He Hf Hg Hh I0.
  assert (Ib : dict_inv r P wb)
    by (eapply (preserves_run (dict_inv r P)); [|exact Hb|exact I0]; apply dinv_new_dict).
  assert (Id : dict_inv r P wd).
  { eapply (preserves_run (dict_inv r P)); [|exact Hd|exact Ib].
    dpres ltac:(idtac; fail). }
  assert (Ie : dict_inv r P we).
  { eapply (preserves_run (dict_inv r P)); [|exact He|exact Id].
    dpres ltac:(intros; apply Hset; [tauto|assumption]). }
  assert (If : dict_inv r P wf).
  { eapply (preserves_run (dict_inv r P)); [|exact Hf|exact Ie].
    dpres ltac:(intros; apply Hset; [tauto|assumption]). }
  assert (Ig : dict_inv r P wg).
  { destruct fpd as [p|].
    - eapply (preserves_run (dict_inv r P)); [|exact Hg|exact If].
      dpres ltac:(intros; apply Hset; [tauto|assumption]).
    - injection Hg as <-. exact If. }
  eapply (preserves_run (dict_inv r P)); [|exact Hh|exact Ig].
  apply dinv_pop. exact Hdel.
Qed.

Lemma dict_inv_has r k x w :
  dict_inv r (holds k x) w -> Py.has k (VDict r) w = (Ok true, w).
Proof.
  intros (d & Hr & Hd). rewrite (contains_dict_eq _ _ _ _ Hr).
  unfold PyDict.mem. unfold holds in Hd. now rewrite Hd.
Qed.

Lemma dict_inv_get_or r k x dflt w :
  dict_inv r (holds k x) w -> Py.get_or (VDict r) k dflt w = (Ok x, w).
Proof. intros (d & Hr & Hd). rewrite get_eq, Hr. unfold holds in Hd. now rewrite Hd. Qed.

Lemma dict_inv_alloc r P w d0 :
  dict_inv r P w -> dict_inv r P (with_heap w (w_heap w ++ [d0])).
Proof.
  intros (d & Hr & Hd). exists d. split; [|exact Hd]. now apply lookup_app_l_Some.
Qed.

(** A registered document with a dictionary under [k]: what the copy
    holds. *)
Lemma copy_holds n h r kts k sub :
  snapshot n h (VDict r) = Some (TDict kts) ->
  PyDict.get kts k = Some (TDict sub) ->
  exists rs ds m,
    (exists d, h !! r = Some d /\ holds k (VDict rs) d) /\
    h !! rs = Some ds /\
    Forall2 (fun kv kt => snap_item m h kv = Some kt) ds sub.
Proof.
  intros Hs Hk. apply snapshot_dict_inv in Hs as (n1 & r' & d & _ & [= <-] & Hr & Hd).
  pose proof (snap_items_get n1 h d kts k Hd) as Hg. rewrite Hk in Hg.
  destruct Hg as (v & Hgv & Hsv).
  apply snapshot_dict_inv in Hsv as (n2 & rs & ds & _ & -> & Hrs & Hds).
  exists rs, ds, n2. split; [now exists d|]. now split.
Qed.

(** X20. A configuration whose text part names a HuggingFace model is
    prepared with a custom text tower, whatever [force_custom_text] and the
    popped 'custom_text' say, and its text part gets
    'hf_model_pretrained' set to [pretrained_hf]. *)
Theorem load_and_prepare_cfg_hf_text E s cfg0 kts tk hf fqg fpd pi fct phf w
    mn cfg ct wt w1 :
  w_registry w !! s = Some cfg0 ->
  snapshot (max_depth E) (w_heap w) cfg0 = Some (TDict kts) ->
  PyDict.get kts "text_cfg" = Some (TDict tk) ->
  PyDict.get tk "hf_model_name" = Some hf ->
  load_and_prepare_cfg E (VStr s) fqg fpd pi fct phf w = (Ok (mn, cfg, ct, wt), w1) ->
  ct = true /\
  (let* tc := Py.getitem cfg "text_cfg" in Py.getitem tc "hf_model_pretrained") w1
  = (Ok (VBool phf), w1).
Proof.
  intros Hreg Hsn Htext Hhf H. apply load_and_prepare_cfg_steps in H
    as (wa & dflt & wb & vision_cfg & pimg & wd & we & wf & wg & popped & wh
        & Ha & Hb & Hc & Hd & He & Hf & Hg & Hh & Hrest).
  destruct (get_cfg_and_handle_error_known E s cfg0 _ w Hreg Hsn)
    as (r & h1 & d & Ha' & Hs1 & Hr & _ & _).
  rewrite Ha' in Ha. injection Ha as <- <-.
  destruct (copy_holds _ _ _ _ _ _ Hs1 Htext) as (rt & dt & m & Hcfg & Hrt & Hdt).
  pose proof (snap_items_get m h1 dt tk "hf_model_name" Hdt) as Hg'. rewrite Hhf in Hg'.
  destruct Hg' as (x & Hx & _).
  set (wa := with_heap (after w [EvGetModelConfig (VStr s) true]) h1) in *.
  assert (Ir : dict_inv r (holds "text_cfg" (VDict rt)) wh).
  { eapply (steps_keep E r); eauto. apply holds_survives; discriminate. }
  assert (It : dict_inv rt (holds "hf_model_name" x) wh).
  { eapply (steps_keep E rt); eauto; [apply holds_survives; discriminate|]. now exists dt. }
  clear Ha' Hb Hc Hd He Hf Hg Hh.
  apply st_bind_inv in Hrest as (ptrue & wi & Hi & Hrest).
  pose proof (truthy_world popped wh) as Hwi. rewrite Hi in Hwi. simpl in Hwi. subst wi.
  apply st_bind_inv in Hrest as (ctx & wj & Hj & Hrest).
  assert (Hctx : ctx = true /\ dict_inv r (holds "text_cfg" (VDict rt)) wj
                 /\ dict_inv rt (holds "hf_model_name" x) wj).
  { destruct ptrue; [injection Hj as <- <-; auto|].
    destruct fct; [injection Hj as <- <-; auto|].
    rewrite (st_bind_ok _ _ _ _ _ (new_dict_eq [] wh)) in Hj.
    rewrite (st_bind_ok _ _ _ _ _ (dict_inv_get_or _ _ _ _ _ (dict_inv_alloc _ _ _ [] Ir)))
      in Hj.
    rewrite (dict_inv_has _ _ _ _ (dict_inv_alloc _ _ _ [] It)) in Hj.
    injection Hj as <- <-. split; [reflexivity|]. split; now apply dict_inv_alloc. }
  destruct Hctx as (-> & Ir' & It'). clear Hj.
  apply st_bind_inv in Hrest as ([] & wk & Hk & Hrest). injection Hrest as <- <-.
  split; [reflexivity|].
  rewrite (st_bind_ok _ _ _ _ _ (new_dict_eq [] wj)) in Hk.
  rewrite (st_bind_ok _ _ _ _ _ (dict_inv_get_or _ _ _ _ _ (dict_inv_alloc _ _ _ [] Ir')))
    in Hk.
  rewrite (st_bind_ok _ _ _ _ _ (dict_inv_has _ _ _ _ (dict_inv_alloc _ _ _ [] It'))) in Hk.
  rewrite (st_bind_ok _ _ _ _ _ (dict_inv_getitem _ _ _ _ (dict_inv_alloc _ _ _ [] Ir')))
    in Hk.
  pose proof Hk as Hk'. apply setitem_inv in Hk' as (rt' & dt' & [= <-] & Hrt' & ->).
  assert (Ir1 : dict_inv r (holds "text_cfg" (VDict rt))
                  (with_heap (with_heap wj (w_heap wj ++ [[]]))
                     (<[rt := PyDict.set dt' "hf_model_pretrained" (VBool phf)]>
                        (w_heap (with_heap wj (w_heap wj ++ [[]])))))).
  { eapply (preserves_run (dict_inv r (holds "text_cfg" (VDict rt))));
      [|exact Hk|apply dict_inv_alloc; exact Ir'].
    apply dinv_setitem. holds_side. }
  rewrite (st_bind_ok _ _ _ _ _ (dict_inv_getitem _ _ _ _ Ir1)).
  apply dict_inv_getitem. eexists. split.
  - simpl. apply list_lookup_insert_eq. eapply lookup_lt_Some; eauto.
  - unfold holds. rewrite dict_get_set. now rewrite String.eqb_refl.
Qed.

(** X21. For a configuration whose vision part names a timm model, asking
    for a pretrained image tower sets 'timm_model_pretrained' in the vision
    part of the prepared configuration, keeps the name, and names no image
    tower: a 'model_name' next to the timm model is not looked at. *)
Theorem load_and_prepare_cfg_timm E s cfg0 kts vk tm fqg fpd pi fct phf w
    mn cfg ct wt w1 :
  w_registry w !! s = Some cfg0 ->
  snapshot (max_depth E) (w_heap w) cfg0 = Some (TDict kts) ->
  PyDict.get kts "vision_cfg" = Some (TDict vk) ->
  PyDict.get vk "timm_model_name" = Some tm ->
  pi = true \/ PyDict.mem vk "model_name" = true \/ PyDict.mem vk "pretrained" = true ->
  load_and_prepare_cfg E (VStr s) fqg fpd pi fct phf w = (Ok (mn, cfg, ct, wt), w1) ->
  mn = VStr s /\ wt = VNone /\
  (let* vc := Py.getitem cfg "vision_cfg" in Py.getitem vc "timm_model_pretrained") w1
  = (Ok (VBool true), w1).
Proof.
  intros Hreg Hsn Hvis Htimm Hpre H.
  destruct (load_and_prepare_cfg_vision E s cfg0 kts w Hreg Hsn)
    as (r & h1 & vc & n & Ha & Hb & Hc & Hvc & Hs1 & _).
  cbv zeta in Ha, Hb, Hc. unfold vision_of in Hvc. rewrite Hvis in Hvc. simpl in Hvc.
  set (wa := with_heap (after w [EvGetModelConfig (VStr s) true]) h1) in *.
  set (wb := with_heap wa (h1 ++ [[]])) in *.
  apply load_and_prepare_cfg_steps in H
    as (wa' & dflt & wb' & vision_cfg & pimg & wd & we & wf & wg & popped & wh
        & Ha' & Hb' & Hc' & Hd' & He' & Hf & Hg & Hh & Hrest).
  rewrite Ha in Ha'. injection Ha' as <- <-. fold wa in Hb'.
  rewrite Hb in Hb'. injection Hb' as <- <-. fold wb in Hc'.
  rewrite Hc in Hc'. injection Hc' as <-.
  assert (Hhas : forall k, Py.has k vc wb = (Ok (PyDict.mem vk k), wb)).
  { intros k. now apply (has_doc n wb vc (TDict vk)). }
  assert (Hpimg : pimg = true /\ wd = wb).
  { destruct pi; [now injection Hd' as <- <-|].
    rewrite (st_bind_ok _ _ _ _ _ (Hhas _)) in Hd'.
    destruct Hpre as [|[Hm|Hm]]; [discriminate| |].
    - rewrite Hm in Hd'. now injection Hd' as <- <-.
    - destruct (PyDict.mem vk "model_name"); [now injection Hd' as <- <-|].
      rewrite Hhas, Hm in Hd'. now injection Hd' as <- <-. }
  destruct Hpimg as [-> ->].
  rewrite (st_bind_ok _ _ _ _ _ (Hhas _)) in He'. unfold PyDict.mem at 1 in He'.
  rewrite Htimm in He'.
  apply st_bind_inv in He' as (vc' & wx & Hgv & He').
  apply getitem_inv in Hgv as (r' & d & [= <-] & Hr & Hgd & ->).
  apply st_bind_inv in He' as ([] & wy & Hset & He'). injection He' as <- <- <-.
  split; [reflexivity|]. split; [reflexivity|].
  pose proof Hset as Hset'. apply setitem_inv in Hset' as (rv & dv & -> & Hrv & ->).
  set (we := with_heap wb (<[rv := PyDict.set dv "timm_model_pretrained" (VBool true)]>
                             (w_heap wb))) in *.
  assert (Ir : dict_inv r (holds "vision_cfg" (VDict rv)) we).
  { eapply (preserves_run (dict_inv r (holds "vision_cfg" (VDict rv))));
      [|exact Hset|now exists d]. apply dinv_setitem. holds_side. }
  assert (Iv : dict_inv rv (holds "timm_model_pretrained" (VBool true)) we).
  { eexists. split.
    - simpl. apply list_lookup_insert_eq. eapply lookup_lt_Some; eauto.
    - unfold holds. rewrite dict_get_set. now rewrite String.eqb_refl. }
  assert (Ir1 : dict_inv r (holds "vision_cfg" (VDict rv)) w1).
  { eapply (preserves_run (dict_inv r (holds "vision_cfg" (VDict rv))));
      [|exact Hrest|]; [apply custom_text_part_keeps; holds_side|].
    eapply (preserves_run (dict_inv r (holds "vision_cfg" (VDict rv))));
      [|exact Hh|]; [apply dinv_pop; holds_side|].
    assert (If : dict_inv r (holds "vision_cfg" (VDict rv)) wf).
    { eapply (preserves_run (dict_inv r (holds "vision_cfg" (VDict rv))));
        [|exact Hf|exact Ir]. dpres ltac:(idtac; holds_side). }
    destruct fpd as [p|]; [|now injection Hg as <-].
    eapply (preserves_run (dict_inv r (holds "vision_cfg" (VDict rv))));
      [|exact Hg|exact If]. dpres ltac:(idtac; holds_side). }
  assert (Iv1 : dict_inv rv (holds "timm_model_pretrained" (VBool true)) w1).
  { eapply (preserves_run (dict_inv rv (holds "timm_model_pretrained" (VBool true))));
      [|exact Hrest|]; [apply custom_text_part_keeps; holds_side|].
    eapply (preserves_run (dict_inv rv (holds "timm_model_pretrained" (VBool true))));
      [|exact Hh|]; [apply dinv_pop; holds_side|].
    assert (If : dict_inv rv (holds "timm_model_pretrained" (VBool true)) wf).
    { eapply (preserves_run (dict_inv rv (holds "timm_model_pretrained" (VBool true))));
        [|exact Hf|exact Iv]. dpres ltac:(idtac; holds_side). }
    destruct fpd as [p|]; [|now injection Hg as <-].
    eapply (preserves_run (dict_inv rv (holds "timm_model_pretrained" (VBool true))));
      [|exact Hg|exact If]. dpres ltac:(idtac; holds_side). }
  rewrite (st_bind_ok _ _ _ _ _ (dict_inv_getitem _ _ _ _ Ir1)).
  now apply dict_inv_getitem.
Qed.

(** ** From the files to the factory *)

Lemma foldr_max_le {A} (f : A -> nat) x l :
  x ∈ l -> f x <= foldr Nat.max 0 (map f l).
Proof.
  induction l as [|y l IH]; intros Hin; [inversion Hin|].
  apply elem_of_cons in Hin as [->|Hin]; simpl; [lia|]. specialize (IH Hin). lia.
Qed.

(** A value that reads back as a document does so at the depth of the
    document. *)
Lemma snapshot_depth t : forall n h v,
  snapshot n h v = Some t -> snapshot (tree_depth t) h v = Some t.
Proof.
  induction t as [| | | | |ts IH|kts IH] using tree_nested_ind; intros n h v H;
    destruct n as [|n]; try discriminate; rewrite snapshot_S in H;
    destruct v as [| | | | |vs|r]; try discriminate H;
    try (inversion H; subst; reflexivity);
    try (apply fmap_Some in H as (? & _ & [=]); fail);
    try (apply bind_Some in H as (? & _ & H); apply fmap_Some in H as (? & _ & [=]); fail).
  - apply fmap_Some in H as (ts' & Hm & [= <-]).
    cbn [tree_depth]. rewrite snapshot_S. apply fmap_Some. exists ts. split; [|reflexivity].
    apply mapM_Some. apply mapM_Some in Hm.
    assert (Hle : Forall (fun t => tree_depth t <= foldr Nat.max 0 (map tree_depth ts)) ts).
    { apply Forall_forall. intros x Hx. now apply (foldr_max_le tree_depth). }
    revert Hle. generalize (foldr Nat.max 0 (map tree_depth ts)). intros m Hle.
    induction Hm as [|x y vs ts Hxy _ IHm]; [constructor|].
    apply Forall_cons in IH as [IHy IH]. apply Forall_cons in Hle as [Hy Hle].
    constructor; [|now apply IHm].
    eapply snapshot_fuel; [exact Hy|]. eapply IHy. exact Hxy.
  - apply bind_Some in H as (d & Hd & H). apply fmap_Some in H as (kts' & Hm & [= <-]).
    cbn [tree_depth]. rewrite snapshot_S. apply bind_Some. exists d. split; [exact Hd|].
    apply fmap_Some. exists kts. split; [|reflexivity].
    apply mapM_Some. apply mapM_Some in Hm.
    assert (Hle : Forall (fun kt => tree_depth kt.2
                            <= foldr Nat.max 0 (map (fun kt => tree_depth kt.2) kts)) kts).
    { apply Forall_forall. intros x Hx. now apply (foldr_max_le (fun kt => tree_depth kt.2)). }
    revert Hle. generalize (foldr Nat.max 0 (map (fun kt => tree_depth kt.2) kts)).
    intros m Hle. clear Hd.
    induction Hm as [|x y d kts Hxy _ IHm]; [constructor|].
    apply Forall_cons in IH as [IHy IH]. apply Forall_cons in Hle as [Hy Hle].
    constructor; [|now apply IHm].
    unfold snap_item in *. apply bind_Some in Hxy as (t & Ht & [= <-]). simpl in *.
    apply bind_Some. exists t. split; [|reflexivity].
    eapply snapshot_fuel; [exact Hy|]. eapply IHy. exact Ht.
Qed.

(** X22. What the scan registers is what the factory finds: after a scan
    that completes, [get_model_config] for the name of a file with the
    three keys returns a fresh copy of the document of the last such file,
    provided the document nests no deeper than [deepcopy] can follow. *)
Theorem scanned_config_is_returned E FS st st' before cf later t :
  _rescan_model_configs FS st = (None, st') ->
  config_files_of FS (config_paths st) = before ++ cf :: later ->
  (forall cf', cf' ∈ later -> path_stem FS cf' <> path_stem FS cf) ->
  read_json FS cf = Json t ->
  has_config_keys t = Some true ->
  tree_depth (canon t) <= max_depth E ->
  exists c w1,
    get_model_config E (VStr (path_stem FS cf)) (ms_world st') = (Ok c, w1) /\
    snapshot (max_depth E) (w_heap w1) c = Some (canon t) /\
    fresh_val (List.length (w_heap (ms_world st'))) c = true /\
    w_registry w1 = w_registry (ms_world st').
Proof.
  intros Hrun Hfiles Hlater Hread Hkeys Hdepth.
  destruct (rescan_eq FS st) as (order & Ho & Heq). rewrite Heq, Hfiles in Hrun.
  destruct (register_configs FS (before ++ cf :: later) st) as [[e|] st1] eqn:H1;
    [discriminate|].
  injection Hrun as <-. simpl.
  destruct (register_configs_last _ _ _ _ _ _ _ H1 Hread Hkeys Hlater) as (v & n & Hv & Hs).
  apply snapshot_depth in Hs. apply (snapshot_fuel _ _ _ _ _ Hdepth) in Hs.
  destruct (get_model_config_known E _ _ _ _ Hv Hs) as (c & h' & Hc & Hsc & Hfresh & _).
  eexists c, _. split; [exact Hc|]. split; [exact Hsc|]. split; [exact Hfresh|reflexivity].
Qed.

(** X23. A configuration file without one of the three keys does not make
    a model: when no collected file with the three keys carries a name
    that was not registered before, the name is unknown after the scan,
    whatever its outcome, and [create_model] raises the [RuntimeError]
    that says so. *)
Theorem incomplete_config_is_not_found E FS st name :
  w_registry (ms_world st) !! name = None ->
  (forall cf t, cf ∈ config_files_of FS (config_paths st) ->
                path_stem FS cf = name -> read_json FS cf = Json t ->
                has_config_keys t <> Some true) ->
  let w' := ms_world (_rescan_model_configs FS st).2 in
  (get_model_config E (VStr name) w').1 = Ok VNone /\
  forall model_name pretrained precision device jit fqg fct fpd pi phf cache_dir,
    normalize_name model_name = name ->
    (create_model E model_name pretrained precision device jit fqg fct fpd pi phf
       cache_dir w').1
    = Raise (RuntimeError ("Model config for " +:+ name +:+ " not found.")).
Proof.
  intros Hnone Hfiles w'.
  assert (Hreg : w_registry w' !! name = None).
  { rewrite <- Hnone. subst w'.
    pose proof (register_configs_untouched FS name
                  (config_files_of FS (config_paths st)) st) as Hu.
    destruct (rescan_eq FS st) as (order & Ho & ->).
    destruct (register_configs FS (config_files_of FS (config_paths st)) st)
      as [[e|] st1]; simpl in *; apply Hu; intros cf Hin Hstem Hout;
      apply file_outcome_registers in Hout as (t & Hread & Hkeys);
      exact (Hfiles cf t Hin Hstem Hread Hkeys). }
  split; [now rewrite get_model_config_unknown|].
  intros model_name pretrained precision device jit fqg fct fpd pi phf cache_dir Hname.
  unfold create_model. fold (normalize_name model_name). rewrite Hname.
  erewrite st_bind_raise by (apply load_and_prepare_cfg_unknown; exact Hreg).
  reflexivity.
Qed.

(** * The statements at work, on the small framework *)

Lemma create_model_linear_order_witness :
  let E := Toy.env Toy.sample_files Toy.one_tag in
  exists m w',
    create_model E "RN50" (Some "laion400m_e32") "fp16" (inl "cpu") true false
      false None false true None Toy.sample_world = (Ok m, w') /\
    w_trace w'
    = [EvGetModelConfig (VStr "RN50") true; EvConstruct false;
       EvDownloadPretrained; EvTorchLoad (VStr "/plain.pt");
       EvLoadStateDict false true;
       EvToDevice; EvConvertLP float16; EvJitScript] /\
    m_body m = [("visual.conv1.weight", CTensor 1); ("logit_scale", CTensor 2)].
Proof.
  intros E. eexists _, _.
  eassert (H : create_model E "RN50" (Some "laion400m_e32") "fp16" (inl "cpu")
                 true false false None false true None Toy.sample_world
               = (Ok _, _)) by (vm_compute; reflexivity).
  split; [exact H|].
  apply create_model_linear_order in H
    as (mn & cfg & ct & wt & w1 & cfgs & H1 & Htr & Hcfgs & Hrest).
  vm_compute in H1. injection H1 as <- <- <- <- <-.
  destruct (Hrest eq_refl)
    as (kw & pcfg & loaded & loads & mean & std & Hkw & _ & Hw & _ & _ & Hm & Hl).
  vm_compute in Hw. destruct Hw as (_ & calls & (sd & Hsd & -> & ->) & ->).
  specialize (Hsd Toy.sample_world). injection Hsd as <-.
  rewrite Hm.
  split; [rewrite Hl; reflexivity|]. reflexivity.
Defined.

(** C2 fails as stated: the call succeeds away from the pure-OpenAI path,
    and the pretrained OpenAI model is loaded before the network is
    instantiated, not after. *)
Lemma create_model_linear_order_counterexample :
  let E := Toy.env Toy.no_files Toy.no_tags in
  let run := create_model E "tower" None "fp32" (inl "cpu") false false false None
               false true None ToyConfigs.configs_world in
  (exists cfg ct w1,
     load_and_prepare_cfg E (VStr "tower") false None false false true
       ToyConfigs.configs_world = (Ok (VStr "ViT-B-32", cfg, ct, VStr "openai"), w1)) /\
  is_pure_openai None (extract_tower (VStr "openai")) = false /\
  (exists m, run.1 = Ok m) /\
  w_trace run.2
  = [EvGetModelConfig (VStr "tower") true; EvGetModelConfig (VStr "ViT-B-32") true;
     EvLoadOpenAI (VStr "ViT-B-32") "fp32" false;
     EvConstruct false;
     EvSetVisual; EvToDevice].
Proof.
  intros E run. split; [eexists _, _, _; vm_compute; reflexivity|].
  split; [reflexivity|]. split; [eexists; vm_compute; reflexivity|].
  vm_compute. reflexivity.
Defined.

Lemma create_model_precision_cast_witness :
  let E := Toy.env Toy.sample_files Toy.one_tag in
  exists m w',
    create_model E "RN50" None "bf16" (inl "cpu") false false
      false None false true None Toy.sample_world = (Ok m, w') /\
    exists before,
      Forall (fun e => is_convert_event e = false) before /\
      w_trace w' = before ++ [EvToDevice; EvConvertLP bfloat16].
Proof.
  intros E. eexists _, _.
  eassert (H : create_model E "RN50" None "bf16" (inl "cpu")
                 false false false None false true None Toy.sample_world
               = (Ok _, _)) by (vm_compute; reflexivity).
  split; [exact H|].
  apply create_model_precision_cast in H
    as (_ & mn & cfg & ct & wt & w1 & H1 & Hrest).
  vm_compute in H1. injection H1 as <- <- <- <- <-.
  destruct (Hrest eq_refl) as (before & m1 & mean & std & Hb & Hl & _).
  exists before. split; [exact Hb|]. rewrite Hl. reflexivity.
Defined.

Lemma create_model_unknown_pretrained_witness :
  let E := Toy.env Toy.no_files Toy.one_tag in
  "laion2b" <> "" /\ PyStr.lower "laion2b" <> "openai" /\
  get_pretrained_cfg E (VStr "RN50") (VStr "laion2b") = [] /\
  os_path_exists E (VStr "laion2b") = false /\
  is_pretrained_cfg E "RN50" "laion2b" = false /\
  create_model E "RN50" (Some "laion2b") "fp32" (inl "cpu") false false false
    None false true None Toy.sample_world
  = (Raise (RuntimeError
       "Pretrained weights (laion2b) not found for model RN50.Available pretrained tags (['laion400m_e32']."),
     after (load_and_prepare_cfg E (VStr "RN50") false None false false true
              Toy.sample_world).2 [EvConstruct false]) /\
  (create_model E "typed" (Some "laion2b") "fp32" (inl "cpu") false false false
     None false true None ToyConfigs.cast_dtype_world).1
  = Raise TypeError /\
  create_model_from_pretrained E "RN50" "laion2b" "fp32" (inl "cpu") false false
    false true None None None Toy.sample_world
  = (Raise (RuntimeError
       "laion2b is not a valid pretrained cfg or checkpoint for RN50. Use open_clip.list_pretrained() to find one."),
     Toy.sample_world).
Proof.
  intros E.
  assert (H1 : "laion2b" <> "") by discriminate.
  assert (H2 : PyStr.lower "laion2b" <> "openai") by discriminate.
  split; [exact H1|]. split; [exact H2|]. split; [reflexivity|]. split; [reflexivity|].
  split; [reflexivity|].
  destruct (create_model_unknown_pretrained E "laion2b") as [Hc Hf].
  split; [|split].
  - eassert (H : load_and_prepare_cfg E (VStr (normalize_name "RN50")) false None
                   false false true Toy.sample_world
                 = (Ok (_, _, _, VNone), _)) by (vm_compute; reflexivity).
    destruct (Hc "RN50" "fp32" (inl "cpu") false false false None false true None
                _ _ _ _ _ H H1 H2 eq_refl eq_refl) as (kw & Hkw & Hrun).
    vm_compute in Hkw. injection Hkw as <-. rewrite Hrun. reflexivity.
  - eassert (H : load_and_prepare_cfg E (VStr (normalize_name "typed")) false None
                   false false true ToyConfigs.cast_dtype_world
                 = (Ok (_, _, _, VNone), _)) by (vm_compute; reflexivity).
    destruct (Hc "typed" "fp32" (inl "cpu") false false false None false true None
                _ _ _ _ _ H H1 H2 eq_refl eq_refl) as (kw & Hkw & Hrun).
    vm_compute in Hkw. injection Hkw as <-. rewrite Hrun. reflexivity.
  - apply Hf; reflexivity.
Defined.

(** C5 fails as stated: 'OPENAI' is not the string 'openai', names no
    pretrained configuration and is not a path, and there is no image
    tower; yet [create_model] takes the OpenAI path and returns a model. *)
Lemma create_model_unknown_pretrained_counterexample :
  let E := Toy.env Toy.no_files Toy.no_tags in
  let run := create_model E "RN50" (Some "OPENAI") "fp32" (inl "cpu") false
               false false None false true None Toy.sample_world in
  "OPENAI" <> "" /\ "OPENAI" <> "openai" /\
  get_pretrained_cfg E (VStr "RN50") (VStr "OPENAI") = [] /\
  os_path_exists E (VStr "OPENAI") = false /\
  (exists cfg ct w1,
     load_and_prepare_cfg E (VStr "RN50") false None false false true
       Toy.sample_world = (Ok (VStr "RN50", cfg, ct, VNone), w1)) /\
  run.1 = Ok (load_openai_model E (VStr "RN50") "fp32" "cpu" false None) /\
  w_trace run.2 = [EvGetModelConfig (VStr "RN50") true;
                   EvLoadOpenAI (VStr "RN50") "fp32" false] /\
  (forall msg, run.1 <> Raise (RuntimeError msg)).
Proof.
  intros E run. split; [discriminate|]. split; [discriminate|].
  split; [reflexivity|]. split; [reflexivity|].
  split; [eexists _, _, _; vm_compute; reflexivity|].
  split; [vm_compute; reflexivity|]. split; [vm_compute; reflexivity|].
  intros msg. vm_compute. intros H. discriminate H.
Defined.

Lemma create_model_normalizes_name_witness :
  let E := Toy.env Toy.no_files Toy.no_tags in
  w_registry ToyConfigs.slash_world !! "ViT-B/32" = Some (VDict 12) /\
  w_registry ToyConfigs.slash_world !! "ViT-B-32" = None /\
  create_model E "ViT-B/32" None "fp32" (inl "cpu") false false false None false
    true None ToyConfigs.slash_world
  = (Raise (RuntimeError "Model config for ViT-B-32 not found."),
     after ToyConfigs.slash_world [EvGetModelConfig (VStr "ViT-B-32") false]) /\
  exists rest,
    w_trace (create_model E "ViT-B/32" None "fp32" (inl "cpu") false false false
               None false true None ToyConfigs.configs_world).2
    = EvGetModelConfig (VStr "ViT-B-32") true :: rest.
Proof.
  intros E. split; [reflexivity|]. split; [reflexivity|].
  destruct (create_model_normalizes_name E "ViT-B/32" None "fp32" (inl "cpu") false
              false false None false true None) as (_ & _ & _ & Hlookup).
  split.
  - destruct (Hlookup ToyConfigs.slash_world) as [_ Hnone]. apply Hnone. reflexivity.
  - destruct (Hlookup ToyConfigs.configs_world) as [(rest & Hrest) _].
    exists rest. rewrite Hrest. reflexivity.
Defined.

Lemma load_state_dict_selects_and_strips_witness :
  let E := Toy.env Toy.sample_files Toy.no_tags in
  select_state_dict (torch_load E (VStr "/train.pt"))
  = CDict [("module.visual.conv1.weight", CTensor 1);
           ("module.logit_scale", CTensor 2)] /\
  PyStr.startswith "module.visual.conv1.weight" "module" = true /\
  load_state_dict E (VStr "/train.pt") Toy.sample_world
  = (Ok [("visual.conv1.weight", CTensor 1); ("logit_scale", CTensor 2)],
     after Toy.sample_world [EvTorchLoad (VStr "/train.pt")]).
Proof.
  intros E. split; [reflexivity|]. split; [reflexivity|].
  destruct (load_state_dict_selects_and_strips E (VStr "/train.pt") Toy.sample_world)
    as (_ & _ & H & _).
  destruct (H "module.visual.conv1.weight" (CTensor 1)
              [("module.logit_scale", CTensor 2)] eq_refl) as [_ H2].
  destruct (H2 eq_refl) as (Hr & _ & _). rewrite Hr. reflexivity.
Defined.

(** C4 fails as stated, twice. On a checkpoint whose dictionary is empty
    nothing is returned: [StopIteration] is raised. And when two keys
    differ only in their first 7 characters, the returned dictionary does
    not map the shortened key of the first to its value. *)
Lemma load_state_dict_selects_and_strips_counterexample :
  let E := Toy.env Toy.sample_files Toy.no_tags in
  let clash := [("module.a", CTensor 1); ("modulexa", CTensor 2)] in
  (torch_load E (VStr "/empty.pt") = CDict [] /\
   (load_state_dict E (VStr "/empty.pt") Toy.sample_world).1 = Raise StopIteration /\
   (load_state_dict E (VStr "/empty.pt") Toy.sample_world).1 <> Ok []) /\
  (torch_load E (VStr "/clash.pt") = CDict clash /\
   PyStr.startswith "module.a" "module" = true /\
   exists sd,
     (load_state_dict E (VStr "/clash.pt") Toy.sample_world).1 = Ok sd /\
     PyDict.get clash "module.a" = Some (CTensor 1) /\
     PyDict.get sd (PyStr.drop 7 "module.a") <> Some (CTensor 1)).
Proof.
  intros E clash. split.
  - split; [reflexivity|]. split; [reflexivity|vm_compute; intros H; discriminate H].
  - split; [reflexivity|]. split; [reflexivity|].
    eexists. split; [reflexivity|]. split; [reflexivity|vm_compute; intros H; discriminate H].
Defined.

Lemma load_checkpoint_image_tower_witness :
  let E := Toy.env Toy.sample_files Toy.no_tags in
  let m := Toy.fresh_net "CLIP" in
  VStr "laion2b" <> VNone /\
  (exists v, visual m = Some v) /\
  (load_checkpoint E m (VStr "/plain.pt") true (VStr "laion2b") None
     Toy.sample_world).1
  = Ok (Some tt,
        {| visual := Some {| v_image_size := VInt 224;
                             v_image_mean := None;
                             v_image_std := None;
                             v_body := [("conv1.weight", CTensor 1)] |};
           m_body := m_body m |}).
Proof.
  intros E m. split; [discriminate|]. split; [eexists; reflexivity|].
  eassert (Hsd : load_state_dict E (VStr "/plain.pt") Toy.sample_world = (Ok _, _))
    by reflexivity.
  assert (Hw : VStr "laion2b" <> VNone) by discriminate.
  destruct (load_checkpoint_image_tower E m (VStr "/plain.pt") true (VStr "laion2b")
              Toy.sample_world _ _ _ Hw Hsd eq_refl) as [Hc _].
  rewrite Hc. reflexivity.
Defined.

(** C3 fails as stated: of the two entries whose key starts with 'visual',
    'visual.a' and 'visual_a', one is loaded, under the key 'a', and it is
    the second; the tensor of 'visual.a' is not loaded at all. *)
Lemma load_checkpoint_image_tower_counterexample :
  let E := Toy.env Toy.sample_files Toy.no_tags in
  let m := Toy.fresh_net "CLIP" in
  let checkpoint := [("visual.a", CTensor 1); ("visual_a", CTensor 2);
                     ("logit_scale", CTensor 3)] in
  torch_load E (VStr "/tower.pt") = CDict checkpoint /\
  visual_entries_without_prefix checkpoint
  = [("a", CTensor 1); ("visual_a", CTensor 2)] /\
  exists keys m' v',
    (load_checkpoint E m (VStr "/tower.pt") true (VStr "laion2b") None
       Toy.sample_world).1 = Ok (keys, m') /\
    visual m' = Some v' /\
    v_body v' = [("a", CTensor 2)] /\
    v_body v' <> visual_entries_without_prefix checkpoint /\
    forall k, PyDict.get (v_body v') k <> Some (CTensor 1).
Proof.
  intros E m checkpoint. split; [reflexivity|]. split; [reflexivity|].
  eexists _, _, _. split; [reflexivity|]. split; [reflexivity|].
  split; [reflexivity|]. split.
  { vm_compute. intros H. discriminate H. }
  intros k. change (PyDict.get [("a", CTensor 2)] k <> Some (CTensor 1)).
  unfold PyDict.get. destruct (String.eqb "a" k); intros H; discriminate H.
Defined.

Lemma create_model_and_transforms_same_stats_witness :
  let E := Toy.env Toy.no_files Toy.no_tags in
  exists m preprocess_train preprocess_val w',
    create_model_and_transforms E "RN50" None "fp32" (inl "cpu") false false
      false None false true (Some [VFloat 1 0]) None None Toy.sample_world
    = (Ok (m, preprocess_train, preprocess_val), w') /\
    preprocess_train
    = (VInt 224, true, VList [VFloat 1 0], OPENAI_DATASET_STD E) /\
    preprocess_val
    = (VInt 224, false, VList [VFloat 1 0], OPENAI_DATASET_STD E).
Proof.
  intros E. eexists _, _, _, _.
  eassert (H : create_model_and_transforms E "RN50" None "fp32" (inl "cpu") false
                 false false None false true (Some [VFloat 1 0]) None None
                 Toy.sample_world = (Ok (_, _, _), _)) by (vm_compute; reflexivity).
  split; [exact H|].
  apply create_model_and_transforms_same_stats in H
    as (v & w1 & Hm & Hv & Htrain & Hval & _).
  vm_compute in Hv. injection Hv as <-.
  split; [exact Htrain|exact Hval].
Defined.

(** C7 fails as stated: an empty tuple given as [image_mean] is given, and
    yet the transforms are built from the model's mean. *)
Lemma create_model_and_transforms_same_stats_counterexample :
  let E := Toy.env Toy.no_files Toy.no_tags in
  let given : list value := [] in
  exists m preprocess_train preprocess_val w' v,
    create_model_and_transforms E "RN50" None "fp32" (inl "cpu") false false
      false None false true (Some given) None None Toy.sample_world
    = (Ok (m, preprocess_train, preprocess_val), w') /\
    visual m = Some v /\
    preprocess_train
    = image_transform E (v_image_size v) true (OPENAI_DATASET_MEAN E)
        (OPENAI_DATASET_STD E) /\
    preprocess_train
    <> image_transform E (v_image_size v) true (VList given)
         (OPENAI_DATASET_STD E).
Proof.
  intros E given. eexists _, _, _, _, _.
  split; [vm_compute; reflexivity|]. split; [reflexivity|].
  split; [reflexivity|vm_compute; intros H; discriminate H].
Defined.


(** C10 fails as stated: the name is registered and its 'text_cfg', a JSON
    array, contains 'hf_tokenizer_name'; [get_tokenizer] does not return an
    [HFTokenizer], it raises [TypeError] on subscripting the array. *)
Lemma get_tokenizer_registered_or_fails_counterexample :
  let E := Toy.env Toy.no_files Toy.no_tags in
  let w := Toy.array_text_cfg_world in
  let text_cfg := VList [VStr "hf_tokenizer_name"; VStr "roberta-base"] in
  w_registry w !! "array-text" = Some (VDict 0) /\
  (exists w1, get_model_config E (VStr "array-text") w = (Ok (VDict 3), w1) /\
              Py.getitem (VDict 3) "text_cfg" w1 = (Ok text_cfg, w1) /\
              Py.has "hf_tokenizer_name" text_cfg w1 = (Ok true, w1)) /\
  (get_tokenizer E "array-text" w).1 = Raise TypeError /\
  (forall name, (get_tokenizer E "array-text" w).1 <> Ok (HFTokenizer E name)).
Proof.
  intros E w text_cfg. split; [reflexivity|]. split.
  - eexists. split; [vm_compute; reflexivity|]. split; reflexivity.
  - split; [reflexivity|]. intros name. vm_compute. intros H. discriminate H.
Defined.

(** What the copy is for: an assignment through the registry's own
    reference does change the document of the entry. *)
Example registry_entry_assigned_directly :
  let w' := (Py.setitem (VDict 0) "quick_gelu" (VBool true) Toy.sample_world).2 in
  snapshot 16 (w_heap w') (VDict 0)
  <> snapshot 16 (w_heap Toy.sample_world) (VDict 0).
Proof. vm_compute. intros H. discriminate H. Qed.

Lemma get_tokenizer_registered_or_fails_witness :
  let E := Toy.env Toy.no_files Toy.no_tags in
  w_registry Toy.sample_world !! "ViT-B-32" = None /\
  get_tokenizer E "ViT-B-32" Toy.sample_world
  = (Raise TypeError,
     after Toy.sample_world [EvGetModelConfig (VStr "ViT-B-32") false]) /\
  w_registry Toy.sample_world !! "roberta-ViT-B-32" = Some (VDict 3) /\
  (get_tokenizer E "roberta-ViT-B-32" Toy.sample_world).1
  = Ok (HFTokenizer E (VStr "roberta-base")) /\
  w_registry Toy.sample_world !! "RN50" = Some (VDict 0) /\
  (get_tokenizer E "RN50" Toy.sample_world).1 = Ok (tokenize E).
Proof.
  intros E.
  destruct (get_tokenizer_registered_or_fails E) as [Hnone Hsome].
  split; [reflexivity|]. split; [apply (Hnone "ViT-B-32"); reflexivity|].
  split; [reflexivity|]. split.
  - eassert (Hs : snapshot (max_depth E) (w_heap Toy.sample_world) (VDict 3)
                  = Some (TDict _)) by (vm_compute; reflexivity).
    destruct (Hsome "roberta-ViT-B-32" Toy.sample_world (VDict 3) _ _ eq_refl Hs eq_refl)
      as (w' & H). simpl in H. destruct H as (n' & Hrun & _ & Hstr).
    rewrite Hrun. simpl. now rewrite (Hstr _ eq_refl).
  - split; [reflexivity|].
    eassert (Hs : snapshot (max_depth E) (w_heap Toy.sample_world) (VDict 0)
                  = Some (TDict _)) by (vm_compute; reflexivity).
    destruct (Hsome "RN50" Toy.sample_world (VDict 0) _ _ eq_refl Hs eq_refl)
      as (w' & H). simpl in H. now rewrite H.
Defined.

(** ** Natural keys and the scan, run *)

Lemma natural_key_orders_numbers_witness :
  list_lt (_natural_key "RN50x4") (_natural_key "RN101-quickgelu") = Ok true.
Proof.
  apply (natural_key_orders_numbers "RN" "50" "101" "x4" "-quickgelu");
    (reflexivity || (vm_compute; reflexivity)).
Defined.

Lemma rescan_lists_models_in_natural_order_witness :
  consistent (empty_module ToyFS.fs) /\
  _rescan_model_configs ToyFS.fs (empty_module ToyFS.fs) = (None, ToyFS.imported) /\
  list_models ToyFS.fs ToyFS.imported = ["RN50"; "RN101"] /\
  StronglySorted natural_le (list_models ToyFS.fs ToyFS.imported).
Proof.
  split; [apply consistent_empty|]. split; [vm_compute; reflexivity|].
  split; [vm_compute; reflexivity|].
  apply (rescan_lists_models_in_natural_order ToyFS.fs (empty_module ToyFS.fs)
           ToyFS.imported).
  - apply consistent_empty.
  - vm_compute. reflexivity.
Defined.

Lemma rescan_only_adds_witness :
  config_paths (add_model_config ToyFS.fs (inl "/broken") ToyFS.imported).2
  = ["/configs"; "/broken"] /\
  (add_model_config ToyFS.fs (inl "/broken") ToyFS.imported).1 = Some JSONDecodeError /\
  forall name,
    registered ToyFS.imported name ->
    registered (add_model_config ToyFS.fs (inl "/broken") ToyFS.imported).2 name.
Proof.
  split; [vm_compute; reflexivity|]. split; [vm_compute; reflexivity|].
  apply (rescan_only_adds ToyFS.fs ToyFS.imported (inl "/broken")).
Defined.

Lemma rescan_registers_last_file_witness :
  _rescan_model_configs ToyFS.fs ToyFS.with_extra
  = (None, (_rescan_model_configs ToyFS.fs ToyFS.with_extra).2) /\
  canon ToyFS.rn50_wide
  = TDict [("embed_dim", TInt 768);
           ("vision_cfg", TDict [("image_size", TInt 288)]);
           ("text_cfg", TDict [("context_length", TInt 77)])] /\
  exists v n,
    w_registry (ms_world (_rescan_model_configs ToyFS.fs ToyFS.with_extra).2) !! "RN50"
    = Some v /\
    snapshot n (w_heap (ms_world (_rescan_model_configs ToyFS.fs ToyFS.with_extra).2)) v
    = Some (canon ToyFS.rn50_wide).
Proof.
  split; [vm_compute; reflexivity|]. split; [vm_compute; reflexivity|].
  apply (rescan_registers_last_file ToyFS.fs ToyFS.with_extra _
           ["/configs/RN101.json"; "/configs/notes.json"; "/configs/RN50.json"]
           "/extra/RN50.json" [] ToyFS.rn50_wide).
  - vm_compute. reflexivity.
  - vm_compute. reflexivity.
  - intros cf' Hin. inversion Hin.
  - reflexivity.
  - vm_compute. reflexivity.
Defined.

Lemma rescan_skips_incomplete_files_witness :
  has_config_keys ToyFS.notes = Some false /\
  w_registry (ms_world ToyFS.imported) !! "notes" = None.
Proof.
  split; [vm_compute; reflexivity|].
  unfold ToyFS.imported, import_module.
  rewrite (rescan_skips_incomplete_files ToyFS.fs (empty_module ToyFS.fs) "notes");
    [reflexivity|].
  intros cf t Hin Hstem Hread.
  change (config_files_of ToyFS.fs (config_paths (empty_module ToyFS.fs)))
    with ["/configs/RN101.json"; "/configs/notes.json"; "/configs/RN50.json"] in Hin.
  apply elem_of_cons in Hin as [->|Hin]; [discriminate Hstem|].
  apply elem_of_cons in Hin as [->|Hin].
  - injection Hread as <-. vm_compute. intros H. discriminate H.
  - apply elem_of_cons in Hin as [->|Hin]; [discriminate Hstem|]. inversion Hin.
Defined.



Lemma rescan_twice_same_listing_witness :
  exists st2,
    _rescan_model_configs ToyFS.fs ToyFS.imported = (None, st2) /\
    list_models ToyFS.fs st2 = list_models ToyFS.fs ToyFS.imported /\
    forall name, registered st2 name <-> registered ToyFS.imported name.
Proof.
  apply (rescan_twice_same_listing ToyFS.fs (empty_module ToyFS.fs) ToyFS.imported).
  - apply consistent_empty.
  - vm_compute. reflexivity.
Defined.

(** ** The preparation and the factory, run *)

Lemma load_and_prepare_cfg_applies_overrides_witness :
  let E := Toy.env Toy.no_files Toy.no_tags in
  exists mn cfg ct wt w1,
    load_and_prepare_cfg E (VStr "RN50") true (Some (1, -1)%Z) false false true
      Toy.sample_world = (Ok (mn, cfg, ct, wt), w1) /\
    Py.getitem cfg "quick_gelu" w1 = (Ok (VBool true), w1) /\
    (let* vc := Py.getitem cfg "vision_cfg" in Py.getitem vc "patch_dropout") w1
    = (Ok (VFloat 1 (-1)), w1).
Proof.
  intros E. eexists _, _, _, _, _.
  eassert (H : load_and_prepare_cfg E (VStr "RN50") true (Some (1, -1)%Z) false false
                 true Toy.sample_world = (Ok (_, _, _, _), _))
    by (vm_compute; reflexivity).
  split; [exact H|].
  destruct (load_and_prepare_cfg_applies_overrides _ _ _ _ _ _ _ _ _ _ _ _ _ H)
    as [Hq Hp].
  split; [exact (Hq eq_refl)|exact (Hp _ eq_refl)].
Defined.

Lemma load_and_prepare_cfg_removes_custom_text_witness :
  let E := Toy.env Toy.no_files Toy.no_tags in
  w_registry ToyConfigs.configs_world !! "custom" = Some (VDict 0) /\
  ToyConfigs.configs_heap !! 0
  = Some [("embed_dim", VInt 512); ("custom_text", VBool true);
          ("vision_cfg", VDict 1); ("text_cfg", VDict 2)] /\
  exists mn cfg ct wt w1 kw,
    load_and_prepare_cfg E (VStr "custom") false None false false true
      ToyConfigs.configs_world = (Ok (mn, cfg, ct, wt), w1) /\
    ct = true /\
    Py.kwargs cfg w1 = (Ok kw, w1) /\ PyDict.get kw "custom_text" = None.
Proof.
  intros E. split; [reflexivity|]. split; [reflexivity|].
  eassert (H : load_and_prepare_cfg E (VStr "custom") false None false false true
                 ToyConfigs.configs_world = (Ok (_, _, true, _), _))
    by (vm_compute; reflexivity).
  eassert (Hs : snapshot (max_depth E) (w_heap ToyConfigs.configs_world) (VDict 0)
                = Some (TDict _)) by (vm_compute; reflexivity).
  assert (Hnd : forall kts,
             snapshot (max_depth E) (w_heap ToyConfigs.configs_world) (VDict 0)
             = Some (TDict kts) -> NoDup (map fst kts)).
  { intros kts Hk. rewrite Hs in Hk. injection Hk as <-. cbn [map fst].
    apply (bool_decide_unpack _). vm_compute. reflexivity. }
  destruct (load_and_prepare_cfg_removes_custom_text E "custom" (VDict 0) _ false None
              false false true ToyConfigs.configs_world _ _ _ _ _ eq_refl Hs
              (Hnd _ Hs) H) as (kw & Hkw & Hnone).
  eexists _, _, _, _, _, kw. split; [exact H|]. split; [reflexivity|]. now split.
Defined.

Lemma load_and_prepare_cfg_unintended_logic_witness :
  let E := Toy.env Toy.no_files Toy.no_tags in
  w_registry ToyConfigs.configs_world !! "odd" = Some (VDict 9) /\
  ToyConfigs.configs_heap !! 10 = Some [("pretrained", VStr "laion")] /\
  (create_model E "odd" None "fp32" (inl "cpu") false false false None false true
     None ToyConfigs.configs_world).1
  = Raise (AssertionError
      "Unintended logic triggered, please debug or implement this block.").
Proof.
  intros E. split; [reflexivity|]. split; [reflexivity|].
  eassert (Hs : snapshot (max_depth E) (w_heap ToyConfigs.configs_world) (VDict 9)
                = Some (TDict _)) by (vm_compute; reflexivity).
  destruct (load_and_prepare_cfg_unintended_logic E "odd" (VDict 9) _ false None
              false false true ToyConfigs.configs_world eq_refl Hs eq_refl eq_refl
              (or_intror eq_refl)) as [_ Hc].
  apply Hc. reflexivity.
Defined.

Lemma load_and_prepare_cfg_plain_witness :
  let E := Toy.env Toy.no_files Toy.no_tags in
  w_registry Toy.sample_world !! "RN50" = Some (VDict 0) /\
  exists cfg w1 kts,
    snapshot (max_depth E) (w_heap Toy.sample_world) (VDict 0) = Some (TDict kts) /\
    load_and_prepare_cfg E (VStr "RN50") false None false false true Toy.sample_world
    = (Ok (VStr "RN50", cfg, false, VNone), w1) /\
    snapshot (max_depth E) (w_heap w1) cfg = Some (TDict kts).
Proof.
  intros E. split; [reflexivity|].
  eassert (Hs : snapshot (max_depth E) (w_heap Toy.sample_world) (VDict 0)
                = Some (TDict _)) by (vm_compute; reflexivity).
  destruct (load_and_prepare_cfg_plain E "RN50" (VDict 0) _ true Toy.sample_world
              eq_refl Hs eq_refl eq_refl eq_refl eq_refl)
    as (cfg & w1 & Hrun & Hdoc & _).
  eexists cfg, w1, _. split; [exact Hs|]. now split.
Defined.


Lemma create_model_pure_openai_witness :
  let E := Toy.env Toy.no_files Toy.no_tags in
  PyStr.lower "OpenAI" = "openai" /\
  exists w',
    create_model E "RN50" (Some "OpenAI") "fp16" (inl "cuda") true false false None
      false true None Toy.sample_world
    = (Ok (load_openai_model E (VStr "RN50") "fp16" "cuda" true None), w') /\
    w_trace w'
    = [EvGetModelConfig (VStr "RN50") true; EvLoadOpenAI (VStr "RN50") "fp16" true].
Proof.
  intros E. split; [reflexivity|].
  eassert (H : load_and_prepare_cfg E (VStr (normalize_name "RN50")) false None
                 false false true Toy.sample_world
               = (Ok (_, _, _, VNone), _)) by (vm_compute; reflexivity).
  rewrite (create_model_pure_openai E "RN50" "OpenAI" "fp16" (inl "cuda") true false
             false None false true None _ _ _ _ _ _ H (or_introl eq_refl) eq_refl).
  eexists. split; reflexivity.
Defined.

Lemma create_model_without_pretrained_witness :
  let E := Toy.env Toy.no_files Toy.no_tags in
  (exists m w',
     create_model E "RN50" None "fp32" (inl "cpu") false false false None false true
       None Toy.sample_world = (Ok m, w') /\
     w_trace w' = [EvGetModelConfig (VStr "RN50") true; EvConstruct false; EvToDevice] /\
     (exists v, visual m = Some v /\
                v_image_mean v = Some (OPENAI_DATASET_MEAN E) /\
                v_image_std v = Some (OPENAI_DATASET_STD E))) /\
  (exists w',
     create_model E "typed" None "fp32" (inl "cpu") false false false None false true
       None ToyConfigs.cast_dtype_world = (Raise TypeError, w') /\
     w_trace w' = [EvGetModelConfig (VStr "typed") true]).
Proof.
  intros E. split.
  - eassert (H : load_and_prepare_cfg E (VStr (normalize_name "RN50")) false None
                   false false true Toy.sample_world
                 = (Ok (_, _, _, VNone), _)) by (vm_compute; reflexivity).
    destruct (create_model_without_pretrained E "RN50" None "fp32" (inl "cpu") false
                false false None false true None _ _ _ _ _ H (or_introl eq_refl))
      as (kw & Hkw & _ & Hok).
    vm_compute in Hkw. injection Hkw as <-.
    destruct (Hok eq_refl) as [Hrun _].
    eexists _, _. split; [apply Hrun; vm_compute; intros Hv; discriminate Hv|].
    split; [vm_compute; reflexivity|].
    eexists. split; [vm_compute; reflexivity|]. split; reflexivity.
  - eassert (H : load_and_prepare_cfg E (VStr (normalize_name "typed")) false None
                   false false true ToyConfigs.cast_dtype_world
                 = (Ok (_, _, _, VNone), _)) by (vm_compute; reflexivity).
    destruct (create_model_without_pretrained E "typed" None "fp32" (inl "cpu") false
                false false None false true None _ _ _ _ _ H (or_introl eq_refl))
      as (kw & Hkw & Hdup & _).
    vm_compute in Hkw. injection Hkw as <-.
    eexists. split; [apply Hdup; reflexivity|]. reflexivity.
Defined.

Lemma create_model_openai_image_tower_witness :
  let E := Toy.env Toy.sample_files Toy.one_tag in
  create_model E "tower" (Some "laion400m_e32") "fp32" (inl "cpu") false false false
    None false true None ToyConfigs.configs_world
  = create_model E "tower" None "fp32" (inl "cpu") false false false None false true
      None ToyConfigs.configs_world /\
  exists m w',
    create_model E "tower" None "fp32" (inl "cpu") false false false None false true
      None ToyConfigs.configs_world = (Ok m, w') /\
    m_body m = [("CLIP", CTensor 0)] /\
    w_trace w'
    = [EvGetModelConfig (VStr "tower") true; EvGetModelConfig (VStr "ViT-B-32") true;
       EvLoadOpenAI (VStr "ViT-B-32") "fp32" false; EvConstruct false; EvSetVisual;
       EvToDevice].
Proof.
  intros E.
  eassert (H : load_and_prepare_cfg E (VStr (normalize_name "tower")) false None
                 false false true ToyConfigs.configs_world
               = (Ok (_, _, _, VStr "openai"), _)) by (vm_compute; reflexivity).
  destruct (create_model_openai_image_tower E "tower" "fp32" (inl "cpu") false false
              false None false true None _ _ _ _ _ _ H eq_refl)
    as [Hsame (kw & Hkw & _ & Hrun)].
  split; [apply Hsame|].
  vm_compute in Hkw. injection Hkw as <-.
  eexists _, _. split; [|split].
  - rewrite (Hrun eq_refl None _ eq_refl). vm_compute. reflexivity.
  - reflexivity.
  - reflexivity.
Defined.

Lemma create_model_loads_checkpoint_witness :
  let E := Toy.env Toy.sample_files Toy.one_tag in
  get_pretrained_cfg E (VStr "RN50") (VStr "laion400m_e32") <> [] /\
  download_pretrained E (get_pretrained_cfg E (VStr "RN50") (VStr "laion400m_e32")) None
  = "/plain.pt" /\
  w_trace (create_model E "RN50" (Some "laion400m_e32") "fp32" (inl "cpu") false
             false false None false true None Toy.sample_world).2
  = [EvGetModelConfig (VStr "RN50") true; EvConstruct false; EvDownloadPretrained;
     EvTorchLoad (VStr "/plain.pt"); EvLoadStateDict false true; EvToDevice].
Proof.
  intros E.
  assert (Hcfg : get_pretrained_cfg E (VStr "RN50") (VStr "laion400m_e32") <> [])
    by (vm_compute; intros Hc; discriminate Hc).
  split; [exact Hcfg|]. split; [reflexivity|].
  eassert (H : load_and_prepare_cfg E (VStr (normalize_name "RN50")) false None
                 false false true Toy.sample_world
               = (Ok (_, _, _, VNone), _)) by (vm_compute; reflexivity).
  destruct (create_model_loads_checkpoint E "RN50" "laion400m_e32" "fp32" (inl "cpu")
              false false false None false true None _ _ _ _ _ H)
    as (kw & Hkw & _ & Hrun).
  - vm_compute. intros Hc. discriminate Hc.
  - left. exact Hcfg.
  - discriminate.
  - vm_compute. intros Hc. discriminate Hc.
  - vm_compute in Hkw. injection Hkw as <-. rewrite (Hrun eq_refl).
    vm_compute. reflexivity.
Defined.

Lemma create_model_from_pretrained_agrees_witness :
  let E := Toy.env Toy.sample_files Toy.one_tag in
  is_pretrained_cfg E "RN50" "laion400m_e32" = true /\
  exists m preprocess_train preprocess_val w' w2,
    create_model_and_transforms E "RN50" (Some "laion400m_e32") "fp32" (inl "cpu")
      false false false None false true None None None Toy.sample_world
    = (Ok (m, preprocess_train, preprocess_val), w') /\
    create_model_from_pretrained E "RN50" "laion400m_e32" "fp32" (inl "cpu") false
      false false true None None None Toy.sample_world
    = (Ok (inr (m, preprocess_val)), w2).
Proof.
  intros E. split; [reflexivity|].
  eassert (H : create_model_and_transforms E "RN50" (Some "laion400m_e32") "fp32"
                 (inl "cpu") false false false None false true None None None
                 Toy.sample_world = (Ok (_, _, _), _)) by (vm_compute; reflexivity).
  destruct (create_model_from_pretrained_agrees E "RN50" "laion400m_e32" "fp32"
              (inl "cpu") false false false None None None Toy.sample_world _ _ _ _
              (or_introl eq_refl) H) as [(w2 & Hw2) _].
  eexists _, _, _, _, w2. split; [exact H|exact Hw2].
Defined.

Lemma load_and_prepare_cfg_hf_text_witness :
  let E := Toy.env Toy.no_files Toy.no_tags in
  w_registry Toy.sample_world !! "roberta-ViT-B-32" = Some (VDict 3) /\
  exists mn cfg wt w1,
    load_and_prepare_cfg E (VStr "roberta-ViT-B-32") false None false false false
      Toy.sample_world = (Ok (mn, cfg, true, wt), w1) /\
    (let* tc := Py.getitem cfg "text_cfg" in Py.getitem tc "hf_model_pretrained") w1
    = (Ok (VBool false), w1).
Proof.
  intros E. split; [reflexivity|].
  eassert (H : load_and_prepare_cfg E (VStr "roberta-ViT-B-32") false None false false
                 false Toy.sample_world = (Ok (_, _, true, _), _))
    by (vm_compute; reflexivity).
  eassert (Hs : snapshot (max_depth E) (w_heap Toy.sample_world) (VDict 3)
                = Some (TDict _)) by (vm_compute; reflexivity).
  destruct (load_and_prepare_cfg_hf_text E "roberta-ViT-B-32" (VDict 3) _ _ _ false
              None false false false Toy.sample_world _ _ _ _ _ eq_refl Hs eq_refl
              eq_refl H) as [_ Hset].
  eexists _, _, _, _. split; [exact H|exact Hset].
Defined.

Lemma load_and_prepare_cfg_timm_witness :
  let E := Toy.env Toy.no_files Toy.no_tags in
  w_registry ToyConfigs.configs_world !! "timm-vit" = Some (VDict 3) /\
  exists mn cfg ct wt w1,
    load_and_prepare_cfg E (VStr "timm-vit") false None true false true
      ToyConfigs.configs_world = (Ok (mn, cfg, ct, wt), w1) /\
    mn = VStr "timm-vit" /\ wt = VNone /\
    (let* vc := Py.getitem cfg "vision_cfg" in Py.getitem vc "timm_model_pretrained") w1
    = (Ok (VBool true), w1).
Proof.
  intros E. split; [reflexivity|].
  eassert (H : load_and_prepare_cfg E (VStr "timm-vit") false None true false true
                 ToyConfigs.configs_world = (Ok (_, _, _, _), _))
    by (vm_compute; reflexivity).
  eassert (Hs : snapshot (max_depth E) (w_heap ToyConfigs.configs_world) (VDict 3)
                = Some (TDict _)) by (vm_compute; reflexivity).
  destruct (load_and_prepare_cfg_timm E "timm-vit" (VDict 3) _ _ _ false None true
              false true ToyConfigs.configs_world _ _ _ _ _ eq_refl Hs eq_refl eq_refl
              (or_introl eq_refl) H) as (Hmn & Hwt & Hset).
  eexists _, _, _, _, _. split; [exact H|]. split; [exact Hmn|]. now split.
Defined.

(** ** From the files to the factory, run *)

Lemma scanned_config_is_returned_witness :
  let E := Toy.env Toy.no_files Toy.no_tags in
  tree_depth (canon ToyFS.rn50_wide) <= max_depth E /\
  exists c w1,
    get_model_config E (VStr "RN50")
      (ms_world (_rescan_model_configs ToyFS.fs ToyFS.with_extra).2)
    = (Ok c, w1) /\
    snapshot (max_depth E) (w_heap w1) c
    = Some (TDict [("embed_dim", TInt 768);
                   ("vision_cfg", TDict [("image_size", TInt 288)]);
                   ("text_cfg", TDict [("context_length", TInt 77)])]).
Proof.
  intros E.
  assert (Hd : tree_depth (canon ToyFS.rn50_wide) <= max_depth E)
    by (vm_compute; lia).
  split; [exact Hd|].
  destruct (scanned_config_is_returned E ToyFS.fs ToyFS.with_extra
              (_rescan_model_configs ToyFS.fs ToyFS.with_extra).2
              ["/configs/RN101.json"; "/configs/notes.json"; "/configs/RN50.json"]
              "/extra/RN50.json" [] ToyFS.rn50_wide)
    as (c & w1 & Hc & Hs & _).
  - vm_compute. reflexivity.
  - vm_compute. reflexivity.
  - intros cf' Hin. inversion Hin.
  - reflexivity.
  - vm_compute. reflexivity.
  - exact Hd.
  - exists c, w1. split; [exact Hc|exact Hs].
Defined.

Lemma incomplete_config_is_not_found_witness :
  let E := Toy.env Toy.no_files Toy.no_tags in
  has_config_keys ToyFS.notes = Some false /\
  (create_model E "notes" None "fp32" (inl "cpu") false false false None false true
     None (ms_world ToyFS.imported)).1
  = Raise (RuntimeError "Model config for notes not found.").
Proof.
  intros E. split; [vm_compute; reflexivity|].
  apply (incomplete_config_is_not_found E ToyFS.fs (empty_module ToyFS.fs) "notes");
    [reflexivity| |reflexivity].
  intros cf t Hin Hstem Hread.
  change (config_files_of ToyFS.fs (config_paths (empty_module ToyFS.fs)))
    with ["/configs/RN101.json"; "/configs/notes.json"; "/configs/RN50.json"] in Hin.
  apply elem_of_cons in Hin as [->|Hin]; [discriminate Hstem|].
  apply elem_of_cons in Hin as [->|Hin].
  - injection Hread as <-. vm_compute. intros H. discriminate H.
  - apply elem_of_cons in Hin as [->|Hin]; [discriminate Hstem|]. inversion Hin.
Defined.
